(** * LLview data-acquisition plugins: the record store

    A shallow embedding of the record store that the three scrapers of
    [LLView/da/rms] share, and of its LML serialiser:

    - [Prometheus/prometheus.py], class [Info]      (module [Info] below),
    - [gitlab/gitlab.py],         class [BenchRepo] (module [BenchRepo]),
    - [files/files.py], classes [FileParser] and [OutputAggregator]
      (module [Files]).

    Python dictionaries keep insertion order and the code depends on it
    (ids are handed out in iteration order, deletions happen in the
    order units were marked), so a dictionary is an association list
    with unique keys, see [PyDict].  Exceptions are values of [exn];
    code that mutates the store and may raise returns the store it
    leaves behind together with its outcome. *)

From Stdlib Require Import ZArith String Ascii List Bool Lia.
From Stdlib Require Import Numbers.DecimalString Numbers.DecimalZ Numbers.DecimalPos.
From Stdlib Require Import Floats.PrimFloat Floats.SpecFloat Floats.FloatOps.
From Stdlib Require Import Numbers.Cyclic.Int63.Uint63.
From stdpp Require Import base tactics option list strings gmap sorting.
Import ListNotations.

#[local] Set Warnings "-register-all,-clear-no-such-hyp,-inconsistent-scopes".

Local Open Scope string_scope.
Local Open Scope list_scope.

(** ** Python strings *)

Module PyStr.

(** [s.startswith(p)] *)
Fixpoint startswith (p s : string) : bool :=
  match p, s with
  | EmptyString, _ => true
  | String a p', String b s' => if Ascii.eqb a b then startswith p' s' else false
  | String _ _, EmptyString => false
  end.

(** [p in s] for two strings: [p] occurs at some offset of [s]. *)
Fixpoint contains (p s : string) : bool :=
  startswith p s ||
  match s with
  | EmptyString => false
  | String _ s' => contains p s'
  end.

(** [s[n:]] *)
Fixpoint drop (n : nat) (s : string) : string :=
  match n, s with
  | O, _ => s
  | S n', String _ s' => drop n' s'
  | S _, EmptyString => EmptyString
  end.

(** [c * n] for a one-character string [c] *)
Fixpoint repeat (c : ascii) (n : nat) : string :=
  match n with
  | O => EmptyString
  | S n' => String c (repeat c n')
  end.

(** [s.replace(c, by)] for a one-character [c] *)
Fixpoint replace (c : ascii) (by_ : string) (s : string) : string :=
  match s with
  | EmptyString => EmptyString
  | String a s' =>
      if Ascii.eqb a c then by_ +:+ replace c by_ s'
      else String a (replace c by_ s')
  end.

(** ['{:Ns}'.format(s)]: left-aligned, padded with spaces up to
    width [n], never truncated. *)
Definition ljust (n : nat) (s : string) : string :=
  s +:+ repeat " "%char (n - String.length s).

(** ['{:0Nd}'.format(i)] for a non-negative [i] given by its decimal
    digits: zeros on the left up to width [n], never truncated. *)
Definition zfill (n : nat) (digits : string) : string :=
  repeat "0"%char (n - String.length digits) +:+ digits.

(** [str(z)] for an int *)
Definition of_Z (z : Z) : string := NilZero.string_of_int (Z.to_int z).

(** The characters [str.strip()] removes, among code points below 256. *)
Definition is_space (c : ascii) : bool :=
  let n := nat_of_ascii c in
  (((9 <=? n) && (n <=? 13)) || ((28 <=? n) && (n <=? 32))
   || (n =? 133) || (n =? 160))%nat.

Fixpoint lstrip (s : string) : string :=
  match s with
  | EmptyString => EmptyString
  | String c s' => if is_space c then lstrip s' else s
  end.

(** [rstrip] keeps a character when it is not a space or when
    something survives to its right. *)
Fixpoint rstrip (s : string) : string :=
  match s with
  | EmptyString => EmptyString
  | String c s' =>
      match rstrip s' with
      | EmptyString => if is_space c then EmptyString else String c EmptyString
      | r => String c r
      end
  end.

Definition strip (s : string) : string := rstrip (lstrip s).

(** [s.split(sep)] for a one-character separator: always at least
    one piece. *)
Fixpoint split (sep : ascii) (s : string) : list string :=
  match s with
  | EmptyString => [EmptyString]
  | String c s' =>
      if Ascii.eqb c sep then EmptyString :: split sep s'
      else match split sep s' with
           | p :: ps => String c p :: ps
           | [] => [String c EmptyString]
           end
  end.

(** Truthiness of a string: [bool(s)]. *)
Definition truthy (s : string) : bool :=
  match s with EmptyString => false | _ => true end.

End PyStr.

(** ** Scalars and exceptions *)

(** The scalar field values of a record: [str], [int], [bool] and
    [None].  Floats are left out of field values; the code modelled
    here treats them like any other non-string. *)
Inductive atom : Type :=
| AStr (s : string)
| AInt (z : Z)
| ABool (b : bool)
| ANone.

(** [str(v)], which is also what ['{}'.format(v)] and an f-string
    produce. *)
Definition py_str (v : atom) : string :=
  match v with
  | AStr s => s
  | AInt z => PyStr.of_Z z
  | ABool true => "True"
  | ABool false => "False"
  | ANone => "None"
  end.

Definition is_str (v : atom) : bool :=
  match v with AStr _ => true | _ => false end.

(** [v != s] for a string literal [s]: a non-string never equals it. *)
Definition ne_str (v : atom) (s : string) : bool :=
  match v with
  | AStr t => negb (String.eqb t s)
  | _ => true
  end.

(** [bool(v)] *)
Definition atom_truthy (v : atom) : bool :=
  match v with
  | AStr s => PyStr.truthy s
  | AInt z => negb (z =? 0)%Z
  | ABool b => b
  | ANone => false
  end.

Inductive exn : Type :=
| KeyError (k : string)
| TypeError
| ValueError
| ReError (pattern : string)
| IndexError
| FileNotFoundError
| IsADirectoryError.

Inductive result (A : Type) : Type :=
| Ok (a : A)
| Raise (e : exn).
Arguments Ok {A} a.
Arguments Raise {A} e.

(** ** Insertion-ordered dictionaries *)

Module PyDict.
Section Ops.
Context {V : Type}.

(** [d.get(k)] *)
Fixpoint get (k : string) (d : list (string * V)) : option V :=
  match d with
  | [] => None
  | (k', v) :: d' => if String.eqb k k' then Some v else get k d'
  end.

(** [k in d] *)
Definition mem (k : string) (d : list (string * V)) : bool :=
  match get k d with Some _ => true | None => false end.

(** [d[k] = v]: an existing key keeps its place, a new key goes
    last. *)
Fixpoint set (k : string) (v : V) (d : list (string * V)) : list (string * V) :=
  match d with
  | [] => [(k, v)]
  | (k', v') :: d' =>
      if String.eqb k k' then (k', v) :: d' else (k', v') :: set k v d'
  end.

(** [del d[k]]; [None] stands for the [KeyError]. *)
Fixpoint del (k : string) (d : list (string * V)) : option (list (string * V)) :=
  match d with
  | [] => None
  | (k', v') :: d' =>
      if String.eqb k k' then Some d'
      else match del k d' with
           | Some r => Some ((k', v') :: r)
           | None => None
           end
  end.

Definition keys (d : list (string * V)) : list string := map fst d.

(** [d |= other], and [{**d, **other}] on a copy *)
Definition update (d other : list (string * V)) : list (string * V) :=
  fold_left (fun acc '(k, v) => set k v acc) other d.

(** Keys are unique in a Python dictionary. *)
Definition wf (d : list (string * V)) : Prop := NoDup (keys d).

End Ops.
End PyDict.

(** A record maps field names to scalars; a store maps entity keys to
    records. *)
Abbreviation record := (list (string * atom)).
Abbreviation store := (list (string * list (string * atom))).

(** ** Regular expressions

    The [re] module is outside the repository.  Its patterns are
    modelled by their abstract syntax, over the classical operators;
    [matches] is their language.  What the two entry points the
    scrapers use decide is then: [re.match] succeeds when a prefix of
    the subject is in the language, [re.search] when a substring is.
    Both are computed with derivatives. *)

Module Re.

Inductive regex : Type :=
| Void
| Eps
| Chr (c : ascii)
| Dot
| Alt (r1 r2 : regex)
| Cat (r1 r2 : regex)
| Star (r : regex).

(** [.] matches every character but the newline. *)
Definition newline : ascii := "010"%char.

Inductive matches : regex -> string -> Prop :=
| m_eps : matches Eps EmptyString
| m_chr c : matches (Chr c) (String c EmptyString)
| m_dot c : c <> newline -> matches Dot (String c EmptyString)
| m_alt_l r1 r2 s : matches r1 s -> matches (Alt r1 r2) s
| m_alt_r r1 r2 s : matches r2 s -> matches (Alt r1 r2) s
| m_cat r1 r2 s1 s2 :
    matches r1 s1 -> matches r2 s2 -> matches (Cat r1 r2) (s1 +:+ s2)
| m_star_nil r : matches (Star r) EmptyString
| m_star_cons r s1 s2 :
    matches r s1 -> matches (Star r) s2 -> matches (Star r) (s1 +:+ s2).

Fixpoint nullable (r : regex) : bool :=
  match r with
  | Void | Chr _ | Dot => false
  | Eps | Star _ => true
  | Alt r1 r2 => nullable r1 || nullable r2
  | Cat r1 r2 => nullable r1 && nullable r2
  end.

Fixpoint deriv (a : ascii) (r : regex) : regex :=
  match r with
  | Void | Eps => Void
  | Chr c => if Ascii.eqb a c then Eps else Void
  | Dot => if Ascii.eqb a newline then Void else Eps
  | Alt r1 r2 => Alt (deriv a r1) (deriv a r2)
  | Cat r1 r2 =>
      if nullable r1 then Alt (Cat (deriv a r1) r2) (deriv a r2)
      else Cat (deriv a r1) r2
  | Star r1 => Cat (deriv a r1) (Star r1)
  end.

(** [s] is in the language of [r]. *)
Fixpoint accepts (r : regex) (s : string) : bool :=
  match s with
  | EmptyString => nullable r
  | String a s' => accepts (deriv a r) s'
  end.

(** [bool(re.match(r, s))]: a match that starts at offset 0. *)
Fixpoint match_ (r : regex) (s : string) : bool :=
  nullable r ||
  match s with
  | EmptyString => false
  | String a s' => match_ (deriv a r) s'
  end.

(** [bool(re.search(r, s))]: a match that starts at any offset. *)
Fixpoint search (r : regex) (s : string) : bool :=
  match_ r s ||
  match s with
  | EmptyString => false
  | String _ s' => search r s'
  end.

(** A reader for the patterns that use literal characters, [.] and
    the postfix operators [*], [+] and [?] on one character.  Any
    other special character makes it give up; it stands in for the
    pattern compiler wherever a concrete pattern is needed. *)
Definition special (c : ascii) : bool :=
  PyStr.contains (String c EmptyString) ".^$*+?{}[]\|()".

Definition atom_of (c : ascii) : option regex :=
  if Ascii.eqb c "."%char then Some Dot
  else if special c then None
  else Some (Chr c).

Fixpoint parse (p : string) : option regex :=
  match p with
  | EmptyString => Some Eps
  | String c p' =>
      match atom_of c with
      | None => None
      | Some a =>
          match p' with
          | String "*"%char p'' => option_map (Cat (Star a)) (parse p'')
          | String "+"%char p'' => option_map (Cat (Cat a (Star a))) (parse p'')
          | String "?"%char p'' => option_map (Cat (Alt Eps a)) (parse p'')
          | _ => option_map (Cat a) (parse p')
          end
      end
  end.

End Re.

(** ** Include and exclude rules

    The [exclude] and [include] entries of the configuration are a
    pattern string, a list whose items are pattern strings or
    mappings, or a mapping from a field name to a pattern string or a
    list of them.  A value of any other YAML type matches nothing. *)

Inductive rule : Type :=
| RStr (p : string)
| RList (ps : list string)
| ROther.

Inductive list_item : Type :=
| LStr (p : string)
| LDict (d : list (string * rule))
| LOther.

Inductive pattern : Type :=
| PStr (p : string)
| PList (l : list list_item)
| PDict (d : list (string * rule))
| POther (truthy : bool).

(** [bool(pattern)], as in [if exclude and ...]. *)
Definition pattern_truthy (p : pattern) : bool :=
  match p with
  | PStr s => PyStr.truthy s
  | PList l => match l with [] => false | _ => true end
  | PDict d => match d with [] => false | _ => true end
  | POther b => b
  end.

(** [check_unit] is the same text in [prometheus.py] and [gitlab.py]
    up to the [re] function it calls, so it is written once over that
    function. *)
Section CheckUnit.

(** The pattern compiler of [re]; [None] is [re.error]. *)
Variable compile : string -> option Re.regex.
(** [re.match] or [re.search] on a compiled pattern. *)
Variable re_fn : Re.regex -> string -> bool.

(** [re_fn(p, subject)]: the pattern is compiled first, then the
    subject has to be a string. *)
Definition re_call (p : string) (subject : atom) : result bool :=
  match compile p with
  | None => Raise (ReError p)
  | Some r =>
      match subject with
      | AStr s => Ok (re_fn r s)
      | _ => Raise TypeError
      end
  end.

(** [(key in unit) and re_fn(p, unit[key])] *)
Definition field_matches (unit : record) (key p : string) : result bool :=
  match PyDict.get key unit with
  | None => Ok false
  | Some v => re_call p v
  end.

(** [for v in value: if (key in unit) and re_fn(v, unit[key]): return True] *)
Fixpoint any_field_matches (unit : record) (key : string) (ps : list string)
  : result bool :=
  match ps with
  | [] => Ok false
  | p :: ps' =>
      match field_matches unit key p with
      | Ok true => Ok true
      | Ok false => any_field_matches unit key ps'
      | Raise e => Raise e
      end
  end.

Definition check_rule (unit : record) (key : string) (value : rule) : result bool :=
  match value with
  | RStr p => field_matches unit key p
  | RList ps => any_field_matches unit key ps
  | ROther => Ok false
  end.

(** [for key,value in d.items(): ...] *)
Fixpoint check_dict (unit : record) (d : list (string * rule)) : result bool :=
  match d with
  | [] => Ok false
  | (key, value) :: d' =>
      match check_rule unit key value with
      | Ok true => Ok true
      | Ok false => check_dict unit d'
      | Raise e => Raise e
      end
  end.

Definition check_item (unitname : string) (unit : record) (pat : list_item)
  : result bool :=
  match pat with
  | LStr p => re_call p (AStr unitname)
  | LDict d => check_dict unit d
  | LOther => Ok false
  end.

(** [for pat in pattern: ...] *)
Fixpoint check_list (unitname : string) (unit : record) (l : list list_item)
  : result bool :=
  match l with
  | [] => Ok false
  | pat :: l' =>
      match check_item unitname unit pat with
      | Ok true => Ok true
      | Ok false => check_list unitname unit l'
      | Raise e => Raise e
      end
  end.

Definition check_unit (unitname : string) (unit : record) (pat : pattern)
  : result bool :=
  match pat with
  | PStr p => re_call p (AStr unitname)
  | PList l => check_list unitname unit l
  | PDict d => check_dict unit d
  | POther _ => Ok false
  end.

End CheckUnit.

(** ** LML output

    What the serialisers write, as a list of elements, and the text
    of each element.  [Header] stands for the four writes of the XML
    preamble; every other element is one line.  The text differs
    between the scrapers only in indentation and in how the key of a
    [<data>] element is laid out. *)

Inductive elem : Type :=
| Header
| ObjectsOpen
| Object (id name type : string)
| ObjectsClose
| InformationOpen
| InfoOpen (oid : string)
| Data (key value : string)
| InfoClose
| InformationClose
| Footer.

Definition is_data (e : elem) : bool :=
  match e with Data _ _ => true | _ => false end.

Definition dq : string := String "034"%char EmptyString.
Definition nl : string := String "010"%char EmptyString.

Definition header_text : string :=
  "<?xml version=" +:+ dq +:+ "1.0" +:+ dq +:+ " encoding=" +:+ dq +:+ "UTF-8" +:+ dq +:+ "?>" +:+ nl
  +:+ "<lml:lgui xmlns:lml=" +:+ dq +:+ "http://eclipse.org/ptp/lml" +:+ dq
  +:+ " xmlns:xsi=" +:+ dq +:+ "http://www.w3.org/2001/XMLSchema-instance" +:+ dq +:+ nl
  +:+ "    xsi:schemaLocation=" +:+ dq
  +:+ "http://eclipse.org/ptp/lml http://eclipse.org/ptp/schemas/v1.1/lgui.xsd" +:+ dq +:+ nl
  +:+ "    version=" +:+ dq +:+ "1.1" +:+ dq +:+ ">" +:+ nl.

(** [int(math.log10(n))] for [n > 0]: the number of times [n] can be
    divided by ten before it drops below ten.  ([math.log10] works on
    doubles; its truncation is this number for every [n] below
    [10^14], far more than a dictionary can hold.) *)
Fixpoint ilog10_fuel (fuel n : nat) : nat :=
  match fuel with
  | O => O
  | S fuel' => if (n <? 10)%nat then O else S (ilog10_fuel fuel' (n / 10))
  end.

Definition ilog10 (n : nat) : nat := ilog10_fuel n n.

(** [ceil(log10(n))], the exponent the specification names: the least
    [k] with [n <= 10^k]. *)
Fixpoint clog10_fuel (fuel n k : nat) : nat :=
  match fuel with
  | O => k
  | S fuel' => if (n <=? 10 ^ k)%nat then k else clog10_fuel fuel' n (S k)
  end.

Definition clog10 (n : nat) : nat := clog10_fuel n n 0.

(** [int(math.log10(n))+1 if n>0 else 1] *)
Definition id_digits (n : nat) : nat :=
  match n with
  | O => 1
  | _ => ilog10 n + 1
  end.

(** [f'{prefix}{i:0{digits}d}'] *)
Definition make_id (prefix : string) (digits i : nat) : string :=
  prefix +:+ PyStr.zfill digits (PyStr.of_Z (Z.of_nat i)).

(** The value of a field as [to_LML] of [prometheus.py] and [gitlab.py]
    writes it: double quotes of a string become single quotes. *)
Definition lml_value (v : atom) : string :=
  match v with
  | AStr s => PyStr.replace "034"%char "'" s
  | _ => py_str v
  end.

(** ** Nested dictionaries as objects

    [Info.add] walks two nested dictionaries and writes into one of
    them through references, so the dictionary written to is kept in a
    heap of dictionary objects.  The dictionary read from is a plain
    tree: [add] never writes to it and stores only deep copies of its
    parts. *)

Inductive value : Type :=
| VAtom (a : atom)
| VDict (d : list (string * value)).

Inductive hval : Type :=
| HAtom (a : atom)
| HRef (l : nat).

Abbreviation obj := (list (string * hval)).
Abbreviation heap := (list (list (string * hval))).

Module Mem.

(** The object at [l]; a dangling reference reads as an empty
    dictionary (there is none in a heap built by [deepcopy]). *)
Definition deref (h : heap) (l : nat) : obj := default [] (h !! l).

(** [h[l][k] = v] *)
Definition store_item (l : nat) (k : string) (v : hval) (h : heap) : heap :=
  <[l := PyDict.set k v (deref h l)]> h.

(** The loop of [deepcopy] over the items of a dictionary. *)
Definition copy_items (copy : value -> heap -> hval * heap)
  : list (string * value) -> heap -> list (string * hval) * heap :=
  fix go d h :=
    match d with
    | [] => ([], h)
    | (k, v) :: d' =>
        let '(c, h1) := copy v h in
        let '(cs, h2) := go d' h1 in
        ((k, c) :: cs, h2)
    end.

(** [copy.deepcopy]: a scalar is itself, a dictionary becomes a new
    object whose values are copies. *)
Fixpoint deepcopy (v : value) (h : heap) {struct v} : hval * heap :=
  match v with
  | VAtom a => (HAtom a, h)
  | VDict d =>
      let '(items, h') := copy_items deepcopy d h in
      (HRef (length h'), h' ++ [items])
  end.

(** The tree below a heap value; [fuel] bounds the depth. *)
Fixpoint reify (fuel : nat) (h : heap) (v : hval) : option value :=
  match v with
  | HAtom a => Some (VAtom a)
  | HRef l =>
      match fuel with
      | O => None
      | S fuel' =>
          match h !! l with
          | None => None
          | Some o =>
              option_map VDict
                (mapM (fun kv : string * hval =>
                         option_map (pair (fst kv)) (reify fuel' h (snd kv))) o)
          end
      end
  end.

(** A heap value that is the root of a tree: [tree h v t fp] says that
    [v] stands for the tree [t] in [h], that the objects of [t] are
    those at the locations [fp], and that no object occurs twice. *)
Inductive tree (h : heap) : hval -> value -> gset nat -> Prop :=
| tree_atom a : tree h (HAtom a) (VAtom a) ∅
| tree_dict l o items fp :
    h !! l = Some o -> trees h o items fp -> l ∉ fp ->
    tree h (HRef l) (VDict items) ({[l]} ∪ fp)
with trees (h : heap) : list (string * hval) -> list (string * value) -> gset nat -> Prop :=
| trees_nil : trees h [] [] ∅
| trees_cons k v t o items fp1 fp2 :
    tree h v t fp1 -> trees h o items fp2 -> fp1 ## fp2 ->
    trees h ((k, v) :: o) ((k, t) :: items) (fp1 ∪ fp2).

End Mem.

(** ** Transform functions

    [globals()] of a scraper, as far as [modify] and the file parser
    use it: a name is bound or not, and calling what it is bound to
    with a field value returns a value or raises. *)
Abbreviation registry := (string -> option (atom -> result atom)).

Inductive modify_rule : Type :=
| MStr (names : string)
| MList (names : list string)
| MOther.

Inductive log_entry : Type :=
| NotDefined (funcname : string) (kept : atom)
| SkippedKeys (keys : gset string).

(** ** The file to write

    Before it writes anything [to_LML] makes the directory of the
    file and opens the file.  Whether the file system lets it (the
    rights, the room, what is there already, a name it refuses for
    its length or for a character) is not the program's doing and is
    not modelled: a directory that has a name can be made, and a name
    that can name a file can be opened.  What the shape of the file
    name decides is modelled: the directory of a name without a slash
    is the empty path, which cannot be made, and a name that ends in
    a slash, in [.] or in [..] names a directory.  The theorems about
    [to_LML] are about calls that complete, and compare calls for the
    same file. *)

Module Os.

(** [p[:p.rfind('/') + 1]]: [p] up to its last slash. *)
Fixpoint head (p : string) : string :=
  match p with
  | EmptyString => EmptyString
  | String c p' =>
      match head p' with
      | EmptyString => if Ascii.eqb c "/" then String c EmptyString else EmptyString
      | h => String c h
      end
  end.

(** [s.rstrip('/')] *)
Fixpoint rstrip_sep (s : string) : string :=
  match s with
  | EmptyString => EmptyString
  | String c s' =>
      match rstrip_sep s' with
      | EmptyString => if Ascii.eqb c "/" then EmptyString else String c EmptyString
      | r => String c r
      end
  end.

(** [os.path.dirname(p)]: the head, without the slashes it ends in
    unless it is made of slashes only. *)
Definition dirname (p : string) : string :=
  let head := head p in
  if PyStr.truthy head
     && negb (forallb (fun c => Ascii.eqb c "/") (list_ascii_of_string head))
  then rstrip_sep head
  else head.

(** [os.makedirs(name, exist_ok=True)]: the empty path raises
    [FileNotFoundError]. *)
Definition makedirs (name : string) : result unit :=
  if PyStr.truthy name then Ok tt else Raise FileNotFoundError.

(** [open(filename, "w")], once the directory is there: a name whose
    last component is empty, [.] or [..] is the name of a
    directory. *)
Definition open_w (filename : string) : result unit :=
  let last_component := List.last (PyStr.split "/" filename) EmptyString in
  if String.eqb last_component EmptyString
     || String.eqb last_component "."
     || String.eqb last_component ".."
  then Raise IsADirectoryError
  else Ok tt.

End Os.

(** ** prometheus.py: class Info *)

Module Info.

(** [Info.add_value] *)
Definition add_value (key : string) (value : atom) (dict : record) : record :=
  PyDict.set key (if ne_str value "(null)" then value else AStr EmptyString) dict.

Section Filter.
Variable compile : string -> option Re.regex.

(** [Info.check_unit] tests with [re.match]. *)
Definition check_unit := check_unit compile Re.match_.

(** One round of the first loop of [apply_pattern]. *)
Definition mark (exclude include : pattern) (to_remove : list string)
  (unitname : string) (unit : record) : result (list string) :=
  let after_exclude :=
    if pattern_truthy exclude then
      match check_unit unitname unit exclude with
      | Ok true => Ok (to_remove ++ [unitname])
      | Ok false => Ok to_remove
      | Raise e => Raise e
      end
    else Ok to_remove in
  match after_exclude with
  | Raise e => Raise e
  | Ok to_remove1 =>
      if pattern_truthy include then
        match check_unit unitname unit include with
        | Ok false => Ok (to_remove1 ++ [unitname])
        | Ok true => Ok to_remove1
        | Raise e => Raise e
        end
      else Ok to_remove1
  end.

Fixpoint mark_all (exclude include : pattern) (to_remove : list string)
  (units : store) : result (list string) :=
  match units with
  | [] => Ok to_remove
  | (unitname, unit) :: units' =>
      match mark exclude include to_remove unitname unit with
      | Ok to_remove' => mark_all exclude include to_remove' units'
      | Raise e => Raise e
      end
  end.

(** [for unitname in to_remove: del self._dict[unitname]] *)
Fixpoint del_each (to_remove : list string) (d : store) : store * result unit :=
  match to_remove with
  | [] => (d, Ok tt)
  | unitname :: rest =>
      match PyDict.del unitname d with
      | Some d' => del_each rest d'
      | None => (d, Raise (KeyError unitname))
      end
  end.

(** [Info.apply_pattern]: the store it leaves, and how it ends. *)
Definition apply_pattern (exclude include : pattern) (d : store)
  : store * result unit :=
  match mark_all exclude include [] d with
  | Ok to_remove => del_each to_remove d
  | Raise e => (d, Raise e)
  end.
End Filter.

(** *** to_LML *)

(** [i = 700 if "percore" in filename else 0] *)
Definition first_index (filename : string) : nat :=
  if PyStr.contains "percore" filename then 700%nat else 0%nat.

(** [prefix if prefix else item["__prefix"]] inside the f-string *)
Definition id_prefix (prefix : string) (item : record) : result string :=
  if PyStr.truthy prefix then Ok prefix
  else match PyDict.get "__prefix" item with
       | Some v => Ok (py_str v)
       | None => Raise (KeyError "__prefix")
       end.

(** [stype if stype else item["__type"]] inside the f-string *)
Definition object_type (stype : string) (item : record) : result string :=
  if PyStr.truthy stype then Ok stype
  else match PyDict.get "__type" item with
       | Some v => Ok (py_str v)
       | None => Raise (KeyError "__type")
       end.

(** The first loop: ids are assigned in place, one [<object>] is
    written per unit.  On an exception the units seen so far keep
    their new ids and nothing more is written. *)
Fixpoint write_objects (prefix stype : string) (digits i : nat) (units : store)
  : store * list elem * result unit :=
  match units with
  | [] => ([], [], Ok tt)
  | (key, item) :: rest =>
      let assigned :=
        match PyDict.get "__id" item with
        | Some _ => Ok (item, i)
        | None =>
            match id_prefix prefix item with
            | Ok p => Ok (PyDict.set "__id" (AStr (make_id p digits i)) item, S i)
            | Raise e => Raise e
            end
        end in
      match assigned with
      | Raise e => ((key, item) :: rest, [], Raise e)
      | Ok (item', i') =>
          match PyDict.get "__id" item', object_type stype item' with
          | Some id, Ok ty =>
              let '(rest', out, r) := write_objects prefix stype digits i' rest in
              ((key, item') :: rest', Object (py_str id) key ty :: out, r)
          | None, _ => ((key, item') :: rest, [], Raise (KeyError "__id"))
          | _, Raise e => ((key, item') :: rest, [], Raise e)
          end
      end
  end.

(** The body of the loop over [item.items()]. *)
Definition data_elems (field : string * atom) : list elem :=
  let '(key, value) := field in
  if PyStr.startswith "__nelems" key then [Data (PyStr.drop 2 key) (py_str value)]
  else if PyStr.startswith "__" key then []
  else if negb (is_str value) || ne_str value EmptyString
       then [Data key (lml_value value)]
       else [].

(** The second loop: one [<info>] block per unit. *)
Fixpoint write_infos (units : store) : list elem * result unit :=
  match units with
  | [] => ([], Ok tt)
  | (_, item) :: rest =>
      match PyDict.get "__id" item with
      | None => ([], Raise (KeyError "__id"))
      | Some id =>
          let '(out, r) := write_infos rest in
          (InfoOpen (py_str id) :: flat_map data_elems item ++ InfoClose :: out, r)
      end
  end.

(** What [to_LML] does with the file open: the store with its new
    ids, what was written, and how it ends. *)
Definition write_file (filename prefix stype : string) (d : store)
  : store * list elem * result unit :=
  let digits := id_digits (length d) in
  let i := first_index filename in
  let '(d1, objects, r1) := write_objects prefix stype digits i d in
  match r1 with
  | Raise e => (d1, Header :: ObjectsOpen :: objects, Raise e)
  | Ok _ =>
      let '(infos, r2) := write_infos d1 in
      match r2 with
      | Raise e =>
          (d1, Header :: ObjectsOpen :: objects
               ++ ObjectsClose :: InformationOpen :: infos, Raise e)
      | Ok _ =>
          (d1, Header :: ObjectsOpen :: objects
               ++ ObjectsClose :: InformationOpen :: infos
               ++ [InformationClose; Footer], Ok tt)
      end
  end.

(** [Info.to_LML]: the directory of the file is made and the file is
    opened; when either raises, no id has been set and nothing has
    been written. *)
Definition to_LML (filename prefix stype : string) (d : store)
  : store * list elem * result unit :=
  match Os.makedirs (Os.dirname filename) with
  | Raise e => (d, [], Raise e)
  | Ok _ =>
      match Os.open_w filename with
      | Raise e => (d, [], Raise e)
      | Ok _ => write_file filename prefix stype d
      end
  end.

(** The text of each write. *)
Definition print (e : elem) : string :=
  match e with
  | Header => header_text
  | ObjectsOpen => "<objects>" +:+ nl
  | Object id name type =>
      "<object id=" +:+ dq +:+ id +:+ dq +:+ " name=" +:+ dq +:+ name +:+ dq
      +:+ " type=" +:+ dq +:+ type +:+ dq +:+ "/>" +:+ nl
  | ObjectsClose => "</objects>" +:+ nl
  | InformationOpen => "<information>" +:+ nl
  | InfoOpen oid =>
      "<info oid=" +:+ dq +:+ oid +:+ dq +:+ " type=" +:+ dq +:+ "short" +:+ dq +:+ ">" +:+ nl
  | Data key value =>
      " <data key=" +:+ PyStr.ljust 24 (dq +:+ key +:+ dq)
      +:+ " value=" +:+ dq +:+ value +:+ dq +:+ "/>" +:+ nl
  | InfoClose => "</info>" +:+ nl
  | InformationClose => "</information>" +:+ nl
  | Footer => "</lml:lgui>" +:+ nl
  end.

(** *** modify *)

Section Modify.
Variable globals : registry.

(** [func = globals()[funcname]; func(v)] *)
Definition call_global (funcname : string) (v : atom) : result atom :=
  match globals funcname with
  | None => Raise (KeyError funcname)
  | Some func => func v
  end.

(** The loop over the function names of one key: the value of the
    field after it, the log, and how it ends.  [except KeyError]
    also covers a [KeyError] raised inside the function. *)
Fixpoint apply_funcs (names : list string) (v : atom) (log : list log_entry)
  : atom * list log_entry * result unit :=
  match names with
  | [] => (v, log, Ok tt)
  | funcname :: rest =>
      match call_global funcname v with
      | Ok v' => apply_funcs rest v' log
      | Raise (KeyError _) => apply_funcs rest v (log ++ [NotDefined funcname v])
      | Raise e => (v, log, Raise e)
      end
  end.

Definition func_names (modify : modify_rule) : list string :=
  match modify with
  | MStr names => map PyStr.strip (PyStr.split ","%char names)
  | MList names => names
  | MOther => []
  end.

(** The loop over [modify_dict.items()] for one item. *)
Fixpoint modify_item (modify_dict : list (string * modify_rule)) (item : record)
  (skipped : gset string) (log : list log_entry)
  : record * gset string * list log_entry * result unit :=
  match modify_dict with
  | [] => (item, skipped, log, Ok tt)
  | (key, modify) :: rest =>
      match PyDict.get key item with
      | None => modify_item rest item ({[key]} ∪ skipped) log
      | Some v =>
          let '(v', log', r) := apply_funcs (func_names modify) v log in
          let item' := PyDict.set key v' item in
          match r with
          | Ok _ => modify_item rest item' skipped log'
          | Raise e => (item', skipped, log', Raise e)
          end
      end
  end.

(** The loop over [self._dict.values()]. *)
Fixpoint modify_items (modify_dict : list (string * modify_rule)) (d : store)
  (skipped : gset string) (log : list log_entry)
  : store * gset string * list log_entry * result unit :=
  match d with
  | [] => ([], skipped, log, Ok tt)
  | (unitname, item) :: rest =>
      let '(item', skipped', log', r) := modify_item modify_dict item skipped log in
      match r with
      | Ok _ =>
          let '(rest', skipped'', log'', r') :=
            modify_items modify_dict rest skipped' log' in
          ((unitname, item') :: rest', skipped'', log'', r')
      | Raise e => ((unitname, item') :: rest, skipped', log', Raise e)
      end
  end.

(** [Info.modify] *)
Definition modify (modify_dict : list (string * modify_rule)) (d : store)
  : store * list log_entry * result unit :=
  let '(d', skipped, log, r) := modify_items modify_dict d ∅ [] in
  match r with
  | Ok _ =>
      (d', if decide (skipped = ∅) then log else log ++ [SkippedKeys skipped], Ok tt)
  | Raise e => (d', log, Raise e)
  end.
End Modify.

(** *** add and __add__ *)

(** The loop of [Info.add] over [to_add.items()], writing to the
    object at [target]; [add] is the recursive call. *)
Definition add_loop (add : value -> option nat -> heap -> heap) (target : nat)
  : list (string * value) -> heap -> heap :=
  fix loop items h :=
    match items with
    | [] => h
    | (bk, bv) :: rest =>
        loop rest
          match PyDict.get bk (Mem.deref h target), bv with
          | Some (HRef av), VDict _ => add bv (Some av) h
          | _, _ =>
              let '(c, h1) := Mem.deepcopy bv h in
              Mem.store_item target bk c h1
          end
    end.

(** [Info.add(to_add, add_to)] with [self._dict] at [root].  The
    dictionary written to is [add_to], unless [not add_to] holds:
    for [None] and for an empty dictionary alike it is [self._dict]. *)
Fixpoint add_rec (root : nat) (to_add : value) (add_to : option nat) (h : heap)
  {struct to_add} : heap :=
  match to_add with
  | VAtom _ => h
  | VDict items =>
      let target :=
        match add_to with
        | None => root
        | Some l => match Mem.deref h l with [] => root | _ => l end
        end in
      add_loop (add_rec root) target items h
  end.

Definition add (root : nat) (to_add : list (string * value)) (h : heap) : heap :=
  add_rec root (VDict to_add) None h.

(** [first + second], seen from [first._dict]: [second._dict] is
    merged into it.  ([_raw] is updated with [|=] on the side; it is
    a different dictionary object and no rendering reads it.) *)
Definition __add__ (first : nat) (second : list (string * value)) (h : heap) : heap :=
  add first second h.

(** Merging store [b] into store [a], from trees to a tree: [a] is
    laid out in a fresh heap, [b] is added, the result is read back. *)
Definition merge (a b : list (string * value)) : option value :=
  let '(r, h) := Mem.deepcopy (VDict a) [] in
  match r with
  | HRef root =>
      let h' := __add__ root b h in
      Mem.reify (S (length h')) h' (HRef root)
  | HAtom _ => None
  end.

(** *** substitute_placeholders *)

(** The shortest text [(.*?)\}] can match at the start of [s]: the
    key up to the first closing brace and what follows the brace.
    [.] does not match a newline, so there is no match when a newline
    or the end comes first. *)
Fixpoint placeholder (s : string) : option (string * string) :=
  match s with
  | EmptyString => None
  | String c s' =>
      if Ascii.eqb c "}"%char then Some (EmptyString, s')
      else if Ascii.eqb c Re.newline then None
      else match placeholder s' with
           | Some (key, rest) => Some (String c key, rest)
           | None => None
           end
  end.

(** [re.sub(r'\{(.*?)\}', repl, s)], from left to right: what [repl]
    returns is not scanned again.  [fuel] bounds the characters
    read. *)
Fixpoint sub_placeholders (fuel : nat) (values : list (string * string)) (s : string)
  : string :=
  match fuel with
  | O => s
  | S fuel' =>
      match s with
      | EmptyString => EmptyString
      | String c s' =>
          if Ascii.eqb c "{"%char then
            match placeholder s' with
            | Some (key, rest) =>
                default ("{" +:+ key +:+ "}") (PyDict.get key values)
                +:+ sub_placeholders fuel' values rest
            | None => String c (sub_placeholders fuel' values s')
            end
          else String c (sub_placeholders fuel' values s')
      end
  end.

(** [Info.substitute_placeholders], for [values] that are strings
    (the labels of a series). *)
Definition substitute_placeholders (template : string) (values : list (string * string))
  : string :=
  sub_placeholders (String.length template) values template.

(** *** query: the loop that closes it *)

(** [self._raw[instance]["__prefix"] = prefix] and the same for the
    type, each when given. *)
Definition tag_unit (prefix stype : string) (unit : record) : record :=
  let unit1 := if PyStr.truthy prefix then PyDict.set "__prefix" (AStr prefix) unit else unit in
  if PyStr.truthy stype then PyDict.set "__type" (AStr stype) unit1 else unit1.

(** The loop over [metrics.items()] that adds the default values;
    of a metric only its [default] entry is read, if it has one. *)
Fixpoint add_defaults (metrics : list (string * option atom)) (unit : record) : record :=
  match metrics with
  | [] => unit
  | (name, metric_default) :: rest =>
      add_defaults rest
        match metric_default with
        | Some v => if PyDict.mem name unit then unit else PyDict.set name v unit
        | None => unit
        end
  end.

(** The loop over [self._raw]. *)
Definition finish_units (prefix stype : string) (metrics : list (string * option atom))
  (raw : store) : store :=
  List.map (fun '(instance, unit) => (instance, add_defaults metrics (tag_unit prefix stype unit)))
           raw.

(** What [query] does once the metrics are collected in [self._raw]:
    the new [_raw] and the new [_dict]. *)
Definition finish_query (prefix stype : string) (metrics : list (string * option atom))
  (raw dict : store) : store * store :=
  let raw' := finish_units prefix stype metrics raw in
  (raw', PyDict.update dict raw').

(** *** parse_unit_block *)

(** [s.split(sep, 1)] for a one-character separator: the text before
    the first [sep] and, when there is one, the text after it. *)
Fixpoint split_once (sep : ascii) (s : string) : string * option string :=
  match s with
  | EmptyString => (EmptyString, None)
  | String c s' =>
      if Ascii.eqb c sep then (EmptyString, Some s')
      else let '(before, after) := split_once sep s' in (String c before, after)
  end.

(** [s.split(p, 1)[1]]: the text after the first occurrence of [p],
    if [p] occurs. *)
Fixpoint after_first (p s : string) : option string :=
  if PyStr.startswith p s then Some (PyStr.drop (String.length p) s)
  else match s with
       | EmptyString => None
       | String _ s' => after_first p s'
       end.

(** Group 1 of the [re.search] for the job name on a line [s] (no
    newline in it).  The pattern is a greedy run of any characters,
    the literal [p], the group, which is any characters, and the end
    of the line: the group is the text after the last occurrence of
    [p]. *)
Fixpoint after_last (p s : string) : option string :=
  match s with
  | EmptyString => if PyStr.startswith p s then Some EmptyString else None
  | String _ s' =>
      match after_last p s' with
      | Some v => Some v
      | None =>
          if PyStr.startswith p s then Some (PyStr.drop (String.length p) s) else None
      end
  end.

(** [self._raw[current_unit]]; [current_unit] starts as [None]. *)
Definition unit_of (current_unit : option string) (raw : store) : result record :=
  match current_unit with
  | None => Raise (KeyError "None")
  | Some u =>
      match PyDict.get u raw with
      | Some item => Ok item
      | None => Raise (KeyError u)
      end
  end.

(** [self.add_value(key, value, self._raw[current_unit])] *)
Definition add_to_unit (key : string) (value : atom) (current_unit : option string)
  (raw : store) : result store :=
  match unit_of current_unit raw with
  | Raise e => Raise e
  | Ok item => Ok (PyDict.set (default EmptyString current_unit) (add_value key value item) raw)
  end.

(** [self._raw[current_unit][key] = value] *)
Definition set_in_unit (key : string) (value : atom) (current_unit : option string)
  (raw : store) : result store :=
  match unit_of current_unit raw with
  | Raise e => Raise e
  | Ok item => Ok (PyDict.set (default EmptyString current_unit) (PyDict.set key value item) raw)
  end.

(** The unit as it is created: [{}], then [__prefix] and [__type]
    when they are given. *)
Definition new_unit (prefix stype : string) : record :=
  (if PyStr.truthy prefix then [("__prefix", AStr prefix)] else [])
  ++ (if PyStr.truthy stype then [("__type", AStr stype)] else []).

(** How the loop over the first line ends: it runs out or breaks,
    with the unit it found, or the function returns from inside it. *)
Inductive first_line_end : Type :=
| Parsed (current_unit : option string)
| Returned.

(** The loop over the pairs of the first line; [unitname] is [None]
    when the caller found no first word. *)
Fixpoint first_pairs (unitname : option string) (prefix stype line : string)
  (pairs : list string) (current_unit : option string) (raw : store)
  : store * result first_line_end :=
  match pairs with
  | [] => (raw, Ok (Parsed current_unit))
  | pair_ :: rest =>
      match split_once "=" pair_ with
      | (_, None) => (raw, Raise ValueError)
      | (key, Some value) =>
          if bool_decide (Some key = unitname) then
            let raw1 := PyDict.set value (new_unit prefix stype) raw in
            match add_to_unit key (AStr value) (Some value) raw1 with
            | Ok raw2 => first_pairs unitname prefix stype line rest (Some value) raw2
            | Raise e => (raw1, Raise e)
            end
          else if String.eqb key "JobName" then
            if PyStr.truthy (default EmptyString current_unit) then
              let value :=
                match after_last "JobName=" line with
                | Some v => AStr v
                | None => ANone
                end in
              match set_in_unit key value current_unit raw with
              | Ok raw1 => (raw1, Ok (Parsed current_unit))
              | Raise e => (raw, Raise e)
              end
            else (raw, Ok Returned)
          else
            match add_to_unit key (AStr value) current_unit raw with
            | Ok raw1 => first_pairs unitname prefix stype line rest current_unit raw1
            | Raise e => (raw, Raise e)
            end
      end
  end.

(** [key, value] of a line or a pair: split on [=], else on [:]. *)
Definition key_value (s : string) : result (string * string) :=
  match split_once "=" s with
  | (key, Some value) => Ok (key, value)
  | (_, None) =>
      match split_once ":" s with
      | (key, Some value) => Ok (key, value)
      | (_, None) => Raise ValueError
      end
  end.

(** The fields that take the rest of their line. *)
Definition whole_line_keys : list string :=
  ["Comment"; "Reason"; "Command"; "WorkDir"; "StdErr"; "StdIn"; "StdOut"; "TRES"; "OS"].

(** The loop over the pairs of another line. *)
Fixpoint line_pairs (line : string) (pairs : list string) (current_unit : option string)
  (raw : store) : store * result unit :=
  match pairs with
  | [] => (raw, Ok tt)
  | pair_ :: rest =>
      match key_value pair_ with
      | Raise e => (raw, Raise e)
      | Ok (key, value) =>
          if String.eqb key "Dist" then
            match after_first (key +:+ "=") line with
            | None => (raw, Raise IndexError)
            | Some v =>
                match set_in_unit key (AStr v) current_unit raw with
                | Ok raw1 => (raw1, Ok tt)
                | Raise e => (raw, Raise e)
                end
            end
          else
            match add_to_unit key (AStr value) current_unit raw with
            | Ok raw1 => line_pairs line rest current_unit raw1
            | Raise e => (raw, Raise e)
            end
      end
  end.

(** The loop over the other lines, stripped. *)
Fixpoint other_lines (lines : list string) (current_unit : option string) (raw : store)
  : store * result unit :=
  match lines with
  | [] => (raw, Ok tt)
  | line :: rest =>
      if negb (PyStr.truthy line) then other_lines rest current_unit raw
      else
        match key_value line with
        | Raise e => (raw, Raise e)
        | Ok (key, value) =>
            if existsb (String.eqb key) whole_line_keys then
              match add_to_unit key (AStr value) current_unit raw with
              | Ok raw1 => other_lines rest current_unit raw1
              | Raise e => (raw, Raise e)
              end
            else
              match line_pairs line (PyStr.split " " line) current_unit raw with
              | (raw1, Ok tt) => other_lines rest current_unit raw1
              | (raw1, Raise e) => (raw1, Raise e)
              end
        end
  end.

(** [Info.parse_unit_block] on [self._raw]; [BenchRepo] has the same
    text. *)
Definition parse_unit_block (unit : string) (unitname : option string)
  (prefix stype : string) (raw : store) : store * result Datatypes.unit :=
  let lines := PyStr.split Re.newline unit in
  let first := PyStr.strip (hd EmptyString lines) in
  match first_pairs unitname prefix stype first (PyStr.split " " first) None raw with
  | (raw1, Raise e) => (raw1, Raise e)
  | (raw1, Ok Returned) => (raw1, Ok tt)
  | (raw1, Ok (Parsed current_unit)) =>
      other_lines (List.map PyStr.strip (tl lines)) current_unit raw1
  end.

(** *** map *)

(** The loop over [mapping_dict.items()] for one item: the new record
    and [skip_keys]. *)
Fixpoint map_fields (mapping_dict : list (string * string)) (item new_item : record)
  (skip_keys : gset string) : record * gset string :=
  match mapping_dict with
  | [] => (new_item, skip_keys)
  | (key, map) :: rest =>
      match PyDict.get key item with
      | None => map_fields rest item new_item ({[key]} ∪ skip_keys)
      | Some v => map_fields rest item (PyDict.set map v new_item) skip_keys
      end
  end.

(** [if k in item: new_dict[unit][k] = item[k]] *)
Definition carry (k : string) (item new_item : record) : record :=
  match PyDict.get k item with
  | Some v => PyDict.set k v new_item
  | None => new_item
  end.

(** The body of the loop over the units. *)
Definition map_item (mapping_dict : list (string * string)) (item : record)
  (skip_keys : gset string) : record * gset string :=
  let '(new_item, skip_keys') := map_fields mapping_dict item [] skip_keys in
  (carry "__prefix" item (carry "__id" item (carry "__type" item new_item)), skip_keys').

Fixpoint map_units (mapping_dict : list (string * string)) (d : store)
  (skip_keys : gset string) : store * gset string :=
  match d with
  | [] => ([], skip_keys)
  | (unit, item) :: rest =>
      let '(new_item, skip1) := map_item mapping_dict item skip_keys in
      let '(rest', skip2) := map_units mapping_dict rest skip1 in
      ((unit, new_item) :: rest', skip2)
  end.

(** [Info.map]: the new [self._dict] and [skip_keys], whose members
    are named in a warning when there are any. *)
Definition map (mapping_dict : list (string * string)) (d : store) : store * gset string :=
  map_units mapping_dict d ∅.

End Info.

(** ** gitlab.py: class BenchRepo *)

Module BenchRepo.

(** [BenchRepo.add_value] *)
Definition add_value (key : string) (value : atom) (dict : record) : record :=
  PyDict.set key (if ne_str value "(null)" then value else AStr EmptyString) dict.

Section Filter.
Variable compile : string -> option Re.regex.

(** [BenchRepo.check_unit] tests with [re.search]. *)
Definition check_unit := check_unit compile Re.search.

(** One round of the loop over [elements.items()]; [to_remove] is a
    set here. *)
Definition mark (exclude include : pattern) (to_remove : gset string)
  (unitname : string) (unit : record) : result (gset string) :=
  let after_exclude :=
    if pattern_truthy exclude then
      match check_unit unitname unit exclude with
      | Ok true => Ok (to_remove ∪ {[unitname]})
      | Ok false => Ok to_remove
      | Raise e => Raise e
      end
    else Ok to_remove in
  match after_exclude with
  | Raise e => Raise e
  | Ok to_remove1 =>
      if pattern_truthy include then
        match check_unit unitname unit include with
        | Ok false => Ok (to_remove1 ∪ {[unitname]})
        | Ok true => Ok to_remove1
        | Raise e => Raise e
        end
      else Ok to_remove1
  end.

Fixpoint mark_all (exclude include : pattern) (to_remove : gset string)
  (units : store) : result (gset string) :=
  match units with
  | [] => Ok to_remove
  | (unitname, unit) :: units' =>
      match mark exclude include to_remove unitname unit with
      | Ok to_remove' => mark_all exclude include to_remove' units'
      | Raise e => Raise e
      end
  end.

(** [for unitname in to_remove: del elements[unitname]] *)
Fixpoint del_each (to_remove : list string) (d : store) : store * result unit :=
  match to_remove with
  | [] => (d, Ok tt)
  | unitname :: rest =>
      match PyDict.del unitname d with
      | Some d' => del_each rest d'
      | None => (d, Raise (KeyError unitname))
      end
  end.

(** [BenchRepo.apply_pattern] on a dictionary of units.  The set is
    walked in the order [elements] lists it. *)
Definition apply_pattern (exclude include : pattern) (d : store)
  : store * result unit :=
  match mark_all exclude include ∅ d with
  | Ok to_remove => del_each (elements to_remove) d
  | Raise e => (d, Raise e)
  end.
End Filter.

(** The body of the loop over [item.items()] in [BenchRepo.to_LML];
    the key of a [__nelems] field is written in full. *)
Definition data_elems (field : string * atom) : list elem :=
  let '(key, value) := field in
  if PyStr.startswith "__nelems" key then [Data key (py_str value)]
  else if PyStr.startswith "__" key then []
  else if negb (is_str value) || ne_str value EmptyString
       then [Data key (lml_value value)]
       else [].

(** *** apply_pattern on a set and on a list *)

Section FilterElements.
Variable compile : string -> option Re.regex.

(** The loop of [search_patterns] over a list of rules: only the
    strings among them are patterns. *)
Fixpoint search_list (l : list list_item) (unit : string) : result bool :=
  match l with
  | [] => Ok false
  | LStr p :: l' =>
      match re_call compile Re.search p (AStr unit) with
      | Ok true => Ok true
      | Ok false => search_list l' unit
      | Raise e => Raise e
      end
  | _ :: l' => search_list l' unit
  end.

(** [BenchRepo.search_patterns] *)
Definition search_patterns (patterns : pattern) (unit : string) : result bool :=
  match patterns with
  | PStr p => re_call compile Re.search p (AStr unit)
  | PList l => search_list l unit
  | PDict _ | POther _ => Ok false
  end.

(** One round of the loop over a set of sources. *)
Definition mark_source (exclude include : pattern) (to_remove : gset string)
  (unit : string) : result (gset string) :=
  let after_exclude :=
    if pattern_truthy exclude then
      match search_patterns exclude unit with
      | Ok true => Ok (to_remove ∪ {[unit]})
      | Ok false => Ok to_remove
      | Raise e => Raise e
      end
    else Ok to_remove in
  match after_exclude with
  | Raise e => Raise e
  | Ok to_remove1 =>
      if pattern_truthy include then
        match search_patterns include unit with
        | Ok false => Ok (to_remove1 ∪ {[unit]})
        | Ok true => Ok to_remove1
        | Raise e => Raise e
        end
      else Ok to_remove1
  end.

Fixpoint mark_sources (exclude include : pattern) (to_remove : gset string)
  (units : list string) : result (gset string) :=
  match units with
  | [] => Ok to_remove
  | unit :: units' =>
      match mark_source exclude include to_remove unit with
      | Ok to_remove' => mark_sources exclude include to_remove' units'
      | Raise e => Raise e
      end
  end.

(** [BenchRepo.apply_pattern] on a set of sources, walked in the
    order [elements] lists it: [elements -= to_remove]. *)
Definition apply_pattern_set (exclude include : pattern) (sources : gset string)
  : gset string * result unit :=
  match mark_sources exclude include ∅ (elements sources) with
  | Ok to_remove => (sources ∖ to_remove, Ok tt)
  | Raise e => (sources, Raise e)
  end.

(** [check_unit] as the list branch calls it: the unit name is the
    position of the unit, a number. *)
Definition check_item_at (unitname : atom) (unit : record) (pat : list_item)
  : result bool :=
  match pat with
  | LStr p => re_call compile Re.search p unitname
  | LDict d => check_dict compile Re.search unit d
  | LOther => Ok false
  end.

Fixpoint check_list_at (unitname : atom) (unit : record) (l : list list_item)
  : result bool :=
  match l with
  | [] => Ok false
  | pat :: l' =>
      match check_item_at unitname unit pat with
      | Ok true => Ok true
      | Ok false => check_list_at unitname unit l'
      | Raise e => Raise e
      end
  end.

Definition check_unit_at (unitname : atom) (unit : record) (pat : pattern)
  : result bool :=
  match pat with
  | PStr p => re_call compile Re.search p unitname
  | PList l => check_list_at unitname unit l
  | PDict d => check_dict compile Re.search unit d
  | POther _ => Ok false
  end.

(** One round of the loop over [enumerate(elements)]. *)
Definition mark_index (exclude include : pattern) (to_remove : gset nat)
  (idx : nat) (unit : record) : result (gset nat) :=
  let after_exclude :=
    if pattern_truthy exclude then
      match check_unit_at (AInt (Z.of_nat idx)) unit exclude with
      | Ok true => Ok (to_remove ∪ {[idx]})
      | Ok false => Ok to_remove
      | Raise e => Raise e
      end
    else Ok to_remove in
  match after_exclude with
  | Raise e => Raise e
  | Ok to_remove1 =>
      if pattern_truthy include then
        match check_unit_at (AInt (Z.of_nat idx)) unit include with
        | Ok false => Ok (to_remove1 ∪ {[idx]})
        | Ok true => Ok to_remove1
        | Raise e => Raise e
        end
      else Ok to_remove1
  end.

Fixpoint mark_indices (exclude include : pattern) (to_remove : gset nat)
  (idx : nat) (units : list record) : result (gset nat) :=
  match units with
  | [] => Ok to_remove
  | unit :: units' =>
      match mark_index exclude include to_remove idx unit with
      | Ok to_remove' => mark_indices exclude include to_remove' (S idx) units'
      | Raise e => Raise e
      end
  end.

(** [sorted(to_remove, reverse=True)] *)
Definition descending (to_remove : gset nat) : list nat :=
  reverse (merge_sort Nat.le (elements to_remove)).

(** [for idx in ...: del elements[idx]] *)
Fixpoint del_indices (idxs : list nat) (units : list record)
  : list record * result unit :=
  match idxs with
  | [] => (units, Ok tt)
  | idx :: rest =>
      if (idx <? length units)%nat then del_indices rest (delete idx units)
      else (units, Raise IndexError)
  end.

(** [BenchRepo.apply_pattern] on a list of units. *)
Definition apply_pattern_list (exclude include : pattern) (units : list record)
  : list record * result unit :=
  match mark_indices exclude include ∅ 0 units with
  | Ok to_remove => del_indices (descending to_remove) units
  | Raise e => (units, Raise e)
  end.

End FilterElements.

(** *** deep_update *)

(** The loop of [deep_update] over [override.items()], for a [target]
    that is a dictionary; [deep_update] is the recursive call. *)
Definition update_loop (deep_update : value -> value -> option value)
  : list (string * value) -> list (string * value) -> option (list (string * value)) :=
  fix loop items target :=
    match items with
    | [] => Some target
    | (key, value) :: rest =>
        match value with
        | VDict _ =>
            match deep_update (default (VDict []) (PyDict.get key target)) value with
            | Some v => loop rest (PyDict.set key v target)
            | None => None
            end
        | VAtom _ => loop rest (PyDict.set key value target)
        end
    end.

(** [BenchRepo.deep_update]: what it returns, which is [target] after
    the update; [None] when it raises.  It raises when [override] is
    not a dictionary, and when [target] is not one but has to take an
    item ([AttributeError] or [TypeError], depending on the item). *)
Fixpoint deep_update (target override : value) {struct override} : option value :=
  match override with
  | VAtom _ => None
  | VDict items =>
      match target with
      | VDict t => option_map VDict (update_loop deep_update items t)
      | VAtom _ => match items with [] => Some target | _ => None end
      end
  end.

End BenchRepo.

(** ** gitlab.py: flatten_json *)

(** What [json.load] returns. *)
Inductive json : Type :=
| JAtom (a : atom)
| JList (l : list json)
| JDict (d : list (string * json)).

(** A value used as a mapping, as in [v[key]] with a string key and
    in [{**v}]: anything but a dictionary raises [TypeError]. *)
Definition as_dict (v : json) : result (list (string * json)) :=
  match v with
  | JDict d => Ok d
  | _ => Raise TypeError
  end.

(** [for x in v]: a list gives its items, a dictionary its keys, a
    string its characters; nothing else can be iterated. *)
Definition iterate (v : json) : result (list json) :=
  match v with
  | JList l => Ok l
  | JDict d => Ok (map (fun k => JAtom (AStr k)) (PyDict.keys d))
  | JAtom (AStr s) =>
      Ok (map (fun c => JAtom (AStr (String c EmptyString))) (list_ascii_of_string s))
  | JAtom _ => Raise TypeError
  end.

(** The loop over [results]. *)
Fixpoint flatten_results (job_info : list (string * json)) (results : list json)
  : result (list (list (string * json))) :=
  match results with
  | [] => Ok []
  | result :: rest =>
      match as_dict result with
      | Raise e => Raise e
      | Ok r =>
          match flatten_results job_info rest with
          | Ok out => Ok (PyDict.update job_info r :: out)
          | Raise e => Raise e
          end
      end
  end.

(** The body of the loop over [jobs]. *)
Definition flatten_job (pipeline_info job : json) : result (list (list (string * json))) :=
  match as_dict pipeline_info with
  | Raise e => Raise e
  | Ok p =>
      match as_dict job with
      | Raise e => Raise e
      | Ok j =>
          match PyDict.del "results" (PyDict.update p j) with
          | None => Raise (KeyError "results")
          | Some job_info =>
              match iterate (default (JList []) (PyDict.get "results" j)) with
              | Raise e => Raise e
              | Ok results => flatten_results job_info results
              end
          end
      end
  end.

Fixpoint flatten_jobs (pipeline_info : json) (jobs : list json)
  : result (list (list (string * json))) :=
  match jobs with
  | [] => Ok []
  | job :: rest =>
      match flatten_job pipeline_info job with
      | Raise e => Raise e
      | Ok rows =>
          match flatten_jobs pipeline_info rest with
          | Ok out => Ok (rows ++ out)
          | Raise e => Raise e
          end
      end
  end.

(** [flatten_json] *)
Definition flatten_json (json_data : json) : result (list (list (string * json))) :=
  match as_dict json_data with
  | Raise e => Raise e
  | Ok top =>
      match PyDict.get "pipeline" top with
      | None => Raise (KeyError "pipeline")
      | Some pipeline_info =>
          match PyDict.get "jobs" top with
          | None => Raise (KeyError "jobs")
          | Some jobs =>
              match iterate jobs with
              | Raise e => Raise e
              | Ok js => flatten_jobs pipeline_info js
              end
          end
      end
  end.

(** ** files.py: FileParser and OutputAggregator *)

(** [a == b] on scalars, as dictionary and set keys compare:
    [True == 1] and [False == 0]. *)
Definition atom_num (a : atom) : option Z :=
  match a with
  | AInt z => Some z
  | ABool b => Some (if b then 1%Z else 0%Z)
  | _ => None
  end.

Definition py_eqb (a b : atom) : bool :=
  match a, b with
  | AStr s, AStr t => String.eqb s t
  | ANone, ANone => true
  | _, _ =>
      match atom_num a, atom_num b with
      | Some x, Some y => (x =? y)%Z
      | _, _ => false
      end
  end.

Definition is_none (a : atom) : bool :=
  match a with ANone => true | _ => false end.

Inductive frules : Type :=
| FNone
| FStr (p : string)
| FList (ps : list string).

Inductive filter_src : Type :=
| SrcRules (r : frules)
| SrcDict (d : list (string * frules)).

Inductive rule_type : Type := Exclude | Include.

(** A metric definition of the configuration, after compilation. *)
Record metric_def : Type := {
  m_name : option string;
  m_groups : option (list string);
  m_scope : option string;
  m_apply : list (string * string);
  m_exclude : filter_src;
  m_include : filter_src
}.

(** A column of an output specification. *)
Record instruction : Type := {
  i_aggregate : option string;
  i_source : option string;
  i_unique : bool;
  i_wrap : option string;
  i_joiner : option string;
  i_static : option atom
}.

Module Files.

(** *** FileParser *)

Section Parser.
Variable compile : string -> option Re.regex.
(** [globals().get(name)] followed by [callable]: a name bound to
    something that cannot be called counts as not bound. *)
Variable globals : registry.

(** The loop over [patterns_to_check]: a pattern that does not
    compile is skipped with a warning. *)
Fixpoint match_found (patterns : list string) (value_str : string) : bool :=
  match patterns with
  | [] => false
  | p_str :: rest =>
      match compile p_str with
      | Some r => if Re.search r value_str then true else match_found rest value_str
      | None => match_found rest value_str
      end
  end.

(** [FileParser._apply_filter_pattern]: is the value kept? *)
Definition _apply_filter_pattern (value_to_filter : atom) (rules : frules)
  (kind : rule_type) : bool :=
  match rules with
  | FNone => true
  | FStr _ | FList _ =>
      let patterns_to_check :=
        match rules with FStr p => [p] | FList ps => ps | FNone => [] end in
      match patterns_to_check with
      | [] => match kind with Include => false | Exclude => true end
      | _ =>
          let found := match_found patterns_to_check (py_str value_to_filter) in
          match kind with Exclude => negb found | Include => found end
      end
  end.

Definition metric_keys (m_def : metric_def) : list string :=
  match m_name m_def with
  | Some name => [name]
  | None => match m_groups m_def with Some groups => groups | None => [] end
  end.

(** One round of the loop over the keys of a metric in the
    transformation pass; [None] is [keep_this_record_overall = False]. *)
Definition transform_key (apply_config : list (string * string))
  (current : record) (metric_key : string) : option record :=
  match PyDict.get metric_key current with
  | None => Some current
  | Some original_value =>
      match PyDict.get metric_key apply_config with
      | None => Some current
      | Some transform_func_name =>
          if PyStr.truthy transform_func_name then
            match globals transform_func_name with
            | Some transform_func =>
                match transform_func original_value with
                | Ok transformed_value =>
                    if is_none transformed_value && negb (is_none original_value)
                       && String.eqb transform_func_name "to_timestamp"
                    then None
                    else Some (PyDict.set metric_key transformed_value current)
                | Raise _ => None
                end
            | None => None
            end
          else Some current
      end
  end.

Fixpoint transform_keys (apply_config : list (string * string))
  (keys : list string) (current : record) : option record :=
  match keys with
  | [] => Some current
  | metric_key :: rest =>
      match transform_key apply_config current metric_key with
      | Some current' => transform_keys apply_config rest current'
      | None => None
      end
  end.

(** The transformation pass over [self._compiled_metrics]. *)
Fixpoint transform_record (metrics : list metric_def) (current : record)
  : option record :=
  match metrics with
  | [] => Some current
  | m_def :: rest =>
      match m_apply m_def with
      | [] => transform_record rest current
      | apply_config =>
          match transform_keys apply_config (metric_keys m_def) current with
          | Some current' => transform_record rest current'
          | None => None
          end
      end
  end.

(** The rules that apply to one key of a metric. *)
Definition current_rules (is_simple : bool) (src : filter_src) (metric_key : string)
  : frules :=
  match src with
  | SrcRules r => if is_simple then r else FNone
  | SrcDict d =>
      if is_simple then FList (map fst d)
      else match PyDict.get metric_key d with Some r => r | None => FNone end
  end.

Fixpoint filter_keys (m_def : metric_def) (keys : list string) (current : record)
  : bool :=
  match keys with
  | [] => true
  | metric_key :: rest =>
      match PyDict.get metric_key current with
      | None => filter_keys m_def rest current
      | Some value_for_filter =>
          let is_simple := match m_name m_def with Some _ => true | None => false end in
          _apply_filter_pattern value_for_filter
            (current_rules is_simple (m_exclude m_def) metric_key) Exclude
          && _apply_filter_pattern value_for_filter
               (current_rules is_simple (m_include m_def) metric_key) Include
          && filter_keys m_def rest current
      end
  end.

(** The filter pass over [self._compiled_metrics]. *)
Fixpoint filter_record (metrics : list metric_def) (current : record) : bool :=
  match metrics with
  | [] => true
  | m_def :: rest =>
      filter_keys m_def (metric_keys m_def) current && filter_record rest current
  end.

(** The body of the loop over [raw_records]: the record to append,
    if any. *)
Definition process_record (metrics : list metric_def) (raw_rec : record)
  : option record :=
  match transform_record metrics raw_rec with
  | None => None
  | Some current =>
      if filter_record metrics current then
        match current with [] => None | _ => Some current end
      else None
  end.

(** [FileParser.process_transformed_records] *)
Definition process_transformed_records (metrics : list metric_def)
  (raw_records : list record) : list record :=
  omap (process_record metrics) raw_records.

End Parser.

(** *** OutputAggregator *)

Section Aggregator.
(** [float(v)]; [None] is its [ValueError] or [TypeError]. *)
Variable py_float : atom -> option float.
(** [sum] of a list of floats, and [str] of a float. *)
Variable py_sum : list float -> float.
Variable repr_float : float -> string.
(** [template.format(v)] *)
Variable format_atom : string -> atom -> result string.
Variable format_float : string -> float -> result string.

Variable default_map : record.
Variable metrics_definitions : list metric_def.

(** [OutputAggregator._get_value_with_default] *)
Definition _get_value_with_default (rec : record) (key : string) : atom :=
  match PyDict.get key rec with
  | Some v => v
  | None => default ANone (PyDict.get key default_map)
  end.

(** [OutputAggregator._is_metric_file_context] *)
Definition _is_metric_file_context (metric_name : string) : bool :=
  existsb
    (fun m_def =>
       match m_scope m_def with
       | Some scope =>
           String.eqb scope "file_context"
           && (match m_name m_def with
               | Some name => String.eqb name metric_name
               | None => false
               end
               || match m_groups m_def with
                  | Some groups => existsb (String.eqb metric_name) groups
                  | None => false
                  end)
       | None => false
       end)
    metrics_definitions.

(** [grouped_by_index[key_val].append(rec)] *)
Fixpoint group_append (key_val : atom) (rec : record)
  (groups : list (atom * list record)) : list (atom * list record) :=
  match groups with
  | [] => [(key_val, [rec])]
  | (k, recs) :: rest =>
      if py_eqb key_val k then (k, recs ++ [rec]) :: rest
      else (k, recs) :: group_append key_val rec rest
  end.

Definition group_by_index (index_key : string) (all_records : list record)
  : list (atom * list record) :=
  fold_left
    (fun groups rec =>
       let key_val := _get_value_with_default rec index_key in
       if is_none key_val then groups else group_append key_val rec groups)
    all_records [].

(** The loop that fills [numeric_values] and counts what [float]
    refuses. *)
Definition collect_numeric (metric : string) (group_records : list record)
  : list float * nat :=
  fold_left
    (fun '(numeric_values, non_numeric_count) r_rec =>
       let raw_val := _get_value_with_default r_rec metric in
       if is_none raw_val then (numeric_values, non_numeric_count)
       else match py_float raw_val with
            | Some x => (numeric_values ++ [x], non_numeric_count)
            | None => (numeric_values, S non_numeric_count)
            end)
    group_records ([], 0%nat).

Definition float_of_nat (n : nat) : float :=
  PrimFloat.of_uint63 (Uint63.of_Z (Z.of_nat n)).

(** [min] and [max] keep the first of the smallest or largest. *)
Definition py_min (x : float) (xs : list float) : float :=
  fold_left (fun cur y => if PrimFloat.ltb y cur then y else cur) xs x.
Definition py_max (x : float) (xs : list float) : float :=
  fold_left (fun cur y => if PrimFloat.ltb cur y then y else cur) xs x.

(** The value of [result_val] for a non-empty [numeric_values]. *)
Definition reduce (agg_type : string) (x : float) (xs : list float) : float :=
  if String.eqb agg_type "min" then py_min x xs
  else if String.eqb agg_type "max" then py_max x xs
  else PrimFloat.div (py_sum (x :: xs)) (float_of_nat (length (x :: xs))).

(** The first occurrences, as [set] and [dict.fromkeys] keep them. *)
Fixpoint distinct (seen vals : list atom) : list atom :=
  match vals with
  | [] => []
  | v :: rest =>
      if existsb (py_eqb v) seen then distinct seen rest
      else v :: distinct (v :: seen) rest
  end.

Definition wrap_of (i : instruction) : option string :=
  match i_wrap i with
  | Some w => if PyStr.truthy w then Some w else None
  | None => None
  end.

(** The [if 'aggregate' in instruction] branch for one column. *)
Definition aggregate_column (agg_type : string) (i : instruction)
  (group_records : list record) : result atom :=
  match i_source i with
  | None => Ok (AStr EmptyString)
  | Some metric_to_aggregate =>
      if negb (PyStr.truthy metric_to_aggregate) then Ok (AStr EmptyString)
      else if String.eqb agg_type "count" then
        let vals := map (fun r => _get_value_with_default r metric_to_aggregate)
                        group_records in
        let present := List.filter (fun v => negb (is_none v)) vals in
        let n := AInt (Z.of_nat (length (if i_unique i then distinct [] present
                                         else present))) in
        match wrap_of i with
        | None => Ok n
        | Some wrap_format =>
            match format_atom wrap_format n with
            | Ok s => Ok (AStr s)
            | Raise ValueError | Raise TypeError => Ok n
            | Raise e => Raise e
            end
        end
      else if String.eqb agg_type "min" || String.eqb agg_type "max"
              || String.eqb agg_type "avg" then
        match fst (collect_numeric metric_to_aggregate group_records) with
        | [] => Ok (AStr EmptyString)
        | x :: xs =>
            let result_val := reduce agg_type x xs in
            match wrap_of i with
            | None => Ok (AStr (repr_float result_val))
            | Some wrap_format =>
                match format_float wrap_format result_val with
                | Ok s => Ok (AStr s)
                | Raise ValueError | Raise TypeError =>
                    match format_atom wrap_format (AStr (repr_float result_val)) with
                    | Ok s => Ok (AStr s)
                    | Raise e => Raise e
                    end
                | Raise e => Raise e
                end
            end
        end
      else Ok (AStr EmptyString)
  end.

Fixpoint format_all (template : string) (vals : list atom) : result (list string) :=
  match vals with
  | [] => Ok []
  | v :: rest =>
      match format_atom template (AStr (py_str v)) with
      | Raise e => Raise e
      | Ok s =>
          match format_all template rest with
          | Ok ss => Ok (s :: ss)
          | Raise e => Raise e
          end
      end
  end.

(** The [elif 'source' in instruction] branch; a group is never
    empty. *)
Definition source_column (index_key source_metric : string) (i : instruction)
  (group_records : list record) : result atom :=
  let template := default "{}" (i_wrap i) in
  if String.eqb source_metric index_key || _is_metric_file_context source_metric then
    match group_records with
    | [] => Raise IndexError
    | first :: _ =>
        let value := _get_value_with_default first source_metric in
        if is_none value then Ok (AStr EmptyString)
        else match format_atom template (AStr (py_str value)) with
             | Ok s => Ok (AStr s)
             | Raise e => Raise e
             end
    end
  else
    let vals := List.filter (fun v => negb (is_none v))
                  (map (fun r => _get_value_with_default r source_metric)
                       group_records) in
    let vals := if i_unique i then distinct [] vals else vals in
    match format_all template vals with
    | Ok ss => Ok (AStr (String.concat (default EmptyString (i_joiner i)) ss))
    | Raise e => Raise e
    end.

(** What one column contributes to the row of a group. *)
Definition column (index_key : string) (idx_val : atom)
  (group_records : list record) (col_name : string) (i : instruction)
  : result (option atom) :=
  match i_aggregate i, i_source i, i_static i with
  | Some agg_type, _, _ =>
      match aggregate_column agg_type i group_records with
      | Ok v => Ok (Some v)
      | Raise e => Raise e
      end
  | None, Some source_metric, _ =>
      match source_column index_key source_metric i group_records with
      | Ok v => Ok (Some v)
      | Raise e => Raise e
      end
  | None, None, Some v => Ok (Some v)
  | None, None, None =>
      if String.eqb col_name index_key then Ok (Some idx_val) else Ok None
  end.

Fixpoint build_row (index_key : string) (idx_val : atom)
  (group_records : list record) (fields : list (string * instruction))
  (row : record) : result record :=
  match fields with
  | [] => Ok row
  | (col_name, i) :: rest =>
      match column index_key idx_val group_records col_name i with
      | Raise e => Raise e
      | Ok None => build_row index_key idx_val group_records rest row
      | Ok (Some v) =>
          build_row index_key idx_val group_records rest (PyDict.set col_name v row)
      end
  end.

Fixpoint build_rows (index_key : string) (fields : list (string * instruction))
  (groups : list (atom * list record)) : result (list record) :=
  match groups with
  | [] => Ok []
  | (idx_val, group_records) :: rest =>
      match build_row index_key idx_val group_records fields [] with
      | Raise e => Raise e
      | Ok row =>
          match build_rows index_key fields rest with
          | Ok rows => Ok (row :: rows)
          | Raise e => Raise e
          end
      end
  end.

(** [OutputAggregator._output_mode_file]: the rows and the headers. *)
Definition _output_mode_file (index_key : string)
  (fields : list (string * instruction)) (all_records : list record)
  : result (list record * list string) :=
  match build_rows index_key fields (group_by_index index_key all_records) with
  | Ok output_rows => Ok (output_rows, map fst fields)
  | Raise e => Raise e
  end.

End Aggregator.

(** *** _perform_lml_write *)

Definition not_pstat (item : record) : bool :=
  match PyDict.get "__type" item with
  | Some v => ne_str v "pstat"
  | None => true
  end.

Definition has_id (item : record) : bool :=
  match PyDict.get "__id" item with
  | Some v => atom_truthy v
  | None => false
  end.

(** The units counted for the width, and the units that get an id. *)
Definition countable (d : store) : store :=
  List.filter (fun unit => not_pstat (snd unit)) d.
Definition needs_id (d : store) : store :=
  List.filter (fun unit => negb (has_id (snd unit)) && not_pstat (snd unit)) d.

(** The first loop: ids count from one, over the units that are not
    [pstat]. *)
Fixpoint write_objects (id_prefix_cfg default_type_cfg : string) (digits i : nat)
  (units : store) : store * list elem :=
  match units with
  | [] => ([], [])
  | (obj_list_name, item_data) :: rest =>
      let '(item', current_id, i') :=
        if has_id item_data then
          (item_data, py_str (default ANone (PyDict.get "__id" item_data)), i)
        else if not_pstat item_data then
          let current_id := make_id id_prefix_cfg digits (i + 1) in
          (PyDict.set "__id" (AStr current_id) item_data, current_id, S i)
        else (item_data, "error_id_" +:+ obj_list_name, i) in
      let obj_type :=
        match PyDict.get "__type" item' with
        | Some v => py_str v
        | None => default_type_cfg
        end in
      let '(rest', out) := write_objects id_prefix_cfg default_type_cfg digits i' rest in
      ((obj_list_name, item') :: rest', Object current_id obj_list_name obj_type :: out)
  end.

(** [formatted_value]: double quotes of a string are escaped. *)
Definition formatted_value (data_value : atom) : string :=
  match data_value with
  | AStr s => PyStr.replace "034"%char "&quot;" s
  | _ => py_str data_value
  end.

(** The body of the loop over [item_data.items()]. *)
Definition data_elems (field : string * atom) : list elem :=
  let '(data_key, data_value) := field in
  if PyStr.startswith "__nelems" data_key then [Data data_key (py_str data_value)]
  else if PyStr.startswith "__" data_key then []
  else if negb (is_none data_value) then [Data data_key (formatted_value data_value)]
  else [].

Definition info_block (unit : string * record) : list elem :=
  let '(obj_list_name, item_data) := unit in
  let oid :=
    match PyDict.get "__id" item_data with
    | Some v => py_str v
    | None => "error_missing_id_for_" +:+ obj_list_name
    end in
  InfoOpen oid :: flat_map data_elems item_data ++ [InfoClose].

(** [OutputAggregator._perform_lml_write] *)
Definition _perform_lml_write (data_dict : store) (id_prefix_cfg default_type_cfg : string)
  : store * list elem :=
  let num_items_for_id_gen := length (countable data_dict) in
  let digits := id_digits num_items_for_id_gen in
  let '(d1, objects) := write_objects id_prefix_cfg default_type_cfg digits 0 data_dict in
  (d1, Header :: ObjectsOpen :: objects
       ++ ObjectsClose :: InformationOpen :: flat_map info_block d1
       ++ [InformationClose; Footer]).

(** The text of each write. *)
Definition print (e : elem) : string :=
  match e with
  | Header => header_text
  | ObjectsOpen => "<objects>" +:+ nl
  | Object id name type =>
      "  <object id=" +:+ dq +:+ id +:+ dq +:+ " name=" +:+ dq +:+ name +:+ dq
      +:+ " type=" +:+ dq +:+ type +:+ dq +:+ "/>" +:+ nl
  | ObjectsClose => "</objects>" +:+ nl
  | InformationOpen => "<information>" +:+ nl
  | InfoOpen oid =>
      "  <info oid=" +:+ dq +:+ oid +:+ dq +:+ " type=" +:+ dq +:+ "short" +:+ dq
      +:+ ">" +:+ nl
  | Data key value =>
      "   <data key=" +:+ dq +:+ key +:+ dq
      +:+ " value=" +:+ dq +:+ value +:+ dq +:+ "/>" +:+ nl
  | InfoClose => "  </info>" +:+ nl
  | InformationClose => "</information>" +:+ nl
  | Footer => "</lml:lgui>" +:+ nl
  end.

(** *** _output_mode_entry and _write_lml_output *)

Section Entries.
Variable default_map : record.
(** [self.group_name] *)
Variable group_name : string.
(** The two time stamps and [round(group_end_time - group_start_time, 3)].
    They are floats; here they are the scalars the caller passes. *)
Variables group_start_time group_end_time duration : atom.

(** [entry_id_counters[key] += 1], and the count it reaches. *)
Fixpoint count_entry (key : atom) (counters : list (atom * nat))
  : list (atom * nat) * nat :=
  match counters with
  | [] => ([(key, 1%nat)], 1%nat)
  | (k, n) :: rest =>
      if py_eqb key k then ((k, S n) :: rest, S n)
      else let '(rest', c) := count_entry key rest in ((k, n) :: rest', c)
  end.

(** What one column contributes to the row of a record. *)
Definition entry_column (index_key : string) (rec : record)
  (unique_csv_entry_id : string) (col_name : string) (i : instruction) : option atom :=
  match i_source i, i_static i with
  | Some source, _ => Some (_get_value_with_default default_map rec source)
  | None, Some v => Some v
  | None, None =>
      if String.eqb col_name index_key then Some (AStr unique_csv_entry_id) else None
  end.

Fixpoint entry_row (index_key : string) (rec : record) (unique_csv_entry_id : string)
  (fields : list (string * instruction)) (row : record) : record :=
  match fields with
  | [] => row
  | (col_name, i) :: rest =>
      entry_row index_key rec unique_csv_entry_id rest
        match entry_column index_key rec unique_csv_entry_id col_name i with
        | Some v => PyDict.set col_name v row
        | None => row
        end
  end.

(** The loop over [self.all_records]; [is_xml] says that the output
    file has the suffix [.xml]. *)
Fixpoint entry_rows (is_xml : bool) (index_key : string)
  (fields : list (string * instruction)) (all_records : list record)
  (entry_id_counters : list (atom * nat)) : list record :=
  match all_records with
  | [] => []
  | rec :: rest =>
      let idx_val_for_lml_name := _get_value_with_default default_map rec index_key in
      if is_none idx_val_for_lml_name && negb is_xml
      then entry_rows is_xml index_key fields rest entry_id_counters
      else
        let '(counters', n) := count_entry idx_val_for_lml_name entry_id_counters in
        let unique_csv_entry_id :=
          py_str idx_val_for_lml_name +:+ "_" +:+ PyStr.of_Z (Z.of_nat n) in
        entry_row index_key rec unique_csv_entry_id fields
          [("__lml_object_name__", idx_val_for_lml_name)]
        :: entry_rows is_xml index_key fields rest counters'
  end.

(** [OutputAggregator._output_mode_entry]: the rows and the headers. *)
Definition _output_mode_entry (is_xml : bool) (index_key : string)
  (fields : list (string * instruction)) (all_records : list record)
  : list record * list string :=
  (entry_rows is_xml index_key fields all_records [], map fst fields).

(** The name of the object of row [i], before it is made unique. *)
Definition base_name_of (index_key : option string) (i : nat) (row_data : record)
  : string :=
  let base_name_val :=
    match PyDict.get "__lml_object_name__" row_data with
    | Some v => v
    | None =>
        match index_key with
        | Some k => default ANone (PyDict.get k row_data)
        | None => ANone
        end
    end in
  if is_none base_name_val then "unnamed_object_" +:+ PyStr.of_Z (Z.of_nat (i + 1))
  else py_str base_name_val.

(** The fields of a row that become [<data>] elements. *)
Fixpoint lml_item (field_names : list string) (row_data lml_item_data : record) : record :=
  match field_names with
  | [] => lml_item_data
  | field_key :: rest =>
      lml_item rest row_data
        match PyDict.get field_key row_data with
        | Some v => if is_none v then lml_item_data else PyDict.set field_key v lml_item_data
        | None => lml_item_data
        end
  end.

(** The loop over [enumerate(data_rows)]. *)
Fixpoint lml_rows (output_config_type : string) (index_key : option string)
  (field_names : list string) (i : nat) (data_rows : list record)
  (name_counts : list (string * nat)) (lml_dict : store) : store :=
  match data_rows with
  | [] => lml_dict
  | row_data :: rest =>
      let base_name := base_name_of index_key i row_data in
      let current_count := default 0%nat (PyDict.get base_name name_counts) in
      let object_list_name :=
        if (0 <? current_count)%nat
        then base_name +:+ "_" +:+ PyStr.of_Z (Z.of_nat (current_count + 1))
        else base_name in
      let lml_item_data :=
        PyDict.set "__type" (AStr output_config_type) (lml_item field_names row_data []) in
      lml_rows output_config_type index_key field_names (S i) rest
        (PyDict.set base_name (S current_count) name_counts)
        (PyDict.set object_list_name lml_item_data lml_dict)
  end.

(** The timing object, under the name that is free. *)
Definition timing_name (lml_dict : store) : string :=
  if PyDict.mem ("get" +:+ group_name) lml_dict
  then "get" +:+ group_name +:+ "_pstat"
  else "get" +:+ group_name.

Definition timing_values (output_config_type : string) (num_data_elements : nat)
  (timing_obj_name : string) : record :=
  [ ("startts", group_start_time); ("datats", group_start_time);
    ("endts", group_end_time); ("duration", duration);
    ("nelems", AInt (Z.of_nat num_data_elements));
    ("__nelems_" +:+ output_config_type, AInt (Z.of_nat num_data_elements));
    ("__type", AStr "pstat"); ("__id", AStr ("pstat_" +:+ timing_obj_name)) ].

(** The dictionary [_write_lml_output] hands to [_perform_lml_write]. *)
Definition lml_dict_of (output_config_type : string) (index_key : option string)
  (field_names : list string) (data_rows : list record) : store :=
  let lml_dict := lml_rows output_config_type index_key field_names 0 data_rows [] [] in
  let timing_obj_name := timing_name lml_dict in
  PyDict.set timing_obj_name
    (timing_values output_config_type (length data_rows) timing_obj_name) lml_dict.

(** [OutputAggregator._write_lml_output]: the dictionary with its ids
    and what was written. *)
Definition _write_lml_output (output_config_prefix output_config_type : string)
  (index_key : option string) (field_names : list string) (data_rows : list record)
  : store * list elem :=
  _perform_lml_write
    (lml_dict_of output_config_type index_key field_names data_rows)
    output_config_prefix output_config_type.

End Entries.

End Files.

(** The units of a store that have no [__id] yet. *)
Definition without_id (d : store) : store :=
  List.filter (fun unit => negb (PyDict.mem "__id" (snd unit))) d.

(** ** What the specification says, for comparison *)

Module Spec.

(** The loop of the deep merge over the items of [b]. *)
Definition merge_loop (merge : list (string * value) -> value -> list (string * value))
  : list (string * value) -> list (string * value) -> list (string * value) :=
  fix loop items a :=
    match items with
    | [] => a
    | (bk, bv) :: rest =>
        loop rest
          match PyDict.get bk a, bv with
          | Some (VDict av), VDict _ => PyDict.set bk (VDict (merge av bv)) a
          | _, _ => PyDict.set bk bv a
          end
    end.

(** Deep merge on trees: a key of [b] whose value is a mapping on
    both sides is merged recursively, any other key of [b] takes
    [b]'s value; the keys of [a] alone stay. *)
Fixpoint deep_merge_into (a : list (string * value)) (b : value) {struct b}
  : list (string * value) :=
  match b with
  | VAtom _ => a
  | VDict items => merge_loop deep_merge_into items a
  end.

Definition deep_merge (a b : list (string * value)) : list (string * value) :=
  deep_merge_into a (VDict b).

(** No empty mapping of [a] meets a mapping of [b] during the merge. *)
Definition meets_loop (meets : list (string * value) -> value -> bool)
  : list (string * value) -> list (string * value) -> bool :=
  fix loop items a :=
    match items with
    | [] => true
    | (bk, bv) :: rest =>
        match PyDict.get bk a, bv with
        | Some (VDict av), VDict _ =>
            match av with [] => false | _ => true end
            && meets av bv
            && loop rest (PyDict.set bk (VDict (deep_merge_into av bv)) a)
        | _, _ => loop rest (PyDict.set bk bv a)
        end
    end.

Fixpoint no_empty_meets (a : list (string * value)) (b : value) {struct b} : bool :=
  match b with
  | VAtom _ => true
  | VDict items => meets_loop no_empty_meets items a
  end.

(** The width of the sequence number as the specification has it:
    [ceil(log10(N))+1], at least one. *)
Definition id_digits (n : nat) : nat := Nat.max 1 (clog10 n + 1).

(** Suppression as the specification has it: a field that is not
    metadata yields a [<data>] element exactly when its value is
    neither the empty string nor [None]. *)
Definition suppresses_empty_and_none (data_elems : string * atom -> list elem) : Prop :=
  forall key value,
    PyStr.startswith "__" key = false ->
    (data_elems (key, value) <> [] <-> value <> AStr EmptyString /\ value <> ANone).

(** Identifiers as the specification has them, over the width of
    the sequence number: after [to_LML], a unit that had no [__id]
    carries the prefix followed by the counter padded to
    [width N], where [N] is the number of units; the counter starts
    where [to_LML] starts it and counts the units without id. *)
Definition ids_padded_to (width : nat -> nat) (filename prefix stype : string)
  (d : store) : Prop :=
  forall d' out j key item,
    Info.to_LML filename prefix stype d = (d', out, Ok tt) ->
    d !! j = Some (key, item) ->
    PyDict.get "__id" item = None ->
    exists p,
      Info.id_prefix prefix item = Ok p /\
      d' !! j = Some (key, PyDict.set "__id"
                             (AStr (make_id p (width (length d))
                                      (Info.first_index filename
                                       + length (without_id (take j d)))))
                             item).

(** The same for [_perform_lml_write], whose counter starts at one
    and which counts the units that are not [pstat]. *)
Definition file_ids_padded_to (width : nat -> nat) (id_prefix_cfg default_type_cfg : string)
  (d : store) : Prop :=
  forall j key item,
    d !! j = Some (key, item) ->
    Files.has_id item = false -> Files.not_pstat item = true ->
    fst (Files._perform_lml_write d id_prefix_cfg default_type_cfg) !! j
    = Some (key, PyDict.set "__id"
                   (AStr (make_id id_prefix_cfg
                            (width (length (Files.countable d)))
                            (length (Files.needs_id (take j d)) + 1)))
                   item).

(** The values of a group that [float] accepts, in order. *)
Definition coercible (py_float : atom -> option float) (default_map : record)
  (metric : string) (group_records : list record) : list float :=
  omap py_float
    (List.filter (fun v => negb (is_none v))
       (map (fun r => Files._get_value_with_default default_map r metric)
            group_records)).

End Spec.

(** [to_LML] finds every key it looks up: a unit without [__id] has a
    [__prefix] unless a prefix is passed, and every unit has a [__type]
    unless a type is passed. *)
Definition well_tagged (prefix stype : string) (d : store) : bool :=
  forallb
    (fun unit =>
       (PyStr.truthy prefix || PyDict.mem "__id" (snd unit)
        || PyDict.mem "__prefix" (snd unit))
       && (PyStr.truthy stype || PyDict.mem "__type" (snd unit)))
    d.

(** ** Reading the output

    What a reader of the written file finds in it: the [id]s and the
    [name]s of the [<object>] elements and the [oid]s of the [<info>]
    blocks, in the order they were written. *)
Definition object_ids (out : list elem) : list string :=
  omap (fun e => match e with Object id _ _ => Some id | _ => None end) out.

Definition object_names (out : list elem) : list string :=
  omap (fun e => match e with Object _ name _ => Some name | _ => None end) out.

Definition info_oids (out : list elem) : list string :=
  omap (fun e => match e with InfoOpen oid => Some oid | _ => None end) out.

(** The [__id] of a unit, as it is printed. *)
Definition unit_id (unit : string * record) : option string :=
  option_map py_str (PyDict.get "__id" (snd unit)).

(** ** Deep updates

    Every dictionary inside a value has unique keys, as a Python value
    has. *)
Fixpoint deep_wf (v : value) : bool :=
  match v with
  | VAtom _ => true
  | VDict d =>
      bool_decide (PyDict.wf d) && forallb (fun kv => deep_wf (snd kv)) d
  end.

(** No scalar of [a] meets a mapping of [b] during a deep merge. *)
Definition scalar_loop (meets : list (string * value) -> value -> bool)
  : list (string * value) -> list (string * value) -> bool :=
  fix loop items a :=
    match items with
    | [] => true
    | (bk, bv) :: rest =>
        match PyDict.get bk a, bv with
        | Some (VAtom _), VDict _ => false
        | Some (VDict av), VDict _ =>
            meets av bv
            && loop rest (PyDict.set bk (VDict (Spec.deep_merge_into av bv)) a)
        | _, _ => loop rest (PyDict.set bk bv a)
        end
    end.

Fixpoint no_scalar_meets (a : list (string * value)) (b : value) {struct b} : bool :=
  match b with
  | VAtom _ => true
  | VDict items => scalar_loop no_scalar_meets items a
  end.

(** ** Flattened rows

    The value of field [k] in the row of result [r] of job [j]: the
    result goes before the job and the job before the pipeline; the
    [results] of a job are not a field of its rows. *)
Definition flat_field (p j r : list (string * json)) (k : string) : option json :=
  match PyDict.get k r with
  | Some v => Some v
  | None =>
      if String.eqb k "results" then None
      else match PyDict.get k j with
           | Some v => Some v
           | None => PyDict.get k p
           end
  end.

(** ** Groups

    What grouping by an index is for: the keys of the groups differ
    pairwise; a group is not empty and holds, in their order, the
    records whose index value equals its key; every record with an
    index value has a group. *)
Definition grouped (default_map : record) (index_key : string)
  (groups : list (atom * list record)) (records : list record) : Prop :=
  let idx rec := Files._get_value_with_default default_map rec index_key in
  (forall i j k1 recs1 k2 recs2,
     groups !! i = Some (k1, recs1) -> groups !! j = Some (k2, recs2) ->
     i <> j -> py_eqb k1 k2 = false)
  /\ (forall i k recs,
        groups !! i = Some (k, recs) ->
        is_none k = false /\ recs <> []
        /\ recs = List.filter (fun rec => negb (is_none (idx rec)) && py_eqb (idx rec) k)
                    records)
  /\ (forall rec,
        In rec records -> is_none (idx rec) = false ->
        exists i k recs, groups !! i = Some (k, recs) /\ py_eqb (idx rec) k = true).

(** A unit whose [<object>] and [<info>] carry the same id in the file
    of the file parser: it is not a [pstat] object, or it has an id. *)
Definition has_object_id (unit : string * record) : bool :=
  Files.not_pstat (snd unit) || Files.has_id (snd unit).

(** ** Entries

    The records that get a row in entry mode: all of them when the
    output is an LML file, those with an index value otherwise. *)
Definition with_entry (default_map : record) (is_xml : bool) (index_key : string)
  (all_records : list record) : list record :=
  List.filter
    (fun rec => negb (is_none (Files._get_value_with_default default_map rec index_key)
                      && negb is_xml))
    all_records.

(** How many of [records] have the index value of [rec]. *)
Definition occurrences (default_map : record) (index_key : string) (rec : record)
  (records : list record) : nat :=
  length (List.filter
            (fun r => py_eqb (Files._get_value_with_default default_map rec index_key)
                             (Files._get_value_with_default default_map r index_key))
            records).

(** The count a counter dictionary holds for [key]. *)
Fixpoint times (key : atom) (counters : list (atom * nat)) : nat :=
  match counters with
  | [] => 0
  | (k, n) :: rest => if py_eqb key k then n else times key rest
  end.

(** The exceptions of a pattern match: a pattern that does not
    compile, a subject that is not a string. *)
Definition re_exn (e : exn) : Prop := e = TypeError \/ exists p, e = ReError p.

(** ** Deleting by position

    A list without the items whose positions, counted from [i], are
    in [s]. *)
Fixpoint without_indices {A} (s : gset nat) (i : nat) (xs : list A) : list A :=
  match xs with
  | [] => []
  | x :: xs' =>
      if bool_decide (i ∈ s) then without_indices s (S i) xs'
      else x :: without_indices s (S i) xs'
  end.

(** A rule that never looks at the name of a unit: a mapping from
    fields to patterns, a list of such mappings, or no rule. *)
Definition field_rules_only (p : pattern) : bool :=
  match p with
  | PStr s => negb (PyStr.truthy s)
  | PList l => forallb (fun item => match item with LStr _ => false | _ => true end) l
  | PDict _ | POther _ => true
  end.

(** ** Renaming fields

    What [map] is for: under its new name a field has the value of the
    last entry of [mapping_dict] that maps a field of the item to that
    name. *)
Fixpoint renamed (mapping_dict : list (string * string)) (item : record) (name : string)
  : option atom :=
  match mapping_dict with
  | [] => None
  | (key, map) :: rest =>
      match renamed rest item name with
      | Some v => Some v
      | None => if String.eqb map name then PyDict.get key item else None
      end
  end.

(** The fields [map] copies whatever the mapping says. *)
Definition internal_key (name : string) : bool :=
  String.eqb name "__type" || String.eqb name "__id" || String.eqb name "__prefix".

(** The value of a [<data>] element can be put between double quotes
    as it is: it has no double quote of its own. *)
Definition closes_value (e : elem) : bool :=
  match e with
  | Data _ value => negb (PyStr.contains dq value)
  | _ => true
  end.

(** The number at the end of a generated id: the decimal digits that
    follow [prefix], leading zeros included. *)
Definition id_number (prefix id : string) : option Z :=
  if PyStr.startswith prefix id
  then option_map Z.of_uint (NilZero.uint_of_string (PyStr.drop (String.length prefix) id))
  else None.

(** What [apply_pattern] is for, over the [check_unit] of a scraper:
    a unit stays when no exclude rule that is configured matches it
    and, where include rules are configured, one of them does. *)
Definition stays (check : string -> record -> pattern -> result bool)
  (exclude include : pattern) (unit : string * record) : bool :=
  negb (pattern_truthy exclude
        && match check (fst unit) (snd unit) exclude with Ok true => true | _ => false end)
  && (negb (pattern_truthy include)
      || match check (fst unit) (snd unit) include with Ok true => true | _ => false end).

(** ** Blocks of text

    A line of fields as [scontrol show] prints it, [key=value] pairs
    with one space between them, and a block of such lines: the first
    one at the margin, the others indented. *)
Definition pair_text (kv : string * string) : string := fst kv +:+ "=" +:+ snd kv.

Fixpoint line_text (pairs : list (string * string)) : string :=
  match pairs with
  | [] => EmptyString
  | kv :: rest =>
      match rest with
      | [] => pair_text kv
      | _ :: _ => pair_text kv +:+ " " +:+ line_text rest
      end
  end.

Definition lines_text (indent : nat) (others : list (list (string * string))) : string :=
  fold_right
    (fun pairs text => nl +:+ PyStr.repeat " "%char indent +:+ line_text pairs +:+ text)
    EmptyString others.

Definition block_text (indent : nat) (first : list (string * string))
  (others : list (list (string * string))) : string :=
  line_text first +:+ lines_text indent others.

(** A word has no white space in it; the key of a pair has no [=]
    either. *)
Definition word (s : string) : bool :=
  forallb (fun c => negb (PyStr.is_space c)) (list_ascii_of_string s).

Definition key_word (s : string) : bool :=
  forallb (fun c => negb (PyStr.is_space c) && negb (Ascii.eqb c "="%char))
          (list_ascii_of_string s).

Definition plain_pair (kv : string * string) : bool := key_word (fst kv) && word (snd kv).

(** A pair of the first line that is neither the unit nor the job
    name, and a further line of pairs that is split at its spaces. *)
Definition first_line_pair (unitname : string) (kv : string * string) : bool :=
  plain_pair kv && negb (String.eqb (fst kv) unitname) && negb (String.eqb (fst kv) "JobName").

Definition other_line (pairs : list (string * string)) : bool :=
  match pairs with
  | [] => false
  | kv :: _ =>
      negb (existsb (String.eqb (fst kv)) Info.whole_line_keys)
      && forallb (fun kv => plain_pair kv && negb (String.eqb (fst kv) "Dist")) pairs
  end.

(** The fields in the order they are stored. *)
Definition add_pairs (pairs : list (string * string)) (item : record) : record :=
  fold_left (fun item kv => Info.add_value (fst kv) (AStr (snd kv)) item) pairs item.

(** ** Stand-ins and sample inputs

    Concrete values for what the development leaves open, so that the
    statements can be run: a pattern compiler ([Re.parse]), the float
    builtins on the numbers of the examples, a table of transform
    functions, and some stores. *)

Module Sample.

Definition all_digits (s : string) : bool :=
  forallb (fun c => (48 <=? nat_of_ascii c)%nat && (nat_of_ascii c <=? 57)%nat)
          (list_ascii_of_string s)
  && PyStr.truthy s.

(** [float] on decimal integers below [2^53], where the conversion
    is exact; nothing else counts as numeric here. *)
Definition float_of_atom (v : atom) : option float :=
  match v with
  | AStr s =>
      if all_digits s then
        match NilZero.uint_of_string s with
        | Some u =>
            let z := Z.of_uint u in
            if (z <? 2 ^ 53)%Z then Some (PrimFloat.of_uint63 (Uint63.of_Z z)) else None
        | None => None
        end
      else None
  | AInt z =>
      if ((0 <=? z) && (z <? 2 ^ 53))%Z then Some (PrimFloat.of_uint63 (Uint63.of_Z z))
      else None
  | _ => None
  end.

(** [sum] as a plain left-to-right addition from zero. *)
Definition sum_floats (l : list float) : float := fold_left PrimFloat.add l 0%float.

(** [str] of a float with an integral value below [10^16], as Python
    prints it; [?] anywhere else. *)
Definition str_of_float (f : float) : string :=
  match Prim2SF f with
  | S754_zero s => if s then "-0.0" else "0.0"
  | S754_finite s m e =>
      let sign := if s then "-" else EmptyString in
      let num := if (0 <=? e)%Z then Z.pos m * 2 ^ e else Z.pos m / 2 ^ (- e) in
      let exact := if (0 <=? e)%Z then true else (Z.pos m mod 2 ^ (- e) =? 0) in
      if exact && (num <? 10 ^ 16) then sign +:+ PyStr.of_Z num +:+ ".0" else "?"
  | _ => "?"
  end%Z.

(** [template.format(v)] for the template ["{}"] only. *)
Definition format_plain (template : string) (v : atom) : result string :=
  if String.eqb template "{}" then Ok (py_str v) else Raise ValueError.
Definition format_plain_float (template : string) (f : float) : result string :=
  if String.eqb template "{}" then Ok (str_of_float f) else Raise ValueError.

(** A table with one transform, [upper], which turns the string [a]
    into [A] and leaves everything else alone. *)
Definition table : registry :=
  fun name =>
    if String.eqb name "upper"
    then Some (fun v => match v with
                        | AStr "a" => Ok (AStr "A")
                        | _ => Ok v
                        end)
    else None.

(** Fifteen units without ids. *)
Definition fifteen : store :=
  map (fun i => ("node" +:+ PyStr.of_Z (Z.of_nat i), [("x", AStr "1")])) (seq 0 15).

(** Two units without ids. *)
Definition two_nodes : store :=
  [("node1", [("x", AStr "1")]); ("node2", [("x", AStr "2")])].

(** The file of a pipeline with one job of two results. *)
Definition build_results : list (list (string * json)) :=
  [ [("time", JAtom (AInt 3))]; [("time", JAtom (AInt 4))] ].

Definition pipeline_jobs : list (list (string * json) * list (list (string * json))) :=
  [ ([("name", JAtom (AStr "build")); ("results", JList (map JDict build_results))],
     build_results) ].

Definition pipeline_file : list (string * json) :=
  [ ("pipeline", JDict [("id", JAtom (AInt 7))]);
    ("jobs", JList (map (fun job => JDict (fst job)) pipeline_jobs)) ].

(** The aggregation scenario of the specification. *)
Definition avg_records : list record :=
  [ [("idx", AStr "A"); ("v", AStr "10")];
    [("idx", AStr "A"); ("v", AStr "20")];
    [("idx", AStr "A"); ("v", AStr "x")] ].

Definition avg_column : instruction :=
  {| i_aggregate := Some "avg"; i_source := Some "v"; i_unique := false;
     i_wrap := None; i_joiner := None; i_static := None |}.

(** A metric [v] transformed by a function that does not exist. *)
Definition bad_metric : metric_def :=
  {| m_name := Some "v"; m_groups := None; m_scope := None;
     m_apply := [("v", "no_such_function")];
     m_exclude := SrcRules FNone; m_include := SrcRules FNone |}.

End Sample.

(** * Properties *)

#[local] Arguments Ascii.eqb : simpl never.
#[local] Arguments String.eqb : simpl never.
#[local] Arguments String.append !s1 s2 /.

(** ** Dictionaries *)

Section DictFacts.
Context {V : Type}.
Implicit Types (d : list (string * V)) (k : string) (v : V).

Lemma get_set_eq k v d : PyDict.get k (PyDict.set k v d) = Some v.
Proof.
  induction d as [|[k' v'] d IH]; simpl.
  - by rewrite String.eqb_refl.
  - destruct (String.eqb k k') eqn:E; simpl; rewrite E; done.
Qed.

Lemma get_set_ne k k' v d :
  k <> k' -> PyDict.get k' (PyDict.set k v d) = PyDict.get k' d.
Proof.
  intros Hne. induction d as [|[k0 v0] d IH]; simpl.
  - destruct (String.eqb k' k) eqn:E; [|done].
    apply String.eqb_eq in E. congruence.
  - destruct (String.eqb k k0) eqn:E; simpl.
    + apply String.eqb_eq in E. subst k0.
      destruct (String.eqb k' k) eqn:E'; [|done].
      apply String.eqb_eq in E'. congruence.
    + by rewrite IH.
Qed.

Lemma set_same k v d : PyDict.get k d = Some v -> PyDict.set k v d = d.
Proof.
  induction d as [|[k' v'] d IH]; simpl; [done|].
  destruct (String.eqb k k') eqn:E.
  - by intros [= ->].
  - intros H. by rewrite IH.
Qed.

Lemma get_Some_In k v d : PyDict.get k d = Some v -> In (k, v) d.
Proof.
  induction d as [|[k' v'] d IH]; simpl; [done|].
  destruct (String.eqb k k') eqn:E.
  - apply String.eqb_eq in E. intros [= ->]. left. by subst.
  - intros H. right. auto.
Qed.

Lemma get_None_keys k d : PyDict.get k d = None <-> ~ In k (PyDict.keys d).
Proof.
  induction d as [|[k' v'] d IH]; simpl; [tauto|].
  destruct (String.eqb k k') eqn:E.
  - apply String.eqb_eq in E. subst. split; [done|]. intros H. destruct H. by left.
  - apply String.eqb_neq in E. rewrite IH. split.
    + intros H [H1|H1]; [congruence|tauto].
    + tauto.
Qed.

Lemma mem_keys k d : PyDict.mem k d = true <-> In k (PyDict.keys d).
Proof.
  unfold PyDict.mem. destruct (PyDict.get k d) eqn:E.
  - split; [intros _|done].
    apply get_Some_In in E. apply (in_map fst) in E. exact E.
  - apply get_None_keys in E. split; [done|tauto].
Qed.

Lemma keys_set k v d :
  PyDict.keys (PyDict.set k v d)
  = if PyDict.mem k d then PyDict.keys d else PyDict.keys d ++ [k].
Proof.
  unfold PyDict.mem. induction d as [|[k' v'] d IH]; simpl; [done|].
  destruct (String.eqb k k') eqn:E; simpl; [done|].
  rewrite IH. by destruct (PyDict.get k d).
Qed.

Lemma del_keys k d d' :
  PyDict.del k d = Some d' -> In k (PyDict.keys d).
Proof.
  revert d'. induction d as [|[k' v'] d IH]; simpl; [done|].
  intros d'. destruct (String.eqb k k') eqn:E.
  - apply String.eqb_eq in E. auto.
  - destruct (PyDict.del k d) eqn:D; [|done]. intros _. right. eauto.
Qed.

Lemma del_None k d : PyDict.del k d = None <-> ~ In k (PyDict.keys d).
Proof.
  induction d as [|[k' v'] d IH]; simpl; [tauto|].
  destruct (String.eqb k k') eqn:E.
  - apply String.eqb_eq in E. split; [done|]. intros H. destruct H. by left.
  - apply String.eqb_neq in E. destruct (PyDict.del k d) eqn:D.
    + split; [done|]. intros H. exfalso. apply H. right.
      apply del_keys in D. exact D.
    + split; [|done]. intros _ [H|H]; [congruence|]. by apply IH in H.
Qed.

Lemma filter_other_keys k d :
  ~ In k (PyDict.keys d) ->
  List.filter (fun kv => negb (String.eqb k (fst kv))) d = d.
Proof.
  unfold PyDict.keys.
  induction d as [|[k' v'] d IH]; simpl; [done|].
  intros H. destruct (String.eqb k k') eqn:E; simpl.
  - apply String.eqb_eq in E. subst. tauto.
  - rewrite IH; [done|tauto].
Qed.

(** Deleting a key of a well-formed dictionary removes exactly that
    key and keeps the order of the others. *)
Lemma del_filter k d d' :
  PyDict.wf d -> PyDict.del k d = Some d' ->
  d' = List.filter (fun kv => negb (String.eqb k (fst kv))) d.
Proof.
  unfold PyDict.wf. revert d'.
  induction d as [|[k' v'] d IH]; simpl; [done|].
  intros d' Hwf. apply NoDup_cons in Hwf as [Hnin Hwf].
  destruct (String.eqb k k') eqn:E; simpl.
  - intros [= <-]. apply String.eqb_eq in E. subst k'.
    symmetry. apply filter_other_keys. by rewrite <- list_elem_of_In.
  - destruct (PyDict.del k d) eqn:D; [|done].
    intros [= <-]. f_equal. by apply IH.
Qed.

Lemma del_Some k d :
  In k (PyDict.keys d) -> exists d', PyDict.del k d = Some d'.
Proof.
  intros H. destruct (PyDict.del k d) eqn:D; [eauto|].
  apply del_None in D. tauto.
Qed.

Lemma wf_filter (f : string * V -> bool) d :
  PyDict.wf d -> PyDict.wf (List.filter f d).
Proof.
  unfold PyDict.wf, PyDict.keys.
  induction d as [|[k' v'] d IH]; simpl; [done|].
  intros Hwf. apply NoDup_cons in Hwf as [Hnin Hwf].
  destruct (f (k', v')); simpl; [|auto].
  apply NoDup_cons. split; [|auto].
  intros Hin. apply Hnin. apply list_elem_of_In in Hin. apply list_elem_of_In.
  apply in_map_iff in Hin as [[k0 v0] [Hk Hin]]. simpl in Hk. subst k0.
  apply filter_In in Hin as [Hin _]. by apply (in_map fst) in Hin.
Qed.

End DictFacts.

(** ** Rendering of fields *)

Lemma nelems_is_metadata key :
  PyStr.startswith "__" key = false -> PyStr.startswith "__nelems" key = false.
Proof.
  destruct key as [|a [|b key]]; simpl; try done.
  destruct (Ascii.eqb "_" a); [|done]. by destruct (Ascii.eqb "_" b).
Qed.

Lemma ne_str_spec v s : ne_str v s = false <-> v = AStr s.
Proof.
  destruct v; simpl; try (split; congruence).
  rewrite negb_false_iff, String.eqb_eq. split; congruence.
Qed.

Lemma is_none_spec v : is_none v = true <-> v = ANone.
Proof. destruct v; simpl; split; congruence. Qed.

(** A field whose own contribution is empty renders like a missing
    field. *)
Lemma flat_map_set_silent {B} (f : string * atom -> list B) key v (dict : record) :
  PyDict.wf dict -> f (key, v) = [] ->
  flat_map f (PyDict.set key v dict)
  = flat_map f (List.filter (fun kv => negb (String.eqb key (fst kv))) dict).
Proof.
  intros Hwf Hf. unfold PyDict.wf, PyDict.keys in Hwf.
  induction dict as [|[k' v'] d IH]; simpl.
  - by rewrite Hf.
  - apply NoDup_cons in Hwf as [Hnin Hwf].
    destruct (String.eqb key k') eqn:E; simpl.
    + apply String.eqb_eq in E. subst k'. rewrite Hf. simpl.
      rewrite filter_other_keys; [done|]. by rewrite <- list_elem_of_In.
    + by rewrite IH.
Qed.

(** C10, as the code has it: [add_value] stores the empty string
    for the exact string [(null)] and any other value as it is, in
    both scrapers; the other fields are untouched.  A field parsed as
    [(null)] then gives no [<data>] element, and its record renders
    as if the field were not there, unless its key starts with
    [__nelems]: the renderers always write such a field, here with an
    empty value. *)
Theorem add_value_null_is_suppressed (key : string) (value : atom) (dict : record) :
  PyDict.wf dict ->
  let stored := Info.add_value key value dict in
  BenchRepo.add_value key value dict = stored /\
  (value = AStr "(null)" -> PyDict.get key stored = Some (AStr EmptyString)) /\
  (value <> AStr "(null)" -> PyDict.get key stored = Some value) /\
  (forall k, k <> key -> PyDict.get k stored = PyDict.get k dict) /\
  (value = AStr "(null)" -> PyStr.startswith "__nelems" key = false ->
   let others := List.filter (fun kv => negb (String.eqb key (fst kv))) dict in
   flat_map Info.data_elems stored = flat_map Info.data_elems others /\
   flat_map BenchRepo.data_elems stored = flat_map BenchRepo.data_elems others) /\
  (value = AStr "(null)" -> PyStr.startswith "__nelems" key = true ->
   In (Data (PyStr.drop 2 key) EmptyString) (flat_map Info.data_elems stored) /\
   In (Data key EmptyString) (flat_map BenchRepo.data_elems stored)).
Proof.
  intros Hwf stored. subst stored. unfold Info.add_value, BenchRepo.add_value.
  split; [done|]. split; [|split; [|split; [|split]]].
  - intros ->. simpl. apply get_set_eq.
  - intros Hne. destruct (ne_str value "(null)") eqn:E.
    + apply get_set_eq.
    + apply ne_str_spec in E. contradiction.
  - intros k Hk. apply get_set_ne. congruence.
  - intros -> Hkey. simpl.
    split; apply flat_map_set_silent; try done;
      unfold Info.data_elems, BenchRepo.data_elems; rewrite Hkey;
      by destruct (PyStr.startswith "__" key).
  - intros -> Hkey. simpl.
    pose proof (get_Some_In _ _ _ (get_set_eq key (AStr EmptyString) dict)) as Hin.
    split; apply in_flat_map; exists (key, AStr EmptyString); (split; [done|]);
      unfold Info.data_elems, BenchRepo.data_elems; rewrite Hkey; by left.
Qed.

Lemma add_value_null_is_suppressed_witness :
  PyDict.get "Comment" (Info.add_value "Comment" (AStr "(null)") [("JobId", AStr "7")])
  = Some (AStr EmptyString).
Proof.
  refine (proj1 (proj2 (add_value_null_is_suppressed
                          "Comment" (AStr "(null)") [("JobId", AStr "7")] _)) _).
  - unfold PyDict.wf. simpl. apply NoDup_singleton.
  - reflexivity.
Defined.

(** C10 as stated fails for a key that starts with [__nelems]: the
    field parsed as [(null)] is stored as the empty string and is
    written all the same, with an empty value. *)
Lemma null_nelems_field_is_written :
  Info.add_value "__nelems_job" (AStr "(null)") [("JobId", AStr "7")]
  = [("JobId", AStr "7"); ("__nelems_job", AStr EmptyString)]
  /\ List.filter is_data
       (snd (fst (Info.to_LML "out/jobs_LML.xml" "j" "job"
                    [("7", Info.add_value "__nelems_job" (AStr "(null)")
                             [("JobId", AStr "7")])])))
     = [Data "JobId" "7"; Data "nelems_job" EmptyString]
  /\ flat_map BenchRepo.data_elems
       (BenchRepo.add_value "__nelems_job" (AStr "(null)") [("JobId", AStr "7")])
     = [Data "JobId" "7"; Data "__nelems_job" EmptyString].
Proof. repeat split; reflexivity. Qed.

(** C2, as the code has it: in [Info.to_LML] a field that is not
    metadata gives one [<data>] element unless its value is the empty
    string ([None] is written, as the text [None]); in
    [OutputAggregator._perform_lml_write] it gives one unless its value
    is [None] (the empty string is written). *)
Theorem data_element_rules (key : string) (value : atom) :
  PyStr.startswith "__" key = false ->
  (value = AStr EmptyString /\ Info.data_elems (key, value) = []
   \/ value <> AStr EmptyString /\ Info.data_elems (key, value) = [Data key (lml_value value)])
  /\
  (value = ANone /\ Files.data_elems (key, value) = []
   \/ value <> ANone /\ Files.data_elems (key, value) = [Data key (Files.formatted_value value)]).
Proof.
  intros Hkey. pose proof (nelems_is_metadata key Hkey) as Hn.
  unfold Info.data_elems, Files.data_elems. rewrite Hn, Hkey. split.
  - destruct value as [s| | |]; simpl; try (right; split; [congruence|done]).
    destruct (String.eqb s EmptyString) eqn:E; simpl.
    + apply String.eqb_eq in E. subst. by left.
    + apply String.eqb_neq in E. right. split; [congruence|done].
  - destruct value; simpl; try (right; split; [congruence|done]). by left.
Qed.

Lemma data_element_rules_witness :
  Info.data_elems ("x", AStr "5") = [Data "x" "5"].
Proof.
  destruct (data_element_rules "x" (AStr "5") eq_refl) as [[[H _]|[_ H]] _].
  - discriminate H.
  - exact H.
Defined.

(** The record of the specification's scenario in [Info.to_LML]: the
    element for [x] is written, none for [y]. *)
Example render_x5_y_empty :
  flat_map Info.data_elems [("x", AStr "5"); ("y", AStr EmptyString)] = [Data "x" "5"].
Proof. reflexivity. Qed.

(** C2 as stated fails on both renderers: [Info.to_LML] writes an
    element for the field [y] of [{"y": None}], and
    [_perform_lml_write] writes one for the field [y] of
    [{"x": "5", "y": ""}]. *)
Lemma empty_and_none_not_both_suppressed :
  (Info.data_elems ("y", ANone) = [Data "y" "None"]
   /\ ~ Spec.suppresses_empty_and_none Info.data_elems)
  /\
  (flat_map Files.data_elems [("x", AStr "5"); ("y", AStr EmptyString)]
   = [Data "x" "5"; Data "y" EmptyString]
   /\ ~ Spec.suppresses_empty_and_none Files.data_elems).
Proof.
  split; (split; [reflexivity|]); intros H.
  - destruct (proj1 (H "y" ANone eq_refl)) as [_ Hn]; [done|]. by apply Hn.
  - destruct (proj1 (H "y" (AStr EmptyString) eq_refl)) as [Hn _]; [done|]. by apply Hn.
Qed.

(** ** Identifiers handed out by to_LML *)

Section Ids.
Variables (prefix stype : string) (digits : nat).

Lemma object_type_set_id item v :
  Info.object_type stype (PyDict.set "__id" v item) = Info.object_type stype item.
Proof.
  unfold Info.object_type. destruct (PyStr.truthy stype); [done|].
  by rewrite get_set_ne.
Qed.

(** Every lookup of the first loop succeeds on a well-tagged store. *)
Lemma write_objects_ok units i :
  well_tagged prefix stype units = true ->
  exists d' out, Info.write_objects prefix stype digits i units = (d', out, Ok tt).
Proof.
  revert i. induction units as [|[key item] rest IH]; intros i Hw; simpl.
  - eauto.
  - simpl in Hw. apply andb_prop in Hw as [Hhead Hrest].
    apply andb_prop in Hhead as [Hid Hty].
    assert (exists ty, Info.object_type stype item = Ok ty) as [ty Ety].
    { unfold Info.object_type. destruct (PyStr.truthy stype); [eauto|].
      simpl in Hty. unfold PyDict.mem in Hty.
      destruct (PyDict.get "__type" item); [eauto|done]. }
    destruct (PyDict.get "__id" item) as [id|] eqn:Eid.
    + rewrite Eid, Ety.
      destruct (IH i Hrest) as (d' & out & ->). eauto.
    + assert (exists p, Info.id_prefix prefix item = Ok p) as [p Ep].
      { unfold Info.id_prefix. destruct (PyStr.truthy prefix); [eauto|].
        unfold PyDict.mem in Hid. rewrite Eid in Hid. simpl in Hid.
        destruct (PyDict.get "__prefix" item); [eauto|done]. }
      rewrite Ep, get_set_eq, object_type_set_id, Ety.
      destruct (IH (S i) Hrest) as (d' & out & ->). eauto.
Qed.

(** What the first loop leaves in the store: a unit that had an id is
    as before; a unit that had none got the prefix followed by the
    padded counter, which counts the units without id before it. *)
Lemma write_objects_ids units i d' out :
  Info.write_objects prefix stype digits i units = (d', out, Ok tt) ->
  length d' = length units /\
  forall j key item,
    units !! j = Some (key, item) ->
    match PyDict.get "__id" item with
    | Some _ => d' !! j = Some (key, item)
    | None =>
        exists p,
          Info.id_prefix prefix item = Ok p /\
          d' !! j = Some (key, PyDict.set "__id"
                                 (AStr (make_id p digits (i + length (without_id (take j units)))))
                                 item)
    end.
Proof.
  revert i d' out. induction units as [|[key0 item0] rest IH]; intros i d' out; simpl.
  - intros [= <- <-]. split; [done|]. intros j key item H. by destruct j.
  - destruct (PyDict.get "__id" item0) as [id|] eqn:Eid.
    + rewrite Eid. destruct (Info.object_type stype item0) as [ty|e]; [|done].
      destruct (Info.write_objects prefix stype digits i rest) as [[rest' out'] r] eqn:Er.
      intros [= <- <- ->]. destruct (IH _ _ _ Er) as [Hlen Hids].
      split; [simpl; congruence|].
      intros [|j] key item; simpl.
      * intros [= <- <-]. by rewrite Eid.
      * intros Hj. specialize (Hids j key item Hj).
        unfold without_id in *. simpl. unfold PyDict.mem at 1. rewrite Eid. simpl.
        exact Hids.
    + destruct (Info.id_prefix prefix item0) as [p|e] eqn:Ep; [|done].
      rewrite get_set_eq, object_type_set_id.
      destruct (Info.object_type stype item0) as [ty|e]; [|done].
      destruct (Info.write_objects prefix stype digits (S i) rest) as [[rest' out'] r] eqn:Er.
      intros [= <- <- ->]. destruct (IH _ _ _ Er) as [Hlen Hids].
      split; [simpl; congruence|].
      intros [|j] key item; simpl.
      * intros [= <- <-]. rewrite Eid. exists p. split; [done|].
        by rewrite Nat.add_0_r.
      * intros Hj. specialize (Hids j key item Hj).
        unfold without_id in *. simpl. unfold PyDict.mem at 1. rewrite Eid. simpl.
        by rewrite Nat.add_succ_r.
Qed.

(** After the first loop every unit has an id, so the second loop
    finds it. *)
Lemma write_objects_all_ids units i d' out :
  Info.write_objects prefix stype digits i units = (d', out, Ok tt) ->
  Forall (fun unit => PyDict.mem "__id" (snd unit) = true) d'.
Proof.
  revert i d' out. induction units as [|[key0 item0] rest IH]; intros i d' out; simpl.
  - intros [= <- <-]. constructor.
  - destruct (PyDict.get "__id" item0) as [id|] eqn:Eid.
    + rewrite Eid. destruct (Info.object_type stype item0) as [ty|e]; [|done].
      destruct (Info.write_objects prefix stype digits i rest) as [[rest' out'] r] eqn:Er.
      intros [= <- <- ->]. constructor; [|eauto].
      simpl. unfold PyDict.mem. by rewrite Eid.
    + destruct (Info.id_prefix prefix item0) as [p|e] eqn:Ep; [|done].
      rewrite get_set_eq, object_type_set_id.
      destruct (Info.object_type stype item0) as [ty|e]; [|done].
      destruct (Info.write_objects prefix stype digits (S i) rest) as [[rest' out'] r] eqn:Er.
      intros [= <- <- ->]. constructor; [|eauto].
      simpl. unfold PyDict.mem. by rewrite get_set_eq.
Qed.

End Ids.

Lemma write_infos_ok d :
  Forall (fun unit => PyDict.mem "__id" (snd unit) = true) d ->
  exists out, Info.write_infos d = (out, Ok tt).
Proof.
  induction 1 as [|[key item] rest Hid _ IH]; simpl; [eauto|].
  simpl in Hid. unfold PyDict.mem in Hid.
  destruct (PyDict.get "__id" item); [|done].
  destruct IH as [out ->]. eauto.
Qed.

(** With the file open, [to_LML] returns normally on a well-tagged
    store, and keeps the store the first loop leaves. *)
Lemma write_file_ok filename prefix stype d :
  well_tagged prefix stype d = true ->
  exists d' objects out,
    Info.write_objects prefix stype (id_digits (length d)) (Info.first_index filename) d
    = (d', objects, Ok tt)
    /\ Info.write_file filename prefix stype d = (d', out, Ok tt).
Proof.
  intros Hw. unfold Info.write_file.
  destruct (write_objects_ok prefix stype (id_digits (length d)) d
              (Info.first_index filename) Hw) as (d' & objects & E).
  rewrite E.
  destruct (write_infos_ok d' (write_objects_all_ids _ _ _ _ _ _ _ E)) as [infos ->].
  eauto.
Qed.

(** The first loop completes only where it finds what it looks up. *)
Lemma write_objects_tagged prefix stype digits units :
  forall i d' out,
    Info.write_objects prefix stype digits i units = (d', out, Ok tt) ->
    well_tagged prefix stype units = true.
Proof.
  induction units as [|[key item] rest IH]; intros i d' out; simpl; [done|].
  assert (forall item',
            PyDict.mem "__type" item' = PyDict.mem "__type" item ->
            (exists ty, Info.object_type stype item' = Ok ty) ->
            PyStr.truthy stype || PyDict.mem "__type" item = true) as Hty.
  { intros item' Hm [ty Hty]. unfold Info.object_type in Hty.
    destruct (PyStr.truthy stype); [done|]. simpl. rewrite <- Hm.
    unfold PyDict.mem. by destruct (PyDict.get "__type" item'). }
  destruct (PyDict.get "__id" item) as [id|] eqn:Eid.
  - rewrite Eid. destruct (Info.object_type stype item) as [ty|e] eqn:Ety; [|done].
    destruct (Info.write_objects prefix stype digits i rest) as [[rest' out'] r] eqn:Er.
    intros [= <- <- ->]. rewrite (IH _ _ _ Er), andb_true_r.
    unfold PyDict.mem at 1. rewrite Eid, orb_true_r. simpl. eauto.
  - destruct (Info.id_prefix prefix item) as [p|e] eqn:Ep; [|done].
    rewrite get_set_eq.
    destruct (Info.object_type stype (PyDict.set "__id" (AStr (make_id p digits i)) item))
      as [ty|e] eqn:Ety; [|done].
    destruct (Info.write_objects prefix stype digits (S i) rest)
      as [[rest' out'] r] eqn:Er.
    intros [= <- <- ->]. rewrite (IH _ _ _ Er), andb_true_r.
    apply andb_true_iff. split.
    + unfold Info.id_prefix in Ep. destruct (PyStr.truthy prefix); [done|].
      unfold PyDict.mem. rewrite Eid. simpl.
      by destruct (PyDict.get "__prefix" item).
    + apply (Hty (PyDict.set "__id" (AStr (make_id p digits i)) item)); [|eauto].
      unfold PyDict.mem. by rewrite get_set_ne.
Qed.

(** A call of [to_LML] that completes has made the directory, opened
    the file and found what it looked up; its store is the one the
    first loop leaves. *)
Lemma to_LML_completed filename prefix stype d d' out :
  Info.to_LML filename prefix stype d = (d', out, Ok tt) ->
  Os.makedirs (Os.dirname filename) = Ok tt
  /\ Os.open_w filename = Ok tt
  /\ well_tagged prefix stype d = true
  /\ Info.write_file filename prefix stype d = (d', out, Ok tt)
  /\ exists objects,
      Info.write_objects prefix stype (id_digits (length d)) (Info.first_index filename) d
      = (d', objects, Ok tt).
Proof.
  unfold Info.to_LML.
  destruct (Os.makedirs (Os.dirname filename)) as [[]|]; [|done].
  destruct (Os.open_w filename) as [[]|]; [|done].
  intros H. split; [done|]. split; [done|].
  assert (exists objects,
             Info.write_objects prefix stype (id_digits (length d))
               (Info.first_index filename) d = (d', objects, Ok tt)) as [objects Hw].
  { unfold Info.write_file in H.
    destruct (Info.write_objects prefix stype (id_digits (length d))
                (Info.first_index filename) d) as [[d1 objects] r1].
    destruct r1 as [[]|]; [|done].
    destruct (Info.write_infos d1) as [infos r2]. destruct r2 as [[]|]; [|done].
    injection H as <- _. eauto. }
  split; [by apply (write_objects_tagged _ _ _ _ _ _ _ Hw)|]. eauto.
Qed.

(** A file that could be written takes every well-tagged store. *)
Lemma to_LML_same_file filename prefix stype d d0 out0 prefix2 stype2 d2 :
  Info.to_LML filename prefix stype d = (d0, out0, Ok tt) ->
  well_tagged prefix2 stype2 d2 = true ->
  exists d' out, Info.to_LML filename prefix2 stype2 d2 = (d', out, Ok tt).
Proof.
  intros H Hw. destruct (to_LML_completed _ _ _ _ _ _ H) as (Hm & Ho & _).
  unfold Info.to_LML. rewrite Hm, Ho.
  destruct (write_file_ok filename prefix2 stype2 d2 Hw) as (d' & _ & out & _ & E). eauto.
Qed.


(** ** The width of the sequence number *)

Lemma ilog10_fuel_bounds fuel n :
  (1 <= n <= fuel)%nat ->
  (10 ^ ilog10_fuel fuel n <= n < 10 ^ S (ilog10_fuel fuel n))%nat.
Proof.
  revert n. induction fuel as [|fuel IH]; intros n Hn; [lia|].
  cbn [ilog10_fuel]. destruct (n <? 10)%nat eqn:E.
  - apply Nat.ltb_lt in E. simpl. lia.
  - apply Nat.ltb_ge in E.
    pose proof (Nat.div_mod_eq n 10) as Hdm.
    pose proof (Nat.mod_upper_bound n 10 ltac:(lia)) as Hm.
    assert (1 <= n / 10 <= fuel)%nat as Hq by lia.
    specialize (IH _ Hq).
    rewrite !Nat.pow_succ_r' in *. lia.
Qed.

(** [id_digits n] is the number of decimal digits of [n]. *)
Lemma id_digits_bounds n :
  (1 <= n)%nat -> (10 ^ (id_digits n - 1) <= n < 10 ^ id_digits n)%nat.
Proof.
  intros Hn. unfold id_digits. destruct n as [|n]; [lia|].
  pose proof (ilog10_fuel_bounds (S n) (S n) ltac:(lia)) as H.
  unfold ilog10. replace (ilog10_fuel (S n) (S n) + 1 - 1)%nat
    with (ilog10_fuel (S n) (S n)) by lia.
  replace (ilog10_fuel (S n) (S n) + 1)%nat with (S (ilog10_fuel (S n) (S n))) by lia.
  exact H.
Qed.

Lemma clog10_fuel_bounds fuel n k :
  (n < fuel + 10 ^ k)%nat -> (k = 0 \/ 10 ^ (k - 1) < n)%nat ->
  let c := clog10_fuel fuel n k in
  (n <= 10 ^ c /\ (c = 0 \/ 10 ^ (c - 1) < n))%nat.
Proof.
  revert k. induction fuel as [|fuel IH]; intros k Hf Hk; simpl.
  - split; [lia|done].
  - destruct (n <=? 10 ^ k)%nat eqn:E.
    + apply Nat.leb_le in E. done.
    + apply Nat.leb_gt in E. apply IH.
      * pose proof (Nat.pow_nonzero 10 k ltac:(lia)). rewrite Nat.pow_succ_r'. lia.
      * right. by replace (S k - 1)%nat with k by lia.
Qed.

(** [clog10 n] is the least exponent [c] with [n <= 10^c]. *)
Lemma clog10_bounds n :
  (n <= 10 ^ clog10 n /\ (clog10 n = 0 \/ 10 ^ (clog10 n - 1) < n))%nat.
Proof. apply clog10_fuel_bounds; simpl; [lia|by left]. Qed.

(** The width of the specification is the width of the code, plus one
    whenever the number of units is not a power of ten. *)
Lemma spec_digits_vs_code n :
  (1 <= n)%nat ->
  (n = 10 ^ ilog10 n /\ Spec.id_digits n = id_digits n)%nat
  \/ (n <> 10 ^ ilog10 n /\ Spec.id_digits n = S (id_digits n))%nat.
Proof.
  intros Hn. pose proof (id_digits_bounds n Hn) as Hi.
  destruct (clog10_bounds n) as [Hc1 Hc2].
  unfold Spec.id_digits, id_digits in *. destruct n as [|n]; [lia|].
  set (i := ilog10 (S n)) in *. set (c := clog10 (S n)) in *.
  replace (i + 1 - 1)%nat with i in Hi by lia.
  replace (i + 1)%nat with (S i) in * by lia.
  assert (i <= c)%nat as Hic.
  { destruct (Nat.le_gt_cases i c) as [|Hlt]; [done|].
    assert (10 ^ c < 10 ^ i)%nat by (apply Nat.pow_lt_mono_r; lia). lia. }
  assert (c <= S i)%nat as Hci.
  { destruct Hc2 as [->|Hc2]; [lia|].
    destruct (Nat.le_gt_cases c (S i)) as [|Hlt]; [done|].
    assert (10 ^ S i <= 10 ^ (c - 1))%nat by (apply Nat.pow_le_mono_r; lia). lia. }
  destruct (Nat.eq_dec (S n) (10 ^ i)) as [Heq|Hne].
  - left. split; [done|].
    assert (c = i); [|lia].
    destruct (Nat.eq_dec c i) as [|Hd]; [done|].
    assert (c = S i) as -> by lia.
    destruct Hc2 as [|Hc2]; [lia|]. replace (S i - 1)%nat with i in Hc2 by lia. lia.
  - right. split; [done|].
    assert (c = S i); [|lia].
    destruct (Nat.eq_dec c i) as [->|Hd]; [lia|lia].
Qed.

Lemma files_write_objects_ids p t digits units :
  forall i j key item,
    units !! j = Some (key, item) ->
    Files.has_id item = false -> Files.not_pstat item = true ->
    fst (Files.write_objects p t digits i units) !! j
    = Some (key, PyDict.set "__id"
                   (AStr (make_id p digits (i + length (Files.needs_id (take j units)) + 1)))
                   item).
Proof.
  induction units as [|[key0 item0] rest IH]; intros i j key item Hj Hid Hps.
  - by destruct j.
  - destruct j as [|j]; simpl in Hj.
    + injection Hj as -> ->. simpl. rewrite Hid, Hps.
      destruct (Files.write_objects p t digits (S i) rest) as [rest' out].
      simpl. by rewrite Nat.add_0_r.
    + simpl. unfold Files.needs_id in *. simpl.
      destruct (Files.has_id item0) eqn:E0; simpl.
      * specialize (IH i j key item Hj Hid Hps).
        destruct (Files.write_objects p t digits i rest) as [rest' out]. exact IH.
      * destruct (Files.not_pstat item0) eqn:E1; simpl.
        -- specialize (IH (S i) j key item Hj Hid Hps).
           destruct (Files.write_objects p t digits (S i) rest) as [rest' out].
           simpl in *. rewrite IH. repeat f_equal. lia.
        -- specialize (IH i j key item Hj Hid Hps).
           destruct (Files.write_objects p t digits i rest) as [rest' out]. exact IH.
Qed.

(** *** The decimal digits of a number *)

Lemma string_of_uint_length u :
  u <> Decimal.Nil ->
  String.length (NilZero.string_of_uint u) = Decimal.nb_digits u.
Proof.
  intros Hu. assert (forall v, String.length (NilEmpty.string_of_uint v) = Decimal.nb_digits v)
    as H.
  { induction v; simpl; congruence. }
  destruct u; [done|..]; apply H.
Qed.

Lemma usize_nb_digits u :
  DecimalPos.Unsigned.usize u = N.of_nat (Decimal.nb_digits u).
Proof. induction u; simpl DecimalPos.Unsigned.usize; simpl Decimal.nb_digits; lia. Qed.

Lemma of_uint_head u :
  (Pos.of_uint u
   = Pos.of_uint (DecimalPos.Unsigned.tl u)
     + DecimalPos.Unsigned.hd u * 10 ^ DecimalPos.Unsigned.usize (DecimalPos.Unsigned.tl u))%N.
Proof.
  rewrite !DecimalPos.Unsigned.of_uint_alt.
  destruct u; [done|..]; unfold Decimal.rev; simpl Decimal.revapp;
    rewrite DecimalPos.Unsigned.of_lu_revapp;
    cbn [DecimalPos.Unsigned.tl DecimalPos.Unsigned.hd DecimalPos.Unsigned.of_lu];
    change (Decimal.revapp u Decimal.Nil) with (Decimal.rev u);
    generalize (10 ^ DecimalPos.Unsigned.usize u)%N; intros; lia.
Qed.

Lemma of_uint_upper u : (Pos.of_uint u < 10 ^ DecimalPos.Unsigned.usize u)%N.
Proof.
  induction u; [done|..]; rewrite of_uint_head;
    simpl DecimalPos.Unsigned.tl; simpl DecimalPos.Unsigned.hd;
    simpl DecimalPos.Unsigned.usize; rewrite N.pow_succ_r'; lia.
Qed.

Lemma of_uint_lower u :
  (1 <= DecimalPos.Unsigned.hd u)%N ->
  (10 ^ DecimalPos.Unsigned.usize (DecimalPos.Unsigned.tl u) <= Pos.of_uint u)%N.
Proof. intros H. rewrite (of_uint_head u). nia. Qed.

(** [Pos.to_uint] has no leading zero. *)
Lemma to_uint_head p : (1 <= DecimalPos.Unsigned.hd (Pos.to_uint p))%N.
Proof.
  pose proof (DecimalPos.Unsigned.to_of (Pos.to_uint p)) as H.
  rewrite DecimalPos.Unsigned.of_to in H. change (N.to_uint (N.pos p)) with (Pos.to_uint p) in H.
  pose proof (DecimalPos.Unsigned.to_uint_nonzero p) as Hz.
  pose proof (DecimalPos.Unsigned.to_uint_nonnil p) as Hn.
  destruct (Pos.to_uint p) as [|u|u|u|u|u|u|u|u|u|u]; simpl; try lia; [done|].
  exfalso. unfold Decimal.unorm in H. simpl in H.
  pose proof (DecimalFacts.nb_digits_nzhead u) as Hle.
  destruct (Decimal.nzhead u) eqn:E;
    [injection H as Hu; apply Hz; by rewrite <- Hu|..];
    apply (f_equal Decimal.nb_digits) in H; simpl in H, Hle; lia.
Qed.

(** [str(n)] has as many characters as [n] has decimal digits. *)
Lemma uniq_digits n a b :
  (1 <= a)%nat -> (1 <= b)%nat ->
  (10 ^ (a - 1) <= n < 10 ^ a)%nat -> (10 ^ (b - 1) <= n < 10 ^ b)%nat -> a = b.
Proof.
  intros Ha Hb [Ha1 Ha2] [Hb1 Hb2].
  destruct (Nat.lt_trichotomy a b) as [Hlt|[?|Hlt]]; [|done|].
  - assert (10 ^ a <= 10 ^ (b - 1))%nat by (apply Nat.pow_le_mono_r; lia). lia.
  - assert (10 ^ b <= 10 ^ (a - 1))%nat by (apply Nat.pow_le_mono_r; lia). lia.
Qed.

Lemma id_digits_pos n : (1 <= id_digits n)%nat.
Proof. unfold id_digits. destruct n; lia. Qed.

Lemma of_Z_length n : String.length (PyStr.of_Z (Z.of_nat n)) = id_digits n.
Proof.
  destruct n as [|n]; [done|].
  unfold PyStr.of_Z.
  destruct (Z.of_nat (S n)) as [|p|p] eqn:Ep; [lia| |lia].
  cbn [Z.to_int NilZero.string_of_int].
  rewrite string_of_uint_length by apply DecimalPos.Unsigned.to_uint_nonnil.
  pose proof (of_uint_upper (Pos.to_uint p)) as Hup.
  pose proof (of_uint_lower _ (to_uint_head p)) as Hlo.
  pose proof (DecimalPos.Unsigned.to_uint_nonnil p) as Hn.
  rewrite DecimalPos.Unsigned.of_to in Hup, Hlo.
  rewrite usize_nb_digits in Hup, Hlo.
  assert (Decimal.nb_digits (Pos.to_uint p)
          = S (Decimal.nb_digits (DecimalPos.Unsigned.tl (Pos.to_uint p)))) as Hk.
  { by destruct (Pos.to_uint p). }
  set (k := Decimal.nb_digits (DecimalPos.Unsigned.tl (Pos.to_uint p))) in *.
  rewrite Hk in *.
  apply (uniq_digits (S n)); [lia|apply id_digits_pos| |apply id_digits_bounds; lia].
  replace (S k - 1)%nat with k by lia.
  assert (N.pos p = N.of_nat (S n)) as Hp by lia.
  rewrite Hp in Hup, Hlo.
  change 10%N with (N.of_nat 10) in Hup, Hlo.
  rewrite <- !Nat2N.inj_pow in Hup, Hlo. lia.
Qed.

Lemma id_digits_mono i n : (i <= n)%nat -> (id_digits i <= id_digits n)%nat.
Proof.
  intros Hin. destruct i as [|i]; [apply id_digits_pos|].
  pose proof (id_digits_bounds (S i) ltac:(lia)) as [Hi _].
  pose proof (id_digits_bounds n ltac:(lia)) as [_ Hn].
  destruct (Nat.le_gt_cases (id_digits (S i)) (id_digits n)) as [|Hgt]; [done|].
  assert (10 ^ id_digits n <= 10 ^ (id_digits (S i) - 1))%nat
    by (apply Nat.pow_le_mono_r; lia).
  lia.
Qed.

Lemma string_length_app (s1 s2 : string) :
  String.length (s1 +:+ s2) = (String.length s1 + String.length s2)%nat.
Proof. induction s1; simpl; congruence. Qed.

Lemma repeat_length c n : String.length (PyStr.repeat c n) = n.
Proof. induction n; simpl; congruence. Qed.

(** Padding fills up to the width and never cuts. *)
Lemma make_id_length p digits i :
  String.length (make_id p digits i) = (String.length p + Nat.max digits (id_digits i))%nat.
Proof.
  unfold make_id, PyStr.zfill.
  rewrite !string_length_app, repeat_length, of_Z_length. lia.
Qed.

Lemma without_id_length (d : store) : (length (without_id d) <= length d)%nat.
Proof. unfold without_id. apply List.filter_length_le. Qed.

Lemma needs_id_rank (d : store) j key item :
  d !! j = Some (key, item) ->
  Files.has_id item = false -> Files.not_pstat item = true ->
  (length (Files.needs_id (take j d)) + 1 <= length (Files.countable d))%nat.
Proof.
  intros Hj Hid Hps.
  rewrite <- (take_drop_middle d j (key, item) Hj) at 2.
  unfold Files.needs_id, Files.countable.
  rewrite List.filter_app, length_app. cbn [List.filter snd]. rewrite Hps. cbn [length].
  assert (forall l : store,
            length (List.filter
                      (fun unit => negb (Files.has_id (snd unit)) && Files.not_pstat (snd unit))
                      l)
            <= length (List.filter (fun unit => Files.not_pstat (snd unit)) l))%nat as Hle.
  { induction l as [|[k it] l IH]; [done|]. cbn [List.filter snd].
    destruct (Files.not_pstat it), (Files.has_id it); simpl; lia. }
  specialize (Hle (take j d)). lia.
Qed.

(** C6, as the code has it: a unit without [__id] gets the prefix
    followed by the sequence counter padded with zeros to
    [int(log10(N))+1] digits, which is the number of decimal digits
    of [N] (two for fifteen units).  Padding never cuts, so the
    number is as wide as that or as the counter, whichever is more;
    the counter is below [N], and the number exactly that wide,
    unless the file name contains [percore], where the counter
    starts at 700.  In [Info.to_LML], [N] is the number of units; in
    [_perform_lml_write], [N] counts the units that are not
    [pstat] and the counter starts at one. *)
Theorem ids_padded_to_decimal_digits (filename prefix stype : string) (d : store) :
  (1 <= length d)%nat ->
  Spec.ids_padded_to id_digits filename prefix stype d
  /\ Spec.file_ids_padded_to id_digits prefix stype d
  /\ String.length (PyStr.of_Z (Z.of_nat (length d))) = id_digits (length d)
  /\ (10 ^ (id_digits (length d) - 1) <= length d < 10 ^ id_digits (length d))%nat
  /\ (forall p i,
        String.length (make_id p (id_digits (length d)) i)
        = (String.length p + Nat.max (id_digits (length d)) (id_digits i))%nat)
  /\ (PyStr.contains "percore" filename = false ->
      forall p j,
        (j < length d)%nat ->
        String.length (make_id p (id_digits (length d))
                         (Info.first_index filename + length (without_id (take j d))))
        = (String.length p + id_digits (length d))%nat)
  /\ (forall p j key item,
        d !! j = Some (key, item) ->
        Files.has_id item = false -> Files.not_pstat item = true ->
        String.length (make_id p (id_digits (length (Files.countable d)))
                         (length (Files.needs_id (take j d)) + 1))
        = (String.length p + id_digits (length (Files.countable d)))%nat)
  /\ id_digits 15 = 2%nat.
Proof.
  intros Hn. split; [|split; [|split; [|split; [|split; [|split; [|split]]]]]].
  - intros d' out j key item E Hj Hid.
    destruct (to_LML_completed _ _ _ _ _ _ E) as (_ & _ & _ & _ & objects & Ew).
    destruct (write_objects_ids _ _ _ _ _ _ _ Ew) as [_ Hids].
    specialize (Hids j key item Hj). by rewrite Hid in Hids.
  - intros j key item Hj Hid Hps. unfold Files._perform_lml_write.
    pose proof (files_write_objects_ids prefix stype
                  (id_digits (length (Files.countable d))) d 0 j key item Hj Hid Hps) as H.
    destruct (Files.write_objects prefix stype (id_digits (length (Files.countable d))) 0 d)
      as [d1 objects].
    exact H.
  - apply of_Z_length.
  - by apply id_digits_bounds.
  - intros p i. apply make_id_length.
  - intros Hfile p j Hj. rewrite make_id_length. unfold Info.first_index. rewrite Hfile.
    pose proof (without_id_length (take j d)) as Hle. rewrite length_take in Hle.
    pose proof (id_digits_mono (0 + length (without_id (take j d))) (length d)
                  ltac:(lia)).
    lia.
  - intros p j key item Hj Hid Hps. rewrite make_id_length.
    pose proof (id_digits_mono _ _ (needs_id_rank d j key item Hj Hid Hps)). lia.
  - reflexivity.
Qed.

Lemma ids_padded_to_decimal_digits_witness :
  exists p,
    Info.id_prefix "n" [("x", AStr "1")] = Ok p
    /\ fst (fst (Info.to_LML "out/nodes_LML.xml" "n" "node" Sample.fifteen)) !! 14%nat
       = Some ("node14",
               PyDict.set "__id"
                 (AStr (make_id p (id_digits (length Sample.fifteen))
                          (Info.first_index "out/nodes_LML.xml"
                           + length (without_id (take 14 Sample.fifteen)))))
                 [("x", AStr "1")]).
Proof.
  refine (proj1 (ids_padded_to_decimal_digits "out/nodes_LML.xml" "n" "node"
                   Sample.fifteen _)
            (fst (fst (Info.to_LML "out/nodes_LML.xml" "n" "node" Sample.fifteen)))
            (snd (fst (Info.to_LML "out/nodes_LML.xml" "n" "node" Sample.fifteen)))
            14%nat "node14" [("x", AStr "1")] _ _ _).
  - vm_compute. lia.
  - vm_compute. reflexivity.
  - reflexivity.
  - reflexivity.
Defined.

(** C6 as stated fails: with fifteen units the ids run from the
    prefix followed by [00] to the prefix followed by [14], two
    digits wide, where [ceil(log10(15))+1] is three. *)
Lemma fifteen_units_two_digits :
  fst (fst (Info.to_LML "out/nodes_LML.xml" "n" "node" Sample.fifteen)) !! 0%nat
  = Some ("node0", [("x", AStr "1"); ("__id", AStr "n00")])
  /\ fst (fst (Info.to_LML "out/nodes_LML.xml" "n" "node" Sample.fifteen)) !! 14%nat
     = Some ("node14", [("x", AStr "1"); ("__id", AStr "n14")])
  /\ Spec.id_digits 15 = 3%nat
  /\ ~ Spec.ids_padded_to Spec.id_digits "out/nodes_LML.xml" "n" "node" Sample.fifteen.
Proof.
  split; [reflexivity|]. split; [reflexivity|]. split; [reflexivity|].
  intros H.
  destruct (Info.to_LML "out/nodes_LML.xml" "n" "node" Sample.fifteen)
    as [[d' out] r] eqn:E.
  vm_compute in E. injection E as <- <- <-.
  destruct (H _ _ 0%nat "node0" [("x", AStr "1")] eq_refl eq_refl eq_refl) as (p & Hp & Hd).
  vm_compute in Hp. injection Hp as <-.
  vm_compute in Hd. discriminate Hd.
Qed.

(** In a [percore] file the same fifteen units get three digits, the
    width of the counter. *)
Example fifteen_percore_units_three_digits :
  fst (fst (Info.to_LML "out/cpu_percore_LML.xml" "c" "core" Sample.fifteen)) !! 0%nat
  = Some ("node0", [("x", AStr "1"); ("__id", AStr "c700")]).
Proof. reflexivity. Qed.

(** A file name without a directory: [makedirs] raises before the
    file is opened, no unit gets an id and nothing is written. *)
Example bare_file_name_raises :
  Info.to_LML "nodes_LML.xml" "n" "node" Sample.fifteen
  = (Sample.fifteen, [], Raise FileNotFoundError).
Proof. reflexivity. Qed.

(** *** Reading an id back *)

Lemma startswith_app p s : PyStr.startswith p (p +:+ s) = true.
Proof. induction p as [|a p IH]; simpl; [done|]. by rewrite Ascii.eqb_refl. Qed.

Lemma drop_prefix p s : PyStr.drop (String.length p) (p +:+ s) = s.
Proof. induction p as [|a p IH]; simpl; [by destruct s|done]. Qed.

Lemma of_Z_uint z :
  (0 <= z)%Z ->
  exists d, d <> Decimal.Nil /\ PyStr.of_Z z = NilZero.string_of_uint d /\ Z.of_uint d = z.
Proof.
  intros Hz. destruct z as [|p|p]; [| |lia].
  - by exists (Decimal.D0 Decimal.Nil).
  - exists (Pos.to_uint p). split; [apply Unsigned.to_uint_nonnil|]. split; [done|].
    unfold Z.of_uint. by rewrite DecimalPos.Unsigned.of_to.
Qed.

Lemma read_zeros k s :
  s <> EmptyString ->
  NilZero.uint_of_string (PyStr.repeat "0"%char k +:+ s)
  = option_map (Nat.iter k Decimal.D0) (NilZero.uint_of_string s).
Proof.
  intros Hs. induction k as [|k IH]; simpl.
  - by destruct (NilZero.uint_of_string s).
  - destruct s as [|a s]; [done|].
    destruct k as [|k]; simpl in *.
    + by destruct (uint_of_char a (NilEmpty.uint_of_string s)).
    + rewrite IH. by destruct (uint_of_char a (NilEmpty.uint_of_string s)).
Qed.

Lemma of_uint_zeros k d : Z.of_uint (Nat.iter k Decimal.D0 d) = Z.of_uint d.
Proof. induction k as [|k IH]; [done|]. simpl. exact IH. Qed.

Lemma string_of_uint_nonempty d : NilZero.string_of_uint d <> EmptyString.
Proof. by destruct d. Qed.

(** The counter can be read back from a generated id, whatever the
    width: padding adds zeros and never cuts digits. *)
Lemma make_id_number prefix digits i :
  id_number prefix (make_id prefix digits i) = Some (Z.of_nat i).
Proof.
  unfold id_number, make_id, PyStr.zfill. rewrite startswith_app, drop_prefix.
  destruct (of_Z_uint (Z.of_nat i)) as (d & Hd & -> & Hi); [lia|].
  rewrite read_zeros by apply string_of_uint_nonempty.
  rewrite NilZero.usu by done. simpl. by rewrite of_uint_zeros, Hi.
Qed.

Lemma make_id_inj prefix digits i j :
  make_id prefix digits i = make_id prefix digits j -> i = j.
Proof.
  intros H. pose proof (make_id_number prefix digits i) as Hi.
  rewrite H, make_id_number in Hi. injection Hi. lia.
Qed.


(** C9: the counter of [Info.to_LML] starts at 700 when the file name
    contains [percore] and at 0 otherwise.  When the call completes,
    a unit without [__id] has got the prefix followed by the padded
    counter, which is that start plus the number of units without id
    before it: the number read back from the id is this one, and the
    first such unit of a [percore] file has the prefix followed by
    the padded 700. *)
Theorem percore_ids_start_at_700 (filename prefix stype : string) (d d' : store) out
  j key item :
  Info.to_LML filename prefix stype d = (d', out, Ok tt) ->
  d !! j = Some (key, item) ->
  PyDict.get "__id" item = None ->
  let start := if PyStr.contains "percore" filename then 700%nat else 0%nat in
  let counter := (start + length (without_id (take j d)))%nat in
  exists p id,
    Info.id_prefix prefix item = Ok p
    /\ d' !! j = Some (key, PyDict.set "__id" (AStr id) item)
    /\ id = make_id p (id_digits (length d)) counter
    /\ id_number p id = Some (Z.of_nat counter)
    /\ (without_id (take j d) = [] ->
        id = p +:+ PyStr.zfill (id_digits (length d))
                     (if PyStr.contains "percore" filename then "700" else "0")).
Proof.
  intros E Hj Hid start counter.
  destruct (to_LML_completed _ _ _ _ _ _ E) as (_ & _ & _ & _ & objects & Ew).
  destruct (write_objects_ids _ _ _ _ _ _ _ Ew) as [_ Hids].
  specialize (Hids j key item Hj). rewrite Hid in Hids.
  destruct Hids as (p & Hp & Hd). exists p, (make_id p (id_digits (length d)) counter).
  split; [done|]. split; [exact Hd|]. split; [done|]. split; [apply make_id_number|].
  intros Hfirst. subst counter start. rewrite Hfirst. unfold make_id. cbn [length].
  by destruct (PyStr.contains "percore" filename).
Qed.

Lemma percore_ids_start_at_700_witness :
  exists p id,
    Info.id_prefix "c" [("percore", AStr "0:1")] = Ok p
    /\ fst (fst (Info.to_LML "out/cpu_percore_LML.xml" "c" "core"
                   [("node1", [("percore", AStr "0:1")])])) !! 0%nat
       = Some ("node1", PyDict.set "__id" (AStr id) [("percore", AStr "0:1")])
    /\ id = make_id p 1 700
    /\ id_number p id = Some 700%Z
    /\ (without_id (take 0 [("node1", [("percore", AStr "0:1")])]) = [] ->
        id = p +:+ PyStr.zfill 1 "700").
Proof.
  exact (percore_ids_start_at_700 "out/cpu_percore_LML.xml" "c" "core"
           [("node1", [("percore", AStr "0:1")])]
           (fst (fst (Info.to_LML "out/cpu_percore_LML.xml" "c" "core"
                        [("node1", [("percore", AStr "0:1")])])))
           (snd (fst (Info.to_LML "out/cpu_percore_LML.xml" "c" "core"
                        [("node1", [("percore", AStr "0:1")])])))
           0%nat "node1" [("percore", AStr "0:1")] eq_refl eq_refl eq_refl).
Defined.

Example percore_first_id :
  fst (fst (Info.to_LML "out/cpu_percore_LML.xml" "c" "core"
              [("node1", [("percore", AStr "0:1")])]))
  = [("node1", [("percore", AStr "0:1"); ("__id", AStr "c700")])].
Proof. reflexivity. Qed.

(** ** Regular expressions: what [re.match] and [re.search] decide *)

Section ReFacts.
Import Re.

Lemma app_empty_r (s : string) : s +:+ EmptyString = s.
Proof. induction s; simpl; congruence. Qed.

Lemma app_assoc3 (a b c : string) : (a +:+ b) +:+ c = a +:+ (b +:+ c).
Proof. induction a; simpl; congruence. Qed.

Lemma app_eq_empty (s1 s2 : string) :
  s1 +:+ s2 = EmptyString -> s1 = EmptyString /\ s2 = EmptyString.
Proof. destruct s1; simpl; [done|discriminate]. Qed.

Lemma app_eq_cons (s1 s2 : string) a s :
  s1 +:+ s2 = String a s ->
  (s1 = EmptyString /\ s2 = String a s)
  \/ exists s1', s1 = String a s1' /\ s = s1' +:+ s2.
Proof.
  destruct s1 as [|b s1]; simpl; [by left|].
  intros [= -> <-]. right. eauto.
Qed.

Lemma cat_inv r1 r2 s :
  matches (Cat r1 r2) s ->
  exists s1 s2, s = s1 +:+ s2 /\ matches r1 s1 /\ matches r2 s2.
Proof. inversion 1; subst; eauto. Qed.

Lemma alt_inv r1 r2 s : matches (Alt r1 r2) s -> matches r1 s \/ matches r2 s.
Proof. inversion 1; subst; auto. Qed.

Lemma eps_inv s : matches Eps s -> s = EmptyString.
Proof. by inversion 1. Qed.

Lemma chr_inv c s : matches (Chr c) s -> s = String c EmptyString.
Proof. by inversion 1. Qed.

Lemma dot_inv s : matches Dot s -> exists c, c <> newline /\ s = String c EmptyString.
Proof. inversion 1; subst; eauto. Qed.

Lemma void_inv s : ~ matches Void s.
Proof. inversion 1. Qed.

Lemma nullable_spec r : nullable r = true <-> matches r EmptyString.
Proof.
  induction r; simpl.
  - split; [done|]. intros H. by apply void_inv in H.
  - split; [constructor|done].
  - split; [done|]. intros H. by apply chr_inv in H.
  - split; [done|]. intros H. by apply dot_inv in H as (c & _ & ?).
  - rewrite orb_true_iff, IHr1, IHr2. split.
    + intros [H|H]; [by apply m_alt_l|by apply m_alt_r].
    + apply alt_inv.
  - rewrite andb_true_iff, IHr1, IHr2. split.
    + intros [H1 H2]. by apply (m_cat r1 r2 EmptyString EmptyString).
    + intros H. apply cat_inv in H as (s1 & s2 & Hs & H1 & H2). symmetry in Hs.
      apply app_eq_empty in Hs as [-> ->]. done.
  - split; [constructor|done].
Qed.

Lemma star_cons_inv r a s :
  matches (Star r) (String a s) ->
  exists s1 s2, s = s1 +:+ s2 /\ matches r (String a s1) /\ matches (Star r) s2.
Proof.
  intros H. remember (Star r) as r' eqn:Er. remember (String a s) as x eqn:Ex.
  induction H as [| | | | | | |r0 s1 s2 H1 _ H2 IH2]; try discriminate.
  injection Er as ->.
  destruct (app_eq_cons _ _ _ _ Ex) as [[-> ->]|(s1' & -> & ->)].
  - by apply IH2.
  - eauto.
Qed.

Lemma deriv_spec a r s : matches (deriv a r) s <-> matches r (String a s).
Proof.
  revert s. induction r as [| |c| |r1 IH1 r2 IH2|r1 IH1 r2 IH2|r IH]; intros s; simpl.
  - split; intros H; by apply void_inv in H.
  - split; intros H; [by apply void_inv in H|by apply eps_inv in H].
  - destruct (Ascii.eqb a c) eqn:E.
    + apply Ascii.eqb_eq in E. subst c. split; intros H.
      * apply eps_inv in H as ->. constructor.
      * apply chr_inv in H. injection H as ->. constructor.
    + apply Ascii.eqb_neq in E. split; intros H; [by apply void_inv in H|].
      apply chr_inv in H. congruence.
  - destruct (Ascii.eqb a newline) eqn:E.
    + apply Ascii.eqb_eq in E. split; intros H; [by apply void_inv in H|].
      apply dot_inv in H as (c & Hc & H). congruence.
    + apply Ascii.eqb_neq in E. split; intros H.
      * apply eps_inv in H as ->. by constructor.
      * apply dot_inv in H as (c & Hc & H). injection H as -> ->. constructor.
  - split; intros H; apply alt_inv in H as [H|H];
      (by apply m_alt_l, IH1) || (by apply m_alt_r, IH2).
  - assert (forall t, matches (Cat (deriv a r1) r2) t ->
                      matches (Cat r1 r2) (String a t)) as Hcat.
    { intros t H. apply cat_inv in H as (s1 & s2 & -> & H1 & H2).
      apply (m_cat r1 r2 (String a s1) s2); [by apply IH1|done]. }
    assert (forall t, matches (Cat r1 r2) (String a t) ->
                      matches (Cat (deriv a r1) r2) t
                      \/ matches r1 EmptyString /\ matches (deriv a r2) t) as Hinv.
    { intros t H. apply cat_inv in H as (s1 & s2 & Hs & H1 & H2). symmetry in Hs.
      destruct (app_eq_cons _ _ _ _ Hs) as [[-> ->]|(s1' & -> & ->)].
      - right. split; [done|]. by apply IH2.
      - left. apply m_cat; [by apply IH1|done]. }
    destruct (nullable r1) eqn:N.
    + split; intros H.
      * apply alt_inv in H as [H|H]; [by apply Hcat|].
        apply (m_cat r1 r2 EmptyString (String a s)); [by apply nullable_spec|by apply IH2].
      * apply Hinv in H as [H|[_ H]]; [by apply m_alt_l|by apply m_alt_r].
    + split; [apply Hcat|]. intros H.
      apply Hinv in H as [H|[H _]]; [done|].
      apply nullable_spec in H. congruence.
  - split; intros H.
    + apply cat_inv in H as (s1 & s2 & -> & H1 & H2).
      apply (m_star_cons r (String a s1) s2); [by apply IH|done].
    + apply star_cons_inv in H as (s1 & s2 & -> & H1 & H2).
      apply m_cat; [by apply IH|done].
Qed.

Lemma accepts_spec r s : accepts r s = true <-> matches r s.
Proof.
  revert r. induction s as [|a s IH]; intros r; simpl.
  - apply nullable_spec.
  - rewrite IH. apply deriv_spec.
Qed.

(** [re.match]: some prefix of the subject is in the language. *)
Lemma match_spec r s :
  match_ r s = true <-> exists m rest, s = m +:+ rest /\ matches r m.
Proof.
  revert r. induction s as [|a s IH]; intros r; simpl.
  - rewrite orb_false_r, nullable_spec. split.
    + intros H. by exists EmptyString, EmptyString.
    + intros (m & rest & Hs & H). symmetry in Hs.
      apply app_eq_empty in Hs as [-> _]. done.
  - rewrite orb_true_iff, nullable_spec, IH. split.
    + intros [H|(m & rest & -> & H)].
      * by exists EmptyString, (String a s).
      * exists (String a m), rest. split; [done|]. by apply deriv_spec.
    + intros (m & rest & Hs & H). symmetry in Hs.
      destruct (app_eq_cons _ _ _ _ Hs) as [[-> _]|(m' & -> & ->)]; [by left|].
      right. exists m', rest. split; [done|]. by apply deriv_spec.
Qed.

(** [re.search]: some substring of the subject is in the language. *)
Lemma search_spec r s :
  search r s = true
  <-> exists before m rest, s = before +:+ m +:+ rest /\ matches r m.
Proof.
  induction s as [|a s IH]; cbn [search].
  - rewrite orb_false_r, match_spec. split.
    + intros (m & rest & -> & H). by exists EmptyString, m, rest.
    + intros (before & m & rest & Hs & H). symmetry in Hs.
      apply app_eq_empty in Hs as [-> Hs]. eauto.
  - rewrite orb_true_iff, match_spec, IH. split.
    + intros [(m & rest & -> & H)|(before & m & rest & -> & H)].
      * by exists EmptyString, m, rest.
      * by exists (String a before), m, rest.
    + intros (before & m & rest & Hs & H). symmetry in Hs.
      destruct before as [|b before]; simpl in Hs; [left; eauto|].
      injection Hs as -> <-. right. eauto.
Qed.

(** Whatever [re.match] finds, [re.search] finds. *)
Lemma match_search r s : match_ r s = true -> search r s = true.
Proof. destruct s; simpl; intros ->; done. Qed.

End ReFacts.

(** ** Include and exclude *)

Section FilterFacts.
Variable compile : string -> option Re.regex.

(** [Info.check_unit] on a pattern string: the pattern matches at the
    start of the unit name. *)
Lemma info_check_unit_str name unit p :
  Info.check_unit compile name unit (PStr p) = Ok true
  <-> exists r, compile p = Some r
             /\ exists m rest, name = m +:+ rest /\ Re.matches r m.
Proof.
  unfold Info.check_unit, check_unit, re_call. destruct (compile p) as [r|].
  - split.
    + intros [= H]. exists r. split; [done|]. by apply match_spec.
    + intros (r' & [= <-] & H). f_equal. by apply match_spec.
  - split; [done|]. by intros (r & ? & _).
Qed.

(** [BenchRepo.check_unit] on a pattern string: the pattern matches
    somewhere in the unit name. *)
Lemma bench_check_unit_str name unit p :
  BenchRepo.check_unit compile name unit (PStr p) = Ok true
  <-> exists r, compile p = Some r
             /\ exists before m rest, name = before +:+ m +:+ rest /\ Re.matches r m.
Proof.
  unfold BenchRepo.check_unit, check_unit, re_call. destruct (compile p) as [r|].
  - split.
    + intros [= H]. exists r. split; [done|]. by apply search_spec.
    + intros (r' & [= <-] & H). f_equal. by apply search_spec.
  - split; [done|]. by intros (r & ? & _).
Qed.

(** *** The deletion loop *)

Lemma bench_del_each l d : BenchRepo.del_each l d = Info.del_each l d.
Proof.
  revert d. induction l as [|k l IH]; intros d; simpl; [done|].
  destruct (PyDict.del k d); [apply IH|done].
Qed.

Lemma keys_filter_In (f : string * record -> bool) (d : store) k :
  In k (PyDict.keys (List.filter f d)) -> In k (PyDict.keys d).
Proof.
  unfold PyDict.keys. rewrite !in_map_iff.
  intros ([k' v] & Hk & Hin). apply filter_In in Hin as [Hin _]. eauto.
Qed.

(** Deleting distinct keys that are all present succeeds, and leaves
    the units whose key is not among them, in their order. *)
Lemma del_each_distinct l (d : store) :
  PyDict.wf d -> List.NoDup l -> (forall k, In k l -> In k (PyDict.keys d)) ->
  Info.del_each l d
  = (List.filter (fun unit => negb (existsb (String.eqb (fst unit)) l)) d, Ok tt).
Proof.
  revert d. induction l as [|k l IH]; intros d Hwf Hnd Hin; simpl.
  - f_equal. clear. induction d as [|u d IHd]; simpl; congruence.
  - inversion Hnd as [|? ? Hk Hnd']; subst.
    destruct (del_Some k d (Hin k (or_introl eq_refl))) as [d' Hd]. rewrite Hd.
    pose proof (del_filter k d d' Hwf Hd) as ->.
    rewrite IH; [|by apply wf_filter|done|].
    + f_equal. clear. induction d as [|[k' v'] d IHd]; simpl; [done|].
      rewrite (String.eqb_sym k' k).
      destruct (String.eqb k k'); simpl; [done|].
      destruct (existsb (String.eqb k') l); simpl; [done|]. by f_equal.
    + intros k0 Hk0. pose proof (Hin k0 (or_intror Hk0)) as Hd0.
      unfold PyDict.keys in *. apply in_map_iff in Hd0 as ([k1 v1] & Hk1 & Hd0).
      simpl in Hk1. subst k1. apply in_map_iff. exists (k0, v1). split; [done|].
      apply filter_In. split; [done|]. simpl.
      apply negb_true_iff, String.eqb_neq. intros ->. done.
Qed.

(** A second deletion of the same key raises: the first one removed
    it. *)
Lemma del_each_twice k l (d : store) :
  PyDict.wf d -> In k (PyDict.keys d) ->
  exists d', Info.del_each (k :: k :: l) d = (d', Raise (KeyError k)).
Proof.
  intros Hwf Hin. simpl. destruct (del_Some k d Hin) as [d' Hd]. rewrite Hd.
  destruct (PyDict.del k d') as [d''|] eqn:E; [|eauto].
  apply del_keys in E. rewrite (del_filter k d d' Hwf Hd) in E.
  unfold PyDict.keys in E.
  apply in_map_iff in E as ([k' v'] & Hk & E). simpl in Hk. subst k'.
  apply filter_In in E as [_ E]. simpl in E. by rewrite String.eqb_refl in E.
Qed.

(** Whatever the outcome, the deletion loop only removes units. *)
Lemma del_each_keys l (d d' : store) r k :
  Info.del_each l d = (d', r) -> In k (PyDict.keys d') -> In k (PyDict.keys d).
Proof.
  revert d. induction l as [|k0 l IH]; intros d; simpl.
  - by intros [= <- _].
  - destruct (PyDict.del k0 d) as [d0|] eqn:E.
    + intros H Hin. specialize (IH _ H Hin). clear H.
      revert d0 E IH. induction d as [|[k1 v1] d IHd]; simpl; [done|].
      intros d0. destruct (String.eqb k0 k1).
      * intros [= <-]. by right.
      * destruct (PyDict.del k0 d) as [d1|]; [|done].
        intros [= <-]. simpl. intros [H|H]; [by left|]. right. by apply (IHd d1).
    + by intros [= <- _].
Qed.

End FilterFacts.

Section ApplyPattern.
Variable compile : string -> option Re.regex.
Variables exclude include : pattern.

Lemma del_each_outcome l (d d' : store) r :
  Info.del_each l d = (d', r) ->
  r = Ok tt \/ exists k, In k l /\ r = Raise (KeyError k).
Proof.
  revert d. induction l as [|k l IH]; intros d; simpl.
  - intros [= _ <-]. by left.
  - destruct (PyDict.del k d) as [d0|].
    + intros H. destruct (IH _ H) as [->|(k0 & ? & ->)]; [by left|]. right. eauto.
    + intros [= _ <-]. right. eauto.
Qed.

(** When the loop completes, every key it was given was present when
    its turn came, so the keys were distinct and are gone. *)
Lemma del_each_completed l (d d' : store) :
  PyDict.wf d -> Info.del_each l d = (d', Ok tt) ->
  List.NoDup l /\ forall k, In k l -> In k (PyDict.keys d) /\ ~ In k (PyDict.keys d').
Proof.
  revert d. induction l as [|k l IH]; intros d Hwf; simpl.
  - intros _. split; [constructor|done].
  - destruct (PyDict.del k d) as [d0|] eqn:E; [|done].
    intros H. pose proof (del_filter k d d0 Hwf E) as Hd0.
    assert (PyDict.wf d0) as Hwf0 by (subst d0; by apply wf_filter).
    destruct (IH d0 Hwf0 H) as [Hnd Hl].
    assert (~ In k (PyDict.keys d0)) as Hk0.
    { subst d0. unfold PyDict.keys. rewrite in_map_iff.
      intros ([k' v'] & Hk & Hin). simpl in Hk. subst k'.
      apply filter_In in Hin as [_ Hin]. simpl in Hin.
      by rewrite String.eqb_refl in Hin. }
    split.
    + constructor; [|done]. intros Hin. by apply Hl in Hin as [? _].
    + intros k0 [<-|Hin].
      * split; [by apply del_keys in E|].
        intros Hin. apply Hk0. by apply (del_each_keys l d0 d' (Ok tt)).
      * destruct (Hl k0 Hin) as [H1 H2]. split; [|done].
        subst d0. by apply keys_filter_In in H1.
Qed.

(** What the first loop of [Info.apply_pattern] appends for one unit. *)
Lemma info_mark_spec acc name unit l :
  Info.mark compile exclude include acc name unit = Ok l ->
  exists marks, l = acc ++ marks /\ (forall k, In k marks -> k = name) /\
    (pattern_truthy exclude = true ->
     Info.check_unit compile name unit exclude = Ok true -> In name marks) /\
    (pattern_truthy exclude = true -> pattern_truthy include = true ->
     Info.check_unit compile name unit exclude = Ok true ->
     Info.check_unit compile name unit include = Ok false ->
     marks = [name; name]).
Proof.
  unfold Info.mark.
  destruct (pattern_truthy exclude), (pattern_truthy include);
    repeat match goal with
      | |- context [Info.check_unit compile name unit ?p] =>
          destruct (Info.check_unit compile name unit p) as [[]|]
      end;
    intros [= <-]; rewrite <- ?app_assoc; simpl;
    (eexists; split; [try reflexivity; by rewrite app_nil_r|]);
    (split; [simpl; intros k Hk; repeat destruct Hk as [Hk|Hk]; done|]);
    split; intros; simpl; try done; auto.
Qed.

Lemma info_mark_all_spec units acc l :
  Info.mark_all compile exclude include acc units = Ok l ->
  exists marks, l = acc ++ marks /\
    (forall k, In k marks -> In k (PyDict.keys units)) /\
    (forall name unit, In (name, unit) units ->
       pattern_truthy exclude = true ->
       Info.check_unit compile name unit exclude = Ok true -> In name marks) /\
    (forall name unit, In (name, unit) units ->
       pattern_truthy exclude = true -> pattern_truthy include = true ->
       Info.check_unit compile name unit exclude = Ok true ->
       Info.check_unit compile name unit include = Ok false ->
       ~ List.NoDup marks).
Proof.
  revert acc l. induction units as [|[name0 unit0] units IH]; intros acc l; simpl.
  - intros [= <-]. exists []. rewrite app_nil_r. done.
  - destruct (Info.mark compile exclude include acc name0 unit0) as [l0|] eqn:E; [|done].
    intros H. apply info_mark_spec in E as (m0 & -> & Hm0 & Hex0 & Hdb0).
    apply IH in H as (m & -> & Hm & Hex & Hdb).
    exists (m0 ++ m). rewrite app_assoc. split; [done|]. split; [|split].
    + intros k Hk. apply in_app_or in Hk as [Hk|Hk]; [left; symmetry; auto|right; auto].
    + intros name unit [[= <- <-]|Hin] Ht Hc; apply in_or_app; [left; auto|right; eauto].
    + intros name unit [[= <- <-]|Hin] Ht Ht' Hc Hc' Hnd.
      * rewrite (Hdb0 Ht Ht' Hc Hc') in Hnd. simpl in Hnd.
        apply List.NoDup_cons_iff in Hnd as [Hnd _]. apply Hnd. by left.
      * apply List.NoDup_app_remove_l in Hnd. by apply (Hdb name unit).
Qed.

(** Exclusion wins whenever [Info.apply_pattern] completes: a unit
    that matches the exclude rule is not in the store it leaves. *)
Lemma excluded_unit_is_removed (d d' : store) name unit :
  PyDict.wf d ->
  Info.apply_pattern compile exclude include d = (d', Ok tt) ->
  In (name, unit) d ->
  pattern_truthy exclude = true ->
  Info.check_unit compile name unit exclude = Ok true ->
  ~ In name (PyDict.keys d').
Proof.
  intros Hwf H Hin Ht Hc. unfold Info.apply_pattern in H.
  destruct (Info.mark_all compile exclude include [] d) as [l|] eqn:E; [|done].
  apply info_mark_all_spec in E as (m & -> & _ & Hex & _). simpl in H.
  destruct (del_each_completed _ _ _ Hwf H) as [_ Hl].
  by apply (Hl name), (Hex name unit).
Qed.

(** A unit that matches the exclude rule and fails the include rule
    is marked twice, and the second deletion raises [KeyError]. *)
Lemma double_mark_raises (d : store) name unit l :
  PyDict.wf d ->
  Info.mark_all compile exclude include [] d = Ok l ->
  In (name, unit) d ->
  pattern_truthy exclude = true -> pattern_truthy include = true ->
  Info.check_unit compile name unit exclude = Ok true ->
  Info.check_unit compile name unit include = Ok false ->
  exists d' k, Info.apply_pattern compile exclude include d = (d', Raise (KeyError k)).
Proof.
  intros Hwf E Hin Ht Ht' Hc Hc'. unfold Info.apply_pattern. rewrite E.
  apply info_mark_all_spec in E as (m & -> & _ & _ & Hdb). simpl.
  destruct (Info.del_each m d) as [d' r] eqn:Ed.
  destruct (del_each_outcome _ _ _ _ Ed) as [->|(k & _ & ->)]; [|eauto].
  destruct (del_each_completed _ _ _ Hwf Ed) as [Hnd _].
  by destruct (Hdb name unit Hin Ht Ht' Hc Hc').
Qed.

(** [BenchRepo.apply_pattern] collects the marks in a set, so its
    deletion loop never raises: it leaves the units that are not
    marked. *)
Lemma bench_mark_all_subset units acc (s : gset string) :
  BenchRepo.mark_all compile exclude include acc units = Ok s ->
  forall k, k ∈ s -> k ∈ acc \/ In k (PyDict.keys units).
Proof.
  revert acc s. induction units as [|[name0 unit0] units IH]; intros acc s; simpl.
  - intros [= <-]. auto.
  - destruct (BenchRepo.mark compile exclude include acc name0 unit0) as [s0|] eqn:E; [|done].
    intros H k Hk. destruct (IH _ _ H k Hk) as [Hk0|Hk0]; [|auto].
    assert (k ∈ acc \/ k = name0) as [? | ->]; [|auto|auto].
    revert E. unfold BenchRepo.mark.
    destruct (pattern_truthy exclude), (pattern_truthy include);
      repeat match goal with
        | |- context [BenchRepo.check_unit compile name0 unit0 ?p] =>
            destruct (BenchRepo.check_unit compile name0 unit0 p) as [[]|]
        end;
      intros [= <-]; set_solver.
Qed.

Lemma bench_apply_pattern_completes (d : store) (s : gset string) :
  PyDict.wf d ->
  BenchRepo.mark_all compile exclude include ∅ d = Ok s ->
  BenchRepo.apply_pattern compile exclude include d
  = (List.filter (fun unit => negb (existsb (String.eqb (fst unit)) (elements s))) d,
     Ok tt).
Proof.
  intros Hwf E. unfold BenchRepo.apply_pattern. rewrite E, bench_del_each.
  apply del_each_distinct; [done| |].
  - apply NoDup_ListNoDup, NoDup_elements.
  - intros k Hk. apply list_elem_of_In, elem_of_elements in Hk.
    destruct (bench_mark_all_subset _ _ _ E k Hk) as [?|?]; [set_solver|done].
Qed.

End ApplyPattern.

(** C3: [Info.check_unit] calls [re.match], which only finds a match
    that starts at the first character: the pattern [ode0] occurs
    inside the unit name [node01] and is not reported, where
    [BenchRepo.check_unit], the same function with [re.search], reports
    it. *)
Theorem info_check_unit_is_anchored :
  Info.check_unit Re.parse "node01" [] (PStr "ode0") = Ok false
  /\ BenchRepo.check_unit Re.parse "node01" [] (PStr "ode0") = Ok true
  /\ exists r, Re.parse "ode0" = Some r
            /\ Re.matches r "ode0"
            /\ "node01" = "n" +:+ "ode0" +:+ "1".
Proof.
  split; [reflexivity|]. split; [reflexivity|].
  eexists. split; [reflexivity|]. split; [|reflexivity].
  by apply accepts_spec.
Qed.

(** C4: [Info.apply_pattern] appends a unit to [to_remove] once for
    matching the exclude rule and once more for failing the include
    rule; the second [del] of that key raises [KeyError].  On the same
    input [BenchRepo.apply_pattern], which keeps a set, completes. *)
Theorem apply_pattern_raises_key_error :
  Info.apply_pattern Re.parse (PStr "node0") (PStr "login")
    [("node01", [("state", AStr "idle")])]
  = ([], Raise (KeyError "node01"))
  /\ BenchRepo.apply_pattern Re.parse (PStr "node0") (PStr "login")
       [("node01", [("state", AStr "idle")])]
     = ([], Ok tt).
Proof. split; vm_compute; reflexivity. Qed.

(** C5: the unit [node01] matches the exclude rule and the include
    rule, yet it is still in the store after [Info.apply_pattern]: the
    unit [login1] before it is excluded and not included, is marked
    twice, and the [KeyError] of its second deletion ends the pass
    before [node01] is reached. *)
Theorem excluded_unit_survives_key_error :
  let exclude := PList [LStr "login"; LStr "node0.*"] in
  let include := PStr "node.*" in
  Info.check_unit Re.parse "node01" [] exclude = Ok true
  /\ Info.check_unit Re.parse "node01" [] include = Ok true
  /\ Info.apply_pattern Re.parse exclude include [("login1", []); ("node01", [])]
     = ([("node01", [])], Raise (KeyError "login1")).
Proof. repeat split; vm_compute; reflexivity. Qed.

(** The scenario of the specification on its own: [node01] goes. *)
Example node01_alone_is_removed :
  Info.apply_pattern Re.parse (PStr "node0.*") (PStr "node.*") [("node01", [])]
  = ([], Ok tt).
Proof. vm_compute. reflexivity. Qed.

(** ** Transforms *)

Section ModifyFacts.
Variable globals : registry.

(** The log is only written, never read. *)
Lemma apply_funcs_log names v log1 log2 :
  fst (fst (Info.apply_funcs globals names v log1))
  = fst (fst (Info.apply_funcs globals names v log2))
  /\ snd (Info.apply_funcs globals names v log1)
     = snd (Info.apply_funcs globals names v log2).
Proof.
  revert v log1 log2. induction names as [|f names IH]; intros v log1 log2; simpl; [done|].
  destruct (Info.call_global globals f v) as [v'|e]; [apply IH|].
  destruct e; first [apply IH | done].
Qed.

(** A name that is not bound can be dropped from the list: the value
    of the field and the outcome are the same. *)
Lemma apply_funcs_unknown u before after v log :
  globals u = None ->
  fst (fst (Info.apply_funcs globals (before ++ u :: after) v log))
  = fst (fst (Info.apply_funcs globals (before ++ after) v log))
  /\ snd (Info.apply_funcs globals (before ++ u :: after) v log)
     = snd (Info.apply_funcs globals (before ++ after) v log).
Proof.
  intros Hu. revert v log. induction before as [|f before IH]; intros v log; simpl.
  - unfold Info.call_global. rewrite Hu. apply apply_funcs_log.
  - destruct (Info.call_global globals f v) as [v'|e]; [apply IH|].
    destruct e; first [apply IH | done].
Qed.

Lemma modify_item_keys modify_dict item skipped log :
  PyDict.keys (fst (fst (fst (Info.modify_item globals modify_dict item skipped log))))
  = PyDict.keys item.
Proof.
  revert item skipped log.
  induction modify_dict as [|[key m] rest IH]; intros item skipped log; simpl; [done|].
  destruct (PyDict.get key item) as [v|] eqn:E; [|apply IH].
  destruct (Info.apply_funcs globals (Info.func_names m) v log) as [[v' log'] r].
  assert (PyDict.keys (PyDict.set key v' item) = PyDict.keys item) as Hk.
  { rewrite keys_set. unfold PyDict.mem. by rewrite E. }
  destruct r; simpl; [|done]. by rewrite IH.
Qed.

(** [modify] never adds or removes a unit, however it ends. *)
Lemma modify_items_keys modify_dict d skipped log :
  PyDict.keys (fst (fst (fst (Info.modify_items globals modify_dict d skipped log))))
  = PyDict.keys d.
Proof.
  revert skipped log. induction d as [|[name item] d IH]; intros skipped log; simpl; [done|].
  destruct (Info.modify_item globals modify_dict item skipped log)
    as [[[item' skipped'] log'] r].
  destruct r; simpl; [|done].
  specialize (IH skipped' log').
  destruct (Info.modify_items globals modify_dict d skipped' log')
    as [[[rest' skipped''] log''] r']. simpl in *. by rewrite IH.
Qed.

Lemma modify_keys modify_dict d :
  PyDict.keys (fst (fst (Info.modify globals modify_dict d))) = PyDict.keys d.
Proof.
  unfold Info.modify. pose proof (modify_items_keys modify_dict d ∅ []) as H.
  destruct (Info.modify_items globals modify_dict d ∅ []) as [[[d' skipped] log] r].
  simpl in H. by destruct r.
Qed.

End ModifyFacts.

(** C8, as the code has it: in [Info.modify] a function name that is
    not defined is logged and skipped: the field keeps its value, the
    functions after it are still applied, the fields after it are
    still processed, and no unit is removed.  In
    [FileParser.process_transformed_records] a transform that is not
    defined drops the record. *)
Theorem undefined_transform (globals : registry) (u : string) :
  globals u = None ->
  (forall v log,
     Info.apply_funcs globals [u] v log = (v, log ++ [NotDefined u v], Ok tt))
  /\ (forall before after v log,
        fst (fst (Info.apply_funcs globals (before ++ u :: after) v log))
        = fst (fst (Info.apply_funcs globals (before ++ after) v log))
        /\ snd (Info.apply_funcs globals (before ++ u :: after) v log)
           = snd (Info.apply_funcs globals (before ++ after) v log))
  /\ (forall key v rest item skipped log,
        PyDict.get key item = Some v ->
        Info.modify_item globals ((key, MList [u]) :: rest) item skipped log
        = Info.modify_item globals rest item skipped (log ++ [NotDefined u v]))
  /\ (forall modify_dict d,
        PyDict.keys (fst (fst (Info.modify globals modify_dict d))) = PyDict.keys d)
  /\ (forall compile m_def rest raw_rec key v,
        PyStr.truthy u = true ->
        m_name m_def = Some key ->
        PyDict.get key (m_apply m_def) = Some u ->
        PyDict.get key raw_rec = Some v ->
        Files.process_transformed_records compile globals (m_def :: rest) [raw_rec] = []).
Proof.
  intros Hu.
  assert (forall v log,
            Info.apply_funcs globals [u] v log = (v, log ++ [NotDefined u v], Ok tt)) as H1.
  { intros v log. simpl. unfold Info.call_global. by rewrite Hu. }
  split; [exact H1|]. split; [|split; [|split]].
  - intros. by apply apply_funcs_unknown.
  - intros key v rest item skipped log Hget. cbn [Info.modify_item]. rewrite Hget.
    change (Info.func_names (MList [u])) with [u]. rewrite H1.
    by rewrite (set_same _ _ _ Hget).
  - apply modify_keys.
  - intros compile m_def rest raw_rec key v Ht Hname Happly Hget.
    assert (Files.transform_key globals (m_apply m_def) raw_rec key = None) as Hk.
    { unfold Files.transform_key. by rewrite Hget, Happly, Ht, Hu. }
    unfold Files.process_transformed_records, Files.process_record.
    cbn [Files.transform_record].
    destruct (m_apply m_def) as [|a apply_config] eqn:Ea; [done|].
    unfold Files.metric_keys. rewrite Hname.
    cbn [Files.transform_keys omap list_omap]. by rewrite Hk.
Qed.

Lemma undefined_transform_witness :
  Info.apply_funcs Sample.table ["nope"] (AStr "a") []
  = (AStr "a", [NotDefined "nope" (AStr "a")], Ok tt).
Proof.
  exact (proj1 (undefined_transform Sample.table "nope" eq_refl) (AStr "a") []).
Defined.

(** C8 as stated fails in the file parser: the metric [v] names a
    transform that is not defined, and the record that has a [v] is
    not among the records returned. *)
Lemma file_record_is_dropped :
  Sample.table "no_such_function" = None
  /\ Files.process_transformed_records Re.parse Sample.table [Sample.bad_metric]
       [[("v", AStr "a")]; [("w", AStr "b")]]
     = [[("w", AStr "b")]].
Proof. split; reflexivity. Qed.

(** ** Aggregation *)

Section AggregationFacts.
Variable py_float : atom -> option float.
Variable py_sum : list float -> float.
Variable repr_float : float -> string.
Variable format_atom : string -> atom -> result string.
Variable format_float : string -> float -> result string.
Variable default_map : record.

(** The loop appends the accepted values in order and counts the
    refused ones; [None] is neither. *)
Lemma collect_numeric_fold metric group acc n :
  fold_left
    (fun '(numeric_values, non_numeric_count) r_rec =>
       let raw_val := Files._get_value_with_default default_map r_rec metric in
       if is_none raw_val then (numeric_values, non_numeric_count)
       else match py_float raw_val with
            | Some x => (numeric_values ++ [x], non_numeric_count)
            | None => (numeric_values, S non_numeric_count)
            end)
    group (acc, n)
  = (acc ++ Spec.coercible py_float default_map metric group,
     (n + length
            (List.filter
               (fun v => negb (is_none v)
                         && match py_float v with Some _ => false | None => true end)
               (map (fun r => Files._get_value_with_default default_map r metric) group)))%nat).
Proof.
  unfold Spec.coercible. revert acc n.
  induction group as [|r group IH]; intros acc n; simpl.
  - by rewrite app_nil_r, Nat.add_0_r.
  - destruct (is_none (Files._get_value_with_default default_map r metric)) eqn:En; simpl.
    + apply IH.
    + destruct (py_float (Files._get_value_with_default default_map r metric)) as [x|] eqn:Ef;
        simpl; rewrite IH.
      * by rewrite <- app_assoc.
      * f_equal. lia.
Qed.

Lemma collect_numeric_spec metric group :
  fst (Files.collect_numeric py_float default_map metric group)
  = Spec.coercible py_float default_map metric group.
Proof. unfold Files.collect_numeric. by rewrite collect_numeric_fold. Qed.

End AggregationFacts.

(** C7: [aggregate: avg] over a source field is the sum of the values
    that [float] accepts divided by their number; the values it
    refuses and the missing ones are in neither.  A group without any
    numeric value gives the empty string. *)
Theorem avg_is_mean_of_numeric
  (py_float : atom -> option float) (py_sum : list float -> float)
  (repr_float : float -> string)
  (format_atom : string -> atom -> result string)
  (format_float : string -> float -> result string)
  (default_map : record) (metric : string) (i : instruction) (group : list record) :
  i_source i = Some metric ->
  PyStr.truthy metric = true ->
  Files.wrap_of i = None ->
  let xs := Spec.coercible py_float default_map metric group in
  fst (Files.collect_numeric py_float default_map metric group) = xs
  /\ Files.aggregate_column py_float py_sum repr_float format_atom format_float
       default_map "avg" i group
     = match xs with
       | [] => Ok (AStr EmptyString)
       | _ :: _ =>
           Ok (AStr (repr_float
                       (PrimFloat.div (py_sum xs) (Files.float_of_nat (length xs)))))
       end.
Proof.
  intros Hsrc Htruthy Hwrap xs. subst xs.
  split; [apply collect_numeric_spec|].
  unfold Files.aggregate_column. rewrite Hsrc, Htruthy, collect_numeric_spec. simpl.
  destruct (Spec.coercible py_float default_map metric group) as [|x xs]; [done|].
  by rewrite Hwrap.
Qed.

(** The scenario of the specification: [10], [20] and [x] average to
    [15.0]. *)
Lemma avg_is_mean_of_numeric_witness :
  Files.aggregate_column Sample.float_of_atom Sample.sum_floats Sample.str_of_float
    Sample.format_plain Sample.format_plain_float [] "avg" Sample.avg_column
    Sample.avg_records
  = Ok (AStr "15.0").
Proof.
  exact (proj2 (avg_is_mean_of_numeric Sample.float_of_atom Sample.sum_floats
                  Sample.str_of_float Sample.format_plain Sample.format_plain_float
                  [] "v" Sample.avg_column Sample.avg_records eq_refl eq_refl eq_refl)).
Defined.

Example avg_scenario_rows :
  Files._output_mode_file Sample.float_of_atom Sample.sum_floats Sample.str_of_float
    Sample.format_plain Sample.format_plain_float [] [] "idx"
    [("avg_v", Sample.avg_column)] Sample.avg_records
  = Ok ([[("avg_v", AStr "15.0")]], ["avg_v"]).
Proof. vm_compute. reflexivity. Qed.

(** ** Merging stores *)

(** C1: [Info.add] takes an empty dictionary for a missing [add_to]
    ([if not add_to]) and writes to [self._dict] instead.  Merging
    [{"n1": {"x": "1"}}] into [{"n1": {}}] leaves the unit [n1] empty
    and puts its field [x] next to it, at the top of the store, where
    the deep merge of the two stores has [x] inside [n1]. *)
Theorem add_writes_to_root_for_empty_dict :
  let a := [("n1", VDict [])] in
  let b := [("n1", VDict [("x", VAtom (AStr "1"))])] in
  Info.merge a b = Some (VDict [("n1", VDict []); ("x", VAtom (AStr "1"))])
  /\ Spec.deep_merge a b = [("n1", VDict [("x", VAtom (AStr "1"))])].
Proof. split; reflexivity. Qed.

(** With a non-empty unit on the left the same call merges as
    specified. *)
Example add_merges_non_empty :
  Info.merge [("n1", VDict [("y", VAtom (AStr "0")); ("x", VAtom (AStr "0"))])]
             [("n1", VDict [("x", VAtom (AStr "1"))]); ("n2", VDict [])]
  = Some (VDict [("n1", VDict [("y", VAtom (AStr "0")); ("x", VAtom (AStr "1"))]);
                 ("n2", VDict [])]).
Proof. reflexivity. Qed.

(** *** When [add] is the deep merge *)

Section MergeFacts.
Import Mem.

(** Induction on nested dictionaries. *)
Lemma value_nested_ind (P : value -> Prop) :
  (forall a, P (VAtom a)) ->
  (forall d, Forall (fun kv => P (snd kv)) d -> P (VDict d)) ->
  forall v, P v.
Proof.
  intros Hatom Hdict. fix IH 1. intros [a|d]; [apply Hatom|].
  apply Hdict. induction d as [|[k v] d IHd]; constructor; [apply IH|apply IHd].
Qed.

(** Induction on [tree] and [trees] together. *)
Lemma tree_trees_ind (h : heap)
  (P : hval -> value -> gset nat -> Prop)
  (Q : list (string * hval) -> list (string * value) -> gset nat -> Prop) :
  (forall a, P (HAtom a) (VAtom a) ∅) ->
  (forall l o items fp,
     h !! l = Some o -> trees h o items fp -> Q o items fp -> l ∉ fp ->
     P (HRef l) (VDict items) ({[l]} ∪ fp)) ->
  Q [] [] ∅ ->
  (forall k v t o items fp1 fp2,
     tree h v t fp1 -> P v t fp1 -> trees h o items fp2 -> Q o items fp2 ->
     fp1 ## fp2 -> Q ((k, v) :: o) ((k, t) :: items) (fp1 ∪ fp2)) ->
  (forall v t fp, tree h v t fp -> P v t fp)
  /\ (forall o items fp, trees h o items fp -> Q o items fp).
Proof.
  intros Hatom Hdict Hnil Hcons.
  assert (forall items, Forall (fun kv => forall v fp, tree h v (snd kv) fp -> P v (snd kv) fp) items ->
                        forall o fp, trees h o items fp -> Q o items fp) as Hlist.
  { induction 1 as [|[k t] items Ht _ IH]; intros o fp Hts; inversion Hts; subst; [done|].
    eapply Hcons; eauto. }
  assert (forall t v fp, tree h v t fp -> P v t fp) as Htree.
  { induction t as [a|d IH] using value_nested_ind; intros v fp Ht; inversion Ht; subst; [done|].
    eapply Hdict; eauto. }
  split; [intros; by apply Htree|].
  intros o items fp. apply Hlist. clear -Htree.
  induction items as [|[k t] items IH]; constructor; [intros; by apply Htree|done].
Qed.

Lemma tree_bounded h :
  (forall v t fp, tree h v t fp -> forall l, l ∈ fp -> l < length h)
  /\ (forall o items fp, trees h o items fp -> forall l, l ∈ fp -> l < length h).
Proof.
  apply tree_trees_ind.
  - set_solver.
  - intros l o items fp Hl _ IH _ x [Hx|Hx]%elem_of_union; [|auto].
    apply elem_of_singleton in Hx as ->. by apply lookup_lt_Some in Hl.
  - set_solver.
  - intros k v t o items fp1 fp2 _ IH1 _ IH2 _ x [Hx|Hx]%elem_of_union; auto.
Qed.

(** A tree only depends on the objects of its footprint. *)
Lemma tree_frame h h' :
  (forall v t fp, tree h v t fp ->
     (forall l, l ∈ fp -> h' !! l = h !! l) -> tree h' v t fp)
  /\ (forall o items fp, trees h o items fp ->
        (forall l, l ∈ fp -> h' !! l = h !! l) -> trees h' o items fp).
Proof.
  apply tree_trees_ind.
  - constructor.
  - intros l o items fp Hl _ IH Hnin Hag. apply (tree_dict h' l o); [|apply IH|done].
    + rewrite Hag; [done|set_solver].
    + intros x Hx. apply Hag. set_solver.
  - constructor.
  - intros k v t o items fp1 fp2 _ IH1 _ IH2 Hd Hag. constructor; [apply IH1|apply IH2|done];
      intros x Hx; apply Hag; set_solver.
Qed.

(** Reading a key of a tree-shaped object. *)
Lemma trees_get h o items fp k :
  trees h o items fp ->
  match PyDict.get k items with
  | None => PyDict.get k o = None
  | Some t => exists v fpk, PyDict.get k o = Some v /\ tree h v t fpk /\ fpk ⊆ fp
  end.
Proof.
  induction 1 as [|k0 v t o items fp1 fp2 Ht Hts IH Hd]; simpl; [done|].
  destruct (String.eqb k k0).
  - exists v, fp1. split; [done|]. split; [done|set_solver].
  - destruct (PyDict.get k items) as [t'|]; [|done].
    destruct IH as (v' & fpk & ? & ? & ?). exists v', fpk. split; [done|]. split; [done|set_solver].
Qed.


Lemma copy_items_trees d :
  Forall (fun kv => forall h c h', deepcopy (snd kv) h = (c, h') ->
            exists ext fp, h' = h ++ ext /\ tree h' c (snd kv) fp
                           /\ forall l, l ∈ fp -> length h <= l) d ->
  forall h items h',
    copy_items deepcopy d h = (items, h') ->
    exists ext fp, h' = h ++ ext /\ trees h' items d fp
                   /\ forall l, l ∈ fp -> length h <= l.
Proof.
  induction 1 as [|[k v] d Hv _ IH]; intros h items h'; simpl.
  - intros [= <- <-]. exists [], ∅. rewrite app_nil_r. split; [done|].
    split; [constructor|set_solver].
  - destruct (deepcopy v h) as [c h0] eqn:Ec.
    destruct (copy_items deepcopy d h0) as [cs h2] eqn:Ecs.
    intros [= <- <-].
    destruct (Hv _ _ _ Ec) as (e1 & fp1 & -> & Ht & Hf1).
    destruct (IH _ _ _ Ecs) as (e2 & fp2 & -> & Hts & Hf2).
    exists (e1 ++ e2), (fp1 ∪ fp2). rewrite app_assoc. split; [done|].
    pose proof (proj1 (tree_bounded _) _ _ _ Ht) as Hb1.
    split; [constructor; [|done|]|].
    + apply (proj1 (tree_frame (h ++ e1) _) _ _ _ Ht).
      intros l Hl. apply lookup_app_l. auto.
    + intros l Hl1 Hl2. apply Hb1 in Hl1. apply Hf2 in Hl2. lia.
    + intros l [Hl|Hl]%elem_of_union; [auto|].
      apply Hf2 in Hl. rewrite length_app in Hl. lia.
Qed.

(** A deep copy is a tree of new objects; the heap before it is
    untouched. *)
Lemma deepcopy_tree v :
  forall h c h', deepcopy v h = (c, h') ->
    exists ext fp, h' = h ++ ext /\ tree h' c v fp
                   /\ forall l, l ∈ fp -> length h <= l.
Proof.
  induction v as [a|d IH] using value_nested_ind; intros h c h'; simpl.
  - intros [= <- <-]. exists [], ∅. rewrite app_nil_r. split; [done|].
    split; [constructor|set_solver].
  - destruct (copy_items deepcopy d h) as [items h1] eqn:E. intros [= <- <-].
    destruct (copy_items_trees d IH _ _ _ E) as (e1 & fp & -> & Hts & Hf).
    pose proof (proj2 (tree_bounded _) _ _ _ Hts) as Hb.
    exists (e1 ++ [items]), ({[length (h ++ e1)]} ∪ fp). rewrite app_assoc.
    split; [done|]. split.
    + apply (tree_dict _ _ items).
      * by rewrite list_lookup_middle.
      * apply (proj2 (tree_frame (h ++ e1) _) _ _ _ Hts).
        intros l Hl. apply lookup_app_l. auto.
      * intros Hl. apply Hb in Hl. lia.
    + intros l [Hl|Hl]%elem_of_union; [|auto].
      apply elem_of_singleton in Hl as ->. rewrite length_app. lia.
Qed.

(** Storing a tree of new objects under a key. *)
Lemma trees_set_fresh h h' n o items fp k c t fpc :
  trees h o items fp ->
  (forall l, l ∈ fp -> l < n) ->
  (forall l, l ∈ fp -> h' !! l = h !! l) ->
  tree h' c t fpc ->
  (forall l, l ∈ fpc -> n <= l) ->
  exists fp', trees h' (PyDict.set k c o) (PyDict.set k t items) fp' /\ fp' ⊆ fp ∪ fpc.
Proof.
  intros Hts. revert fpc.
  induction Hts as [|k0 v0 t0 o items fp1 fp2 Ht0 Hts IH Hd]; intros fpc Hb Hag Hc Hf; simpl.
  - exists (fpc ∪ ∅). split; [|set_solver]. constructor; [done|constructor|set_solver].
  - assert (trees h' o items fp2) as Hts'.
    { apply (proj2 (tree_frame h h') _ _ _ Hts). intros; apply Hag; set_solver. }
    destruct (String.eqb k k0).
    + exists (fpc ∪ fp2). split; [|set_solver]. constructor; [done|done|].
      intros l Hl1 Hl2. apply Hf in Hl1. specialize (Hb l). set_solver by lia.
    + destruct (IH fpc) as (fp' & Hts'' & Hsub); [set_solver..|done|done|].
      exists (fp1 ∪ fp'). split; [|set_solver]. constructor; [|done|].
      * apply (proj1 (tree_frame h h') _ _ _ Ht0). intros; apply Hag; set_solver.
      * intros l Hl1 Hl2. apply Hsub in Hl2 as [Hl2|Hl2]%elem_of_union; [set_solver|].
        apply Hf in Hl2. assert (l < n) by (apply Hb; set_solver). lia.
Qed.

(** Replacing the tree under a key by one that lives where the old one
    lived, or in new objects. *)
Lemma trees_replace h n o items fp k told :
  trees h o items fp ->
  (forall l, l ∈ fp -> l < n) ->
  PyDict.get k items = Some told ->
  exists v fpk,
    PyDict.get k o = Some v /\ tree h v told fpk /\ fpk ⊆ fp /\
    forall h' t' fpk',
      (forall l, l ∈ fp -> l ∉ fpk -> h' !! l = h !! l) ->
      tree h' v t' fpk' ->
      (forall l, l ∈ fpk' -> l ∈ fpk \/ n <= l) ->
      exists fp', trees h' o (PyDict.set k t' items) fp'
                  /\ forall l, l ∈ fp' -> l ∈ fp \/ n <= l.
Proof.
  induction 1 as [|k0 v0 t0 o items fp1 fp2 Ht0 Hts IH Hd]; intros Hb; simpl; [done|].
  destruct (String.eqb k k0).
  - intros [= <-]. exists v0, fp1. split; [done|]. split; [done|]. split; [set_solver|].
    intros h' t' fpk' Hag Ht' Hf. exists (fpk' ∪ fp2). split.
    + constructor; [done| |].
      * apply (proj2 (tree_frame h h') _ _ _ Hts). intros l Hl. apply Hag; set_solver.
      * intros l Hl1 Hl2. apply Hf in Hl1 as [Hl1|Hl1]; [set_solver|].
        assert (l < n) by (apply Hb; set_solver). lia.
    + intros l [Hl|Hl]%elem_of_union; [|set_solver].
      apply Hf in Hl as [Hl|Hl]; [set_solver|auto].
  - intros Hget. destruct IH as (v & fpk & Hv & Ht & Hsub & Hrep); [set_solver|done|].
    exists v, fpk. split; [done|]. split; [done|]. split; [set_solver|].
    intros h' t' fpk' Hag Ht' Hf.
    destruct (Hrep h' t' fpk') as (fp' & Hts' & Hin); [|done|done|].
    { intros l Hl Hl'. apply Hag; set_solver. }
    exists (fp1 ∪ fp'). split.
    + constructor; [|done|].
      * apply (proj1 (tree_frame h h') _ _ _ Ht0). intros l Hl. apply Hag; set_solver.
      * intros l Hl1 Hl2. apply Hin in Hl2 as [Hl2|Hl2]; [set_solver|].
        assert (l < n) by (apply Hb; set_solver). lia.
    + intros l [Hl|Hl]%elem_of_union; [set_solver|].
      apply Hin in Hl as [Hl|Hl]; [set_solver|auto].
Qed.


(** How a call leaves the heap: the tree it worked on lives in its old
    objects or in new ones, and every other old object is as before. *)
Local Notation "'frames' h fp h' fp'" :=
  ((forall x, x ∈ fp' -> x ∈ fp \/ length h <= x)
   /\ length h <= length h'
   /\ (forall x, x < length h -> x ∉ fp -> h' !! x = h !! x))
  (at level 10, h at level 9, fp at level 9, h' at level 9, fp' at level 9).

Lemma frames_trans (h h1 h2 : heap) (fp fp1 fp2 : gset nat) :
  frames h fp h1 fp1 -> frames h1 fp1 h2 fp2 -> frames h fp h2 fp2.
Proof.
  intros (Ha & Hb & Hc) (Ha' & Hb' & Hc'). split; [|split; [lia|]].
  - intros x Hx. destruct (Ha' x Hx) as [Hx1|Hx1]; [auto|right; lia].
  - intros x Hx Hnin. rewrite Hc', Hc; [done|done|done|lia|].
    intros Hx1. destruct (Ha x Hx1) as [?|?]; [done|lia].
Qed.

(** [add_to[bk] = deepcopy(bv)] *)
Lemma store_copy_tree h l a fp bk bv c h1 :
  tree h (HRef l) (VDict a) fp ->
  deepcopy bv h = (c, h1) ->
  exists fp2,
    tree (store_item l bk c h1) (HRef l) (VDict (PyDict.set bk bv a)) fp2
    /\ frames h fp (store_item l bk c h1) fp2.
Proof.
  intros Ht Hc. inversion Ht as [|? o ? fpo Hl Hts Hnin]; subst.
  destruct (deepcopy_tree _ _ _ _ Hc) as (ext & fpc & -> & Htc & Hfc).
  pose proof (lookup_lt_Some _ _ _ Hl) as Hlt.
  pose proof (proj2 (tree_bounded _) _ _ _ Hts) as Hbo.
  unfold store_item, deref. rewrite (lookup_app_l_Some _ _ _ _ Hl). simpl.
  set (h2 := <[l:=PyDict.set bk c o]> (h ++ ext)).
  assert (forall x, x <> l -> h2 !! x = (h ++ ext) !! x) as Hne.
  { intros x Hx. subst h2. by rewrite list_lookup_insert_ne. }
  assert (tree h2 c bv fpc) as Htc2.
  { apply (proj1 (tree_frame (h ++ ext) h2) _ _ _ Htc).
    intros x Hx. apply Hne. apply Hfc in Hx. lia. }
  destruct (trees_set_fresh h h2 (length h) o a fpo bk c bv fpc) as (fp' & Hts' & Hsub);
    [done|done| |done|done|].
  { intros x Hx. rewrite Hne; [|set_solver]. apply lookup_app_l. auto. }
  assert (l ∉ fp') as Hnin'.
  { intros Hin. apply Hsub in Hin as [Hin|Hin]%elem_of_union; [done|].
    apply Hfc in Hin. lia. }
  exists ({[l]} ∪ fp'). split; [|split; [|split]].
  - apply (tree_dict _ _ (PyDict.set bk c o)); [|done|done].
    subst h2. apply list_lookup_insert_eq. rewrite length_app. lia.
  - intros x [Hx|Hx]%elem_of_union; [left; set_solver|].
    apply Hsub in Hx as [Hx|Hx]%elem_of_union; [left; set_solver|right; auto].
  - subst h2. rewrite length_insert, length_app. lia.
  - intros x Hx Hnx. rewrite Hne; [|set_solver]. by apply lookup_app_l.
Qed.

Lemma add_loop_cons add target bk bv rest h :
  Info.add_loop add target ((bk, bv) :: rest) h
  = Info.add_loop add target rest
      match PyDict.get bk (deref h target), bv with
      | Some (HRef av), VDict _ => add bv (Some av) h
      | _, _ => let '(c, h1) := deepcopy bv h in store_item target bk c h1
      end.
Proof. reflexivity. Qed.

Lemma merge_loop_cons merge bk bv rest a :
  Spec.merge_loop merge ((bk, bv) :: rest) a
  = Spec.merge_loop merge rest
      match PyDict.get bk a, bv with
      | Some (VDict av), VDict _ => PyDict.set bk (VDict (merge av bv)) a
      | _, _ => PyDict.set bk bv a
      end.
Proof. reflexivity. Qed.

Lemma meets_loop_cons meets bk bv rest a :
  Spec.meets_loop meets ((bk, bv) :: rest) a
  = match PyDict.get bk a, bv with
    | Some (VDict av), VDict _ =>
        match av with [] => false | _ => true end
        && meets av bv
        && Spec.meets_loop meets rest
             (PyDict.set bk (VDict (Spec.deep_merge_into av bv)) a)
    | _, _ => Spec.meets_loop meets rest (PyDict.set bk bv a)
    end.
Proof. reflexivity. Qed.

(** The loop of [add] on a tree, given that the recursive calls merge
    as specified. *)
Lemma add_loop_tree root l items :
  Forall (fun kv =>
            forall lv av h fp,
              tree h (HRef lv) (VDict av) fp -> av <> [] ->
              Spec.no_empty_meets av (snd kv) = true ->
              exists fp',
                tree (Info.add_rec root (snd kv) (Some lv) h) (HRef lv)
                     (VDict (Spec.deep_merge_into av (snd kv))) fp'
                /\ frames h fp (Info.add_rec root (snd kv) (Some lv) h) fp') items ->
  forall a h fp,
    tree h (HRef l) (VDict a) fp ->
    Spec.meets_loop Spec.no_empty_meets items a = true ->
    exists fp',
      tree (Info.add_loop (Info.add_rec root) l items h) (HRef l)
           (VDict (Spec.merge_loop Spec.deep_merge_into items a)) fp'
      /\ frames h fp (Info.add_loop (Info.add_rec root) l items h) fp'.
Proof.
  induction 1 as [|[bk bv] rest Hrec _ IH]; intros a h fp Ht Hm.
  - exists fp. split; [done|]. split; [auto|]. split; [done|done].
  - rewrite add_loop_cons, merge_loop_cons. rewrite meets_loop_cons in Hm.
    simpl in Hrec.
    assert (forall h1 a1 fp1,
              tree h1 (HRef l) (VDict a1) fp1 -> frames h fp h1 fp1 ->
              Spec.meets_loop Spec.no_empty_meets rest a1 = true ->
              exists fp',
                tree (Info.add_loop (Info.add_rec root) l rest h1) (HRef l)
                     (VDict (Spec.merge_loop Spec.deep_merge_into rest a1)) fp'
                /\ frames h fp (Info.add_loop (Info.add_rec root) l rest h1) fp') as Hnext.
    { intros h1 a1 fp1 Ht1 Hf1 Hm1. destruct (IH a1 h1 fp1 Ht1 Hm1) as (fp' & Ht' & Hf').
      exists fp'. split; [done|]. by apply (frames_trans h h1 _ fp fp1 fp'). }
    assert (Spec.meets_loop Spec.no_empty_meets rest (PyDict.set bk bv a) = true ->
            exists fp',
              tree (Info.add_loop (Info.add_rec root) l rest
                      (let '(c, h1) := deepcopy bv h in store_item l bk c h1))
                   (HRef l)
                   (VDict (Spec.merge_loop Spec.deep_merge_into rest (PyDict.set bk bv a)))
                   fp'
              /\ frames h fp (Info.add_loop (Info.add_rec root) l rest
                                (let '(c, h1) := deepcopy bv h in store_item l bk c h1))
                        fp') as Hcopy.
    { intros Hm1. destruct (deepcopy bv h) as [c h1] eqn:Ec.
      destruct (store_copy_tree h l a fp bk bv c h1 Ht Ec) as (fp2 & Ht2 & Hf2).
      by apply (Hnext _ _ fp2). }
    inversion Ht as [|? o ? fpo Hl Hts Hnin]; subst.
    pose proof (trees_get h o a fpo bk Hts) as Hget.
    pose proof (proj2 (tree_bounded _) _ _ _ Hts) as Hbo.
    assert (deref h l = o) as Hd by (unfold deref; by rewrite Hl). rewrite !Hd. clear Hd.
    destruct bv as [x|bitems].
    + assert (Spec.meets_loop Spec.no_empty_meets rest (PyDict.set bk (VAtom x) a) = true)
        as Hm1 by (by destruct (PyDict.get bk a) as [[|]|]).
      destruct (PyDict.get bk o) as [[|]|], (PyDict.get bk a) as [[|]|]; by apply Hcopy.
    + destruct (PyDict.get bk a) as [[x|av]|] eqn:Ea.
      * destruct Hget as (v & fpk & -> & Hv & _). inversion Hv; subst. by apply Hcopy.
      * apply andb_prop in Hm as [Hm Hm3]. apply andb_prop in Hm as [Hm1 Hm2].
        destruct (trees_replace h (length h) o a fpo bk (VDict av) Hts Hbo Ea)
          as (v & fpk & Hv & Htv & Hsub & Hrep).
        rewrite Hv. inversion Htv as [|lv ov ? fpv Hlv Htsv Hninv]; subst.
        destruct (Hrec lv av h _ Htv) as (fpk' & Htk' & Hfa & Hfb & Hfc);
          [by destruct av|done|].
        set (h1 := Info.add_rec root (VDict bitems) (Some lv) h) in *.
        destruct (Hrep h1 (VDict (Spec.deep_merge_into av (VDict bitems))) fpk')
          as (fpo' & Hts' & Hin'); [|done|done|].
        { intros x Hx Hnx. apply Hfc; [auto|done]. }
        apply (Hnext h1 _ ({[l]} ∪ fpo')); [| |done].
        -- apply (tree_dict _ _ o); [|done|].
           ++ rewrite Hfc; [done|by apply lookup_lt_Some in Hl|set_solver].
           ++ intros Hin. apply Hin' in Hin as [?|?]; [done|].
              apply lookup_lt_Some in Hl. lia.
        -- split; [|split; [done|]].
           ++ intros x [Hx|Hx]%elem_of_union; [left; set_solver|].
              apply Hin' in Hx as [?|?]; [left; set_solver|by right].
           ++ intros x Hx Hnx. apply Hfc; [done|set_solver].
      * rewrite Hget. by apply Hcopy.
Qed.


Lemma trees_nonempty h o items fp : trees h o items fp -> items <> [] -> o <> [].
Proof. by destruct 1. Qed.

(** [add] into a dictionary that is not empty merges as specified, as
    long as no empty mapping meets a mapping further down. *)
Lemma add_rec_tree (b : value) :
  forall root lv av h fp,
    tree h (HRef lv) (VDict av) fp -> av <> [] ->
    Spec.no_empty_meets av b = true ->
    exists fp',
      tree (Info.add_rec root b (Some lv) h) (HRef lv)
           (VDict (Spec.deep_merge_into av b)) fp'
      /\ frames h fp (Info.add_rec root b (Some lv) h) fp'.
Proof.
  induction b as [x|items IH] using value_nested_ind; intros root lv av h fp Ht Hne Hm.
  - exists fp. split; [done|]. split; [auto|]. split; [done|done].
  - simpl. inversion Ht as [|? o ? fpo Hl Hts Hnin]; subst.
    unfold deref. rewrite Hl. simpl.
    pose proof (trees_nonempty _ _ _ _ Hts Hne) as Ho.
    destruct o as [|kv o]; [done|].
    apply add_loop_tree; [|done|done].
    eapply Forall_impl; [exact IH|]. intros kv' H. apply H.
Qed.

(** The call [self.add(to_add)]. *)
Lemma add_tree root a b h fp :
  tree h (HRef root) (VDict a) fp ->
  Spec.no_empty_meets a (VDict b) = true ->
  exists fp',
    tree (Info.add root b h) (HRef root) (VDict (Spec.deep_merge a b)) fp'
    /\ frames h fp (Info.add root b h) fp'.
Proof.
  intros Ht Hm. unfold Info.add, Spec.deep_merge. simpl.
  apply add_loop_tree; [|done|done].
  apply Forall_forall. intros kv _ lv av h0 fp0. apply add_rec_tree.
Qed.

Lemma bounded_size (fp : gset nat) n : (forall x, x ∈ fp -> x < n) -> size fp <= n.
Proof.
  intros Hb. rewrite <- (size_set_seq (C := gset nat) 0 n).
  apply subseteq_size. intros x Hx. apply elem_of_set_seq. specialize (Hb x Hx). lia.
Qed.

(** Reading a tree back, with fuel for every object of it. *)
Lemma reify_tree h :
  (forall v t fp, tree h v t fp ->
     forall fuel, size fp <= fuel -> reify fuel h v = Some t)
  /\ (forall o items fp, trees h o items fp ->
        forall fuel, size fp <= fuel ->
        mapM (fun kv : string * hval => option_map (pair (fst kv)) (reify fuel h (snd kv))) o
        = Some items).
Proof.
  apply tree_trees_ind.
  - by intros a [|fuel].
  - intros l o items fp Hl _ IH Hnin fuel Hsize.
    rewrite size_union, size_singleton in Hsize by set_solver.
    destruct fuel as [|fuel]; [lia|]. simpl. rewrite Hl, IH; [done|lia].
  - done.
  - intros k v t o items fp1 fp2 _ IH1 _ IH2 Hd fuel Hsize.
    rewrite size_union in Hsize by done.
    simpl. rewrite IH1 by lia. simpl. rewrite IH2 by lia. done.
Qed.

End MergeFacts.

(** Where no empty mapping of [a] meets a mapping of [b], [Info.add]
    and [__add__] compute the deep merge of the specification. *)
Theorem merge_is_deep_merge (a b : list (string * value)) :
  Spec.no_empty_meets a (VDict b) = true ->
  Info.merge a b = Some (VDict (Spec.deep_merge a b)).
Proof.
  intros Hm. unfold Info.merge, Info.__add__.
  destruct (Mem.deepcopy (VDict a) []) as [r h] eqn:E.
  destruct (deepcopy_tree _ _ _ _ E) as (ext & fp & _ & Ht & _).
  inversion Ht as [|root o ? fpo Hl Hts Hnin]; subst.
  destruct (add_tree root a b h _ Ht Hm) as (fp' & Ht' & _).
  apply (proj1 (reify_tree _) _ _ _ Ht').
  pose proof (bounded_size fp' _ (proj1 (tree_bounded _) _ _ _ Ht')). lia.
Qed.

(** The deep merge, key by key: a key of [b] alone or of [a] alone
    keeps its value, two mappings are merged, and otherwise [b] wins. *)
Lemma merge_loop_get (items : list (string * value)) :
  PyDict.wf items ->
  forall a k,
    PyDict.get k (Spec.merge_loop Spec.deep_merge_into items a)
    = match PyDict.get k items with
      | None => PyDict.get k a
      | Some bv =>
          match PyDict.get k a, bv with
          | Some (VDict av), VDict _ => Some (VDict (Spec.deep_merge_into av bv))
          | _, _ => Some bv
          end
      end.
Proof.
  unfold PyDict.wf, PyDict.keys.
  induction items as [|[bk bv] rest IH]; intros Hwf a k; [done|].
  simpl in Hwf. apply NoDup_cons in Hwf as [Hnin Hwf].
  rewrite merge_loop_cons, IH by done. simpl.
  destruct (String.eqb k bk) eqn:E.
  - apply String.eqb_eq in E. subst k.
    assert (PyDict.get bk rest = None) as ->.
    { apply get_None_keys. by rewrite <- list_elem_of_In. }
    destruct (PyDict.get bk a) as [[x|av]|], bv as [y|bitems]; by rewrite get_set_eq.
  - apply String.eqb_neq in E.
    assert (forall v, PyDict.get k (PyDict.set bk v a) = PyDict.get k a) as Hset.
    { intros v. apply get_set_ne. congruence. }
    destruct (PyDict.get bk a) as [[x|av]|], bv as [y|bitems]; by rewrite Hset.
Qed.

(** X1: where no empty mapping of [a] meets a mapping of [b],
    [Info.__add__], a deep copy and then [Info.add], gives a store in
    which a key of one side alone keeps its value, two mappings are
    deep-merged, and otherwise [b] wins.  This is what C1 asks of the
    merged store, for the stores on which [add] stays clear of empty
    mappings. *)
Theorem merge_lookup (a b : list (string * value)) :
  Spec.no_empty_meets a (VDict b) = true ->
  PyDict.wf b ->
  exists m,
    Info.merge a b = Some (VDict m) /\
    forall k,
      PyDict.get k m
      = match PyDict.get k b with
        | None => PyDict.get k a
        | Some bv =>
            match PyDict.get k a, bv with
            | Some (VDict av), VDict bitems => Some (VDict (Spec.deep_merge av bitems))
            | _, _ => Some bv
            end
        end.
Proof.
  intros Hm Hwf. exists (Spec.deep_merge a b). split; [by apply merge_is_deep_merge|].
  intros k. unfold Spec.deep_merge. simpl. rewrite merge_loop_get by done.
  by destruct (PyDict.get k b) as [[|]|].
Qed.

Lemma merge_lookup_witness :
  exists m,
    Info.merge [("n1", VDict [("y", VAtom (AStr "0"))])]
               [("n1", VDict [("x", VAtom (AStr "1"))])] = Some (VDict m)
    /\ forall k,
        PyDict.get k m
        = match PyDict.get k [("n1", VDict [("x", VAtom (AStr "1"))])] with
          | None => PyDict.get k [("n1", VDict [("y", VAtom (AStr "0"))])]
          | Some bv =>
              match PyDict.get k [("n1", VDict [("y", VAtom (AStr "0"))])], bv with
              | Some (VDict av), VDict bitems => Some (VDict (Spec.deep_merge av bitems))
              | _, _ => Some bv
              end
          end.
Proof.
  apply (merge_lookup [("n1", VDict [("y", VAtom (AStr "0"))])]
           [("n1", VDict [("x", VAtom (AStr "1"))])]).
  - reflexivity.
  - unfold PyDict.wf. simpl. apply NoDup_singleton.
Defined.

(** ** Odds and ends *)

Lemma startswith_spec p s :
  PyStr.startswith p s = true <-> exists rest, s = p +:+ rest.
Proof.
  revert s. induction p as [|a p IH]; intros s; simpl.
  - split; [eauto|done].
  - destruct s as [|b s]; [split; [done|by intros [? ?]]|].
    destruct (Ascii.eqb a b) eqn:E.
    + apply Ascii.eqb_eq in E. subst b. rewrite IH. split.
      * intros [rest ->]. eauto.
      * intros [rest [= ->]]. eauto.
    + apply Ascii.eqb_neq in E. split; [done|]. intros [rest [= ? _]]. congruence.
Qed.

(** [p in s] holds exactly when [p] is a substring of [s]. *)
Lemma contains_spec p s :
  PyStr.contains p s = true <-> exists before rest, s = before +:+ p +:+ rest.
Proof.
  induction s as [|b s IH]; cbn [PyStr.contains].
  - rewrite orb_false_r, startswith_spec. split.
    + intros [rest ->]. by exists EmptyString, rest.
    + intros (before & rest & Hs). symmetry in Hs.
      apply app_eq_empty in Hs as [-> Hs]. eauto.
  - rewrite orb_true_iff, startswith_spec, IH. split.
    + intros [[rest ->]|(before & rest & ->)].
      * by exists EmptyString, rest.
      * by exists (String b before), rest.
    + intros (before & rest & Hs). destruct before as [|c before]; simpl in Hs.
      * left. eauto.
      * injection Hs as -> ->. right. eauto.
Qed.

(** The [<data>] elements [Info.to_LML] writes are those of the fields
    of its units, in order. *)
Lemma data_elems_are_data field :
  List.filter is_data (Info.data_elems field) = Info.data_elems field.
Proof.
  destruct field as [key value]. unfold Info.data_elems.
  destruct (PyStr.startswith "__nelems" key); [done|].
  destruct (PyStr.startswith "__" key); [done|].
  by destruct (negb (is_str value) || ne_str value EmptyString).
Qed.

Lemma write_infos_data d out :
  Info.write_infos d = (out, Ok tt) ->
  List.filter is_data out = flat_map (fun unit => flat_map Info.data_elems (snd unit)) d.
Proof.
  revert out. induction d as [|[key item] d IH]; intros out; simpl.
  - by intros [= <-].
  - destruct (PyDict.get "__id" item) as [id|]; [|done].
    destruct (Info.write_infos d) as [out' r] eqn:E. intros [= <- ->].
    simpl. rewrite List.filter_app. simpl. rewrite (IH _ eq_refl). f_equal.
    induction item as [|field item IHi]; simpl; [done|].
    by rewrite List.filter_app, data_elems_are_data, IHi.
Qed.

Lemma write_objects_no_data prefix stype digits units :
  forall i, List.filter is_data
              (snd (fst (Info.write_objects prefix stype digits i units))) = [].
Proof.
  induction units as [|[key item] rest IH]; intros i; simpl; [done|].
  destruct (PyDict.get "__id" item) as [id|] eqn:Eid.
  - rewrite Eid. destruct (Info.object_type stype item); [|done].
    specialize (IH i).
    by destruct (Info.write_objects prefix stype digits i rest) as [[? ?] ?].
  - destruct (Info.id_prefix prefix item) as [p|]; [|done].
    rewrite get_set_eq. destruct (Info.object_type stype _); [|done].
    specialize (IH (S i)).
    by destruct (Info.write_objects prefix stype digits (S i) rest) as [[? ?] ?].
Qed.

Lemma to_LML_data filename prefix stype d d' out :
  Info.to_LML filename prefix stype d = (d', out, Ok tt) ->
  List.filter is_data out = flat_map (fun unit => flat_map Info.data_elems (snd unit)) d'.
Proof.
  intros H. destruct (to_LML_completed _ _ _ _ _ _ H) as (_ & _ & _ & Hf & _).
  clear H. revert Hf. unfold Info.write_file.
  pose proof (write_objects_no_data prefix stype (id_digits (length d)) d
                (Info.first_index filename)) as Hobj.
  destruct (Info.write_objects prefix stype (id_digits (length d))
              (Info.first_index filename) d) as [[d1 objects] r1].
  destruct r1; [|done].
  destruct (Info.write_infos d1) as [infos r2] eqn:E. destruct r2; [|done].
  intros [= <- <-]. destruct a0. simpl in *.
  rewrite List.filter_app, Hobj. simpl.
  rewrite List.filter_app, (write_infos_data _ _ E). simpl. by rewrite app_nil_r.
Qed.

(** A field that is not a string cannot be searched: a rule on such a
    field makes both [apply_pattern]s raise [TypeError]. *)
Example rule_on_number_raises :
  Info.apply_pattern Re.parse (PDict [("load", RStr "1")]) (PStr EmptyString)
    [("node01", [("load", AInt 1)])]
  = ([("node01", [("load", AInt 1)])], Raise TypeError)
  /\ BenchRepo.apply_pattern Re.parse (PDict [("load", RStr "1")]) (PDict [])
       [("node01", [("load", AInt 1)])]
     = ([("node01", [("load", AInt 1)])], Raise TypeError).
Proof. split; vm_compute; reflexivity. Qed.

(** * The rest of the scrapers

    What the stores go through besides: reading blocks and query
    results into them, renaming fields, filtering lists and sets,
    merging configurations, and the two output modes of the file
    parser. *)

(** Unique keys of a given dictionary, by computation. *)
Ltac wf_dict := unfold PyDict.wf; apply (bool_decide_unpack _); vm_compute; reflexivity.

(** ** Rendering twice *)

Lemma write_objects_again prefix stype digits units :
  forall i d' out,
    Info.write_objects prefix stype digits i units = (d', out, Ok tt) ->
    forall prefix2 digits2 i2,
      Info.write_objects prefix2 stype digits2 i2 d' = (d', out, Ok tt).
Proof.
  induction units as [|[key item] rest IH]; intros i d' out; simpl.
  - intros [= <- <-]. done.
  - destruct (PyDict.get "__id" item) as [id|] eqn:Eid.
    + rewrite Eid. destruct (Info.object_type stype item) as [ty|] eqn:Ety; [|done].
      destruct (Info.write_objects prefix stype digits i rest) as [[rest' out'] r] eqn:E.
      intros [= <- <- ->]. intros p2 dg2 i2. simpl. rewrite Eid, Eid, Ety.
      by rewrite (IH _ _ _ E).
    + destruct (Info.id_prefix prefix item) as [p|]; [|done].
      rewrite get_set_eq.
      destruct (Info.object_type stype _) as [ty|] eqn:Ety; [|done].
      destruct (Info.write_objects prefix stype digits (S i) rest)
        as [[rest' out'] r] eqn:E.
      intros [= <- <- ->]. intros p2 dg2 i2. simpl. rewrite !get_set_eq, Ety.
      by rewrite (IH _ _ _ E).
Qed.

Lemma write_file_again filename prefix stype (d d' : store) out :
  Info.write_file filename prefix stype d = (d', out, Ok tt) ->
  forall filename2 prefix2,
    Info.write_file filename2 prefix2 stype d' = (d', out, Ok tt).
Proof.
  unfold Info.write_file.
  destruct (Info.write_objects prefix stype (id_digits (length d))
              (Info.first_index filename) d) as [[d1 objects] r1] eqn:E1.
  destruct r1 as [[]|]; [|done].
  destruct (Info.write_infos d1) as [infos r2] eqn:E2.
  destruct r2 as [[]|]; [|done].
  intros [= <- <-] filename2 prefix2.
  by rewrite (write_objects_again _ _ _ _ _ _ _ E1), E2.
Qed.

(** X2: [to_LML] can be repeated.  Once it has completed on a store,
    calling it again for the same file on the store it left, with any
    prefix and the same type, completes, writes the same elements and
    leaves the store as it is: every unit carries its id by then.
    For another file name the store is left as it is as well, and the
    call writes the same elements when it completes and nothing when
    it raises, which it then does before the file is open. *)
Theorem to_LML_again filename prefix stype (d d' : store) out :
  Info.to_LML filename prefix stype d = (d', out, Ok tt) ->
  (forall prefix2, Info.to_LML filename prefix2 stype d' = (d', out, Ok tt))
  /\ forall filename2 prefix2 d2 out2 r,
      Info.to_LML filename2 prefix2 stype d' = (d2, out2, r) ->
      d2 = d' /\ (r = Ok tt -> out2 = out) /\ (r <> Ok tt -> out2 = []).
Proof.
  intros H. destruct (to_LML_completed _ _ _ _ _ _ H) as (Hm & Ho & _ & Hf & _).
  pose proof (write_file_again _ _ _ _ _ _ Hf) as Hagain. split.
  - intros prefix2. unfold Info.to_LML. rewrite Hm, Ho. apply Hagain.
  - intros filename2 prefix2 d2 out2 r. unfold Info.to_LML.
    destruct (Os.makedirs (Os.dirname filename2)) as [[]|e].
    + destruct (Os.open_w filename2) as [[]|e].
      * rewrite Hagain. intros [= <- <- <-]. done.
      * intros [= <- <- <-]. done.
    + intros [= <- <- <-]. done.
Qed.

Lemma to_LML_again_witness :
  Info.to_LML "out/a_LML.xml" "q" "node"
    (fst (fst (Info.to_LML "out/a_LML.xml" "n" "node" Sample.two_nodes)))
  = (fst (fst (Info.to_LML "out/a_LML.xml" "n" "node" Sample.two_nodes)),
     snd (fst (Info.to_LML "out/a_LML.xml" "n" "node" Sample.two_nodes)),
     Ok tt).
Proof.
  refine (proj1 (to_LML_again "out/a_LML.xml" "n" "node" Sample.two_nodes
                   (fst (fst (Info.to_LML "out/a_LML.xml" "n" "node" Sample.two_nodes)))
                   (snd (fst (Info.to_LML "out/a_LML.xml" "n" "node" Sample.two_nodes)))
                   _) "q").
  vm_compute. reflexivity.
Defined.

(** ** Objects and info blocks *)

Lemma mapM_unit_id_cons key item id (rest : store) ids :
  PyDict.get "__id" item = Some id ->
  mapM unit_id rest = Some ids ->
  mapM unit_id ((key, item) :: rest) = Some (py_str id :: ids).
Proof.
  intros H1 H2.
  assert (unit_id (key, item) = Some (py_str id)) as Hu.
  { unfold unit_id. simpl. by rewrite H1. }
  change (mapM unit_id ((key, item) :: rest))
    with (unit_id (key, item) ≫= λ y, mapM unit_id rest ≫= λ k, mret (y :: k)).
  by rewrite Hu, H2.
Qed.

Lemma write_objects_reading prefix stype digits units :
  forall i d' out,
    Info.write_objects prefix stype digits i units = (d', out, Ok tt) ->
    object_names out = PyDict.keys units
    /\ PyDict.keys d' = PyDict.keys units
    /\ mapM unit_id d' = Some (object_ids out)
    /\ info_oids out = [].
Proof.
  induction units as [|[key item] rest IH]; intros i d' out; simpl.
  - by intros [= <- <-].
  - destruct (PyDict.get "__id" item) as [id|] eqn:Eid.
    + rewrite Eid. destruct (Info.object_type stype item) as [ty|] eqn:Ety; [|done].
      destruct (Info.write_objects prefix stype digits i rest) as [[rest' out'] r] eqn:E.
      intros [= <- <- ->]. destruct (IH _ _ _ E) as (Hn & Hk & Hi & Ho).
      repeat split.
      * by rewrite <- Hn.
      * by rewrite <- Hk.
      * by apply mapM_unit_id_cons.
      * done.
    + destruct (Info.id_prefix prefix item) as [p|]; [|done].
      rewrite get_set_eq.
      destruct (Info.object_type stype _) as [ty|] eqn:Ety; [|done].
      destruct (Info.write_objects prefix stype digits (S i) rest)
        as [[rest' out'] r] eqn:E.
      intros [= <- <- ->]. destruct (IH _ _ _ E) as (Hn & Hk & Hi & Ho).
      repeat split.
      * by rewrite <- Hn.
      * by rewrite <- Hk.
      * apply (mapM_unit_id_cons _ _ (AStr (make_id p digits i))); [apply get_set_eq|done].
      * done.
Qed.

Lemma data_elems_reading_field field :
  object_ids (Info.data_elems field) = []
  /\ object_names (Info.data_elems field) = []
  /\ info_oids (Info.data_elems field) = [].
Proof.
  destruct field as [key value]. unfold Info.data_elems.
  destruct (PyStr.startswith "__nelems" key); [done|].
  destruct (PyStr.startswith "__" key); [done|].
  by destruct (negb (is_str value) || ne_str value EmptyString).
Qed.

Lemma data_elems_reading item :
  object_ids (flat_map Info.data_elems item) = []
  /\ object_names (flat_map Info.data_elems item) = []
  /\ info_oids (flat_map Info.data_elems item) = [].
Proof.
  induction item as [|field item (IH1 & IH2 & IH3)]; [done|].
  destruct (data_elems_reading_field field) as (H1 & H2 & H3).
  unfold object_ids, object_names, info_oids in *.
  cbn [flat_map]. by rewrite !omap_app, IH1, IH2, IH3, H1, H2, H3.
Qed.

Lemma write_infos_reading d out :
  Info.write_infos d = (out, Ok tt) ->
  mapM unit_id d = Some (info_oids out)
  /\ object_ids out = [] /\ object_names out = [].
Proof.
  revert out. induction d as [|[key item] d IH]; intros out; simpl.
  - by intros [= <-].
  - destruct (PyDict.get "__id" item) as [id|] eqn:Eid; [|done].
    destruct (Info.write_infos d) as [out' r] eqn:E. intros [= <- ->].
    destruct (IH _ eq_refl) as (Hi & Ho & Hn).
    destruct (data_elems_reading item) as (H1 & H2 & H3).
    unfold object_ids, object_names, info_oids in *. repeat split.
    + simpl. rewrite omap_app, H3. simpl. by apply mapM_unit_id_cons.
    + simpl. rewrite omap_app, H1. simpl. done.
    + simpl. rewrite omap_app, H2. simpl. done.
Qed.

(** X3: when [to_LML] completes it keeps the keys of the store and
    their order; it writes one [<object>] per unit, in that order,
    whose name is the key of the unit and whose id is the [__id] the
    unit has afterwards; and the [<info>] blocks carry the same ids in
    the same order. *)
Theorem to_LML_objects_match_infos filename prefix stype (d d' : store) out :
  Info.to_LML filename prefix stype d = (d', out, Ok tt) ->
  PyDict.keys d' = PyDict.keys d
  /\ object_names out = PyDict.keys d
  /\ mapM unit_id d' = Some (object_ids out)
  /\ info_oids out = object_ids out.
Proof.
  intros H. destruct (to_LML_completed _ _ _ _ _ _ H) as (_ & _ & _ & Hf & _).
  clear H. revert Hf. unfold Info.write_file.
  destruct (Info.write_objects prefix stype (id_digits (length d))
              (Info.first_index filename) d) as [[d1 objects] r1] eqn:E1.
  destruct r1 as [[]|]; [|done].
  destruct (Info.write_infos d1) as [infos r2] eqn:E2.
  destruct r2 as [[]|]; [|done].
  intros [= <- <-].
  destruct (write_objects_reading _ _ _ _ _ _ _ E1) as (Hn & Hk & Hi & Ho).
  destruct (write_infos_reading _ _ E2) as (Hi' & Ho' & Hn').
  unfold object_ids, object_names, info_oids in *.
  simpl. rewrite !omap_app. simpl. rewrite !omap_app. simpl.
  rewrite Hn, Ho, Ho', Hn', !app_nil_r.
  repeat split; [done|done|]. rewrite app_nil_l. congruence.
Qed.

Lemma to_LML_objects_match_infos_witness :
  info_oids (snd (fst (Info.to_LML "out/a_LML.xml" "n" "node" Sample.two_nodes)))
  = object_ids (snd (fst (Info.to_LML "out/a_LML.xml" "n" "node" Sample.two_nodes))).
Proof.
  refine (proj2 (proj2 (proj2
            (to_LML_objects_match_infos "out/a_LML.xml" "n" "node" Sample.two_nodes
               (fst (fst (Info.to_LML "out/a_LML.xml" "n" "node" Sample.two_nodes)))
               (snd (fst (Info.to_LML "out/a_LML.xml" "n" "node" Sample.two_nodes))) _)))).
  vm_compute. reflexivity.
Defined.

(** ** Generated ids *)

Lemma without_id_rank (d : store) j1 j2 unit :
  (j1 < j2)%nat -> d !! j1 = Some unit -> PyDict.get "__id" (snd unit) = None ->
  (length (without_id (take j1 d)) < length (without_id (take j2 d)))%nat.
Proof.
  intros Hlt Hj Hid.
  rewrite <- (take_drop (S j1) (take j2 d)), take_take.
  replace (S j1 `min` j2)%nat with (S j1) by lia.
  rewrite (take_S_r _ _ _ Hj). unfold without_id.
  rewrite !List.filter_app, !length_app. simpl.
  unfold PyDict.mem. rewrite Hid. simpl. lia.
Qed.

(** X4: with a prefix passed to [to_LML], two different units without
    [__id] get different ids.  Each is stored in the unit, and the
    number after the prefix is the first index of the file plus the
    number of units without id that come before the unit. *)
Theorem generated_ids_differ filename prefix stype (d d' : store) out
  j1 j2 key1 item1 key2 item2 :
  PyStr.truthy prefix = true ->
  Info.to_LML filename prefix stype d = (d', out, Ok tt) ->
  d !! j1 = Some (key1, item1) -> d !! j2 = Some (key2, item2) ->
  PyDict.get "__id" item1 = None -> PyDict.get "__id" item2 = None ->
  j1 <> j2 ->
  exists id1 id2,
    d' !! j1 = Some (key1, PyDict.set "__id" (AStr id1) item1)
    /\ d' !! j2 = Some (key2, PyDict.set "__id" (AStr id2) item2)
    /\ id_number prefix id1
       = Some (Z.of_nat (Info.first_index filename + length (without_id (take j1 d))))
    /\ id_number prefix id2
       = Some (Z.of_nat (Info.first_index filename + length (without_id (take j2 d))))
    /\ id1 <> id2.
Proof.
  intros Hp H Hj1 Hj2 Hid1 Hid2 Hne.
  destruct (to_LML_completed _ _ _ _ _ _ H) as (_ & _ & _ & _ & objects & Hw).
  destruct (write_objects_ids _ _ _ _ _ _ _ Hw) as [_ Hids].
  pose proof (Hids _ _ _ Hj1) as H1. pose proof (Hids _ _ _ Hj2) as H2.
  rewrite Hid1 in H1. rewrite Hid2 in H2.
  destruct H1 as (p1 & Hp1 & H1). destruct H2 as (p2 & Hp2 & H2).
  unfold Info.id_prefix in Hp1, Hp2. rewrite Hp in Hp1, Hp2.
  injection Hp1 as <-. injection Hp2 as <-.
  eexists _, _. split; [exact H1|]. split; [exact H2|].
  split; [apply make_id_number|]. split; [apply make_id_number|].
  intros Heq. apply make_id_inj in Heq.
  destruct (Nat.lt_total j1 j2) as [Hlt|[?|Hlt]]; [|done|].
  - pose proof (without_id_rank d j1 j2 _ Hlt Hj1 Hid1). lia.
  - pose proof (without_id_rank d j2 j1 _ Hlt Hj2 Hid2). lia.
Qed.

Lemma generated_ids_differ_witness :
  exists id1 id2,
    fst (fst (Info.to_LML "out/a_LML.xml" "n" "node" Sample.two_nodes)) !! 0%nat
    = Some ("node1", PyDict.set "__id" (AStr id1) [("x", AStr "1")])
    /\ fst (fst (Info.to_LML "out/a_LML.xml" "n" "node" Sample.two_nodes)) !! 1%nat
       = Some ("node2", PyDict.set "__id" (AStr id2) [("x", AStr "2")])
    /\ id_number "n" id1
       = Some (Z.of_nat (Info.first_index "out/a_LML.xml"
                         + length (without_id (take 0 Sample.two_nodes))))
    /\ id_number "n" id2
       = Some (Z.of_nat (Info.first_index "out/a_LML.xml"
                         + length (without_id (take 1 Sample.two_nodes))))
    /\ id1 <> id2.
Proof.
  apply (generated_ids_differ "out/a_LML.xml" "n" "node" Sample.two_nodes
           (fst (fst (Info.to_LML "out/a_LML.xml" "n" "node" Sample.two_nodes)))
           (snd (fst (Info.to_LML "out/a_LML.xml" "n" "node" Sample.two_nodes)))
           0 1 "node1" [("x", AStr "1")] "node2" [("x", AStr "2")]).
  - reflexivity.
  - vm_compute. reflexivity.
  - reflexivity.
  - reflexivity.
  - reflexivity.
  - reflexivity.
  - lia.
Defined.

(** ** Quotes in values *)

Lemma contains_char_cons c a s :
  PyStr.contains (String c EmptyString) (String a s)
  = Ascii.eqb c a || PyStr.contains (String c EmptyString) s.
Proof. cbn [PyStr.contains PyStr.startswith]. by destruct (Ascii.eqb c a). Qed.

Lemma contains_char_app c s1 s2 :
  PyStr.contains (String c EmptyString) (s1 +:+ s2)
  = PyStr.contains (String c EmptyString) s1 || PyStr.contains (String c EmptyString) s2.
Proof.
  induction s1 as [|a s1 IH].
  - simpl. by destruct s2.
  - change (String a s1 +:+ s2) with (String a (s1 +:+ s2)).
    by rewrite !contains_char_cons, IH, orb_assoc.
Qed.

Lemma replace_removes c by_ s :
  PyStr.contains (String c EmptyString) by_ = false ->
  PyStr.contains (String c EmptyString) (PyStr.replace c by_ s) = false.
Proof.
  intros Hby. induction s as [|a s IH]; [done|].
  cbn [PyStr.replace]. destruct (Ascii.eqb a c) eqn:E.
  - by rewrite contains_char_app, Hby, IH.
  - rewrite contains_char_cons, IH, orb_false_r.
    rewrite Ascii.eqb_sym. exact E.
Qed.

Lemma string_of_uint_no_quote d :
  PyStr.contains dq (NilEmpty.string_of_uint d) = false.
Proof.
  unfold dq. induction d; cbn [NilEmpty.string_of_uint]; [done|..];
    by rewrite contains_char_cons, IHd.
Qed.

Lemma of_Z_no_quote z : PyStr.contains dq (PyStr.of_Z z) = false.
Proof.
  assert (forall d, PyStr.contains dq (NilZero.string_of_uint d) = false) as Hu.
  { intros d. destruct d; try apply string_of_uint_no_quote. done. }
  unfold PyStr.of_Z. destruct (Z.to_int z) as [d|d]; cbn [NilZero.string_of_int].
  - apply Hu.
  - unfold dq in *. by rewrite contains_char_cons, Hu.
Qed.

Lemma py_str_no_quote v : is_str v = false -> PyStr.contains dq (py_str v) = false.
Proof. destruct v as [s|z|[|]|]; try done. intros _. apply of_Z_no_quote. Qed.

Lemma lml_value_no_quote v : PyStr.contains dq (lml_value v) = false.
Proof.
  destruct v as [s|z|b|]; try by apply py_str_no_quote.
  by apply replace_removes.
Qed.

Lemma formatted_value_no_quote v : PyStr.contains dq (Files.formatted_value v) = false.
Proof.
  destruct v as [s|z|b|]; try by apply py_str_no_quote.
  by apply replace_removes.
Qed.

(** X5: the value of a [<data>] element never holds a double quote,
    for every key that does not start with [__nelems], in each of the
    three writers: [prometheus.py] and [gitlab.py] turn the double
    quotes of a string into single quotes, [files.py] into [&quot;],
    and no other scalar prints with one.  So the value can stand
    between double quotes in the file. *)
Theorem field_values_keep_quoting (key : string) (value : atom) :
  PyStr.startswith "__nelems" key = false ->
  forallb closes_value (Info.data_elems (key, value)) = true
  /\ forallb closes_value (BenchRepo.data_elems (key, value)) = true
  /\ forallb closes_value (Files.data_elems (key, value)) = true.
Proof.
  intros Hk. unfold Info.data_elems, BenchRepo.data_elems, Files.data_elems.
  rewrite Hk. destruct (PyStr.startswith "__" key); [done|].
  repeat split.
  - destruct (negb (is_str value) || ne_str value EmptyString); [|done].
    simpl. by rewrite lml_value_no_quote.
  - destruct (negb (is_str value) || ne_str value EmptyString); [|done].
    simpl. by rewrite lml_value_no_quote.
  - destruct (negb (is_none value)); [|done].
    simpl. by rewrite formatted_value_no_quote.
Qed.

Lemma field_values_keep_quoting_witness :
  forallb closes_value (Info.data_elems ("owner", AStr "a<b")) = true.
Proof.
  exact (proj1 (field_values_keep_quoting "owner" (AStr "a<b") eq_refl)).
Defined.

(** ** What the filter keeps *)

Lemma In_get {V} k (v : V) d : PyDict.wf d -> In (k, v) d -> PyDict.get k d = Some v.
Proof.
  unfold PyDict.wf, PyDict.keys. induction d as [|[k' v'] d IH]; [done|].
  simpl. rewrite NoDup_cons. intros [Hnin Hwf] [[= -> ->]|Hin].
  - by rewrite String.eqb_refl.
  - destruct (String.eqb k k') eqn:E; [|by apply IH].
    apply String.eqb_eq in E. subst k'. exfalso. apply Hnin.
    apply list_elem_of_In. change k with (fst (k, v)). by apply in_map.
Qed.

(** Deleting the marked names is filtering, when the marked names are
    those of the units that fail [keep]. *)
Lemma marks_filter (keep : string * record -> bool) (d : store) l :
  PyDict.wf d ->
  (forall k, In k l <-> exists unit, In (k, unit) d /\ keep (k, unit) = false) ->
  List.filter (fun unit => negb (existsb (String.eqb (fst unit)) l)) d
  = List.filter keep d.
Proof.
  intros Hwf Hl. apply List.filter_ext_in. intros [name unit] Hin. simpl.
  destruct (keep (name, unit)) eqn:Es.
  - apply negb_true_iff, not_true_iff_false. rewrite existsb_exists.
    intros (k & Hk & Heq). apply String.eqb_eq in Heq. subst k.
    apply Hl in Hk as (u & Hu & Hs).
    pose proof (In_get _ _ _ Hwf Hin) as H1. pose proof (In_get _ _ _ Hwf Hu) as H2.
    congruence.
  - apply negb_false_iff, existsb_exists. exists name. split; [|apply String.eqb_refl].
    apply Hl. eauto.
Qed.

Section Stays.
Variable compile : string -> option Re.regex.
Variables exclude include : pattern.

Ltac marks_case name :=
  intros [= <-];
  first
    [ exists (@nil string); rewrite ?app_nil_r; split; [reflexivity|]
    | exists [name]; split; [reflexivity|]
    | exists [name; name]; rewrite <- ?app_assoc; split; [reflexivity|] ];
  split_and!;
  [ simpl; intuition
  | simpl; intros; first [reflexivity|discriminate]
  | simpl; intros; first [discriminate|tauto]
  | intros [?|?]; first [discriminate|repeat constructor; simpl; tauto]
  | intros acc'; rewrite <- ?app_assoc, ?app_nil_r; reflexivity ].

(** The marks one unit gets in [Info.apply_pattern]. *)
Lemma info_mark_stays acc name unit l :
  Info.mark compile exclude include acc name unit = Ok l ->
  exists marks,
    l = acc ++ marks
    /\ (forall k, In k marks -> k = name)
    /\ (stays (Info.check_unit compile) exclude include (name, unit) = true -> marks = [])
    /\ (stays (Info.check_unit compile) exclude include (name, unit) = false -> In name marks)
    /\ (pattern_truthy exclude = false \/ pattern_truthy include = false -> List.NoDup marks)
    /\ forall acc', Info.mark compile exclude include acc' name unit = Ok (acc' ++ marks).
Proof.
  unfold Info.mark, stays. cbn [fst snd].
  destruct (pattern_truthy exclude) eqn:Ee, (pattern_truthy include) eqn:Ei;
    cbn [andb orb negb].
  - destruct (Info.check_unit compile name unit exclude) as [[|]|]; [| |done];
      destruct (Info.check_unit compile name unit include) as [[|]|]; try done;
      marks_case name.
  - destruct (Info.check_unit compile name unit exclude) as [[|]|]; [| |done];
      marks_case name.
  - destruct (Info.check_unit compile name unit include) as [[|]|]; [| |done];
      marks_case name.
  - marks_case name.
Qed.

Lemma info_mark_all_stays units :
  forall acc l,
    Info.mark_all compile exclude include acc units = Ok l ->
    exists marks,
      l = acc ++ marks
      /\ (forall k, In k marks <->
                    exists unit, In (k, unit) units
                                 /\ stays (Info.check_unit compile) exclude include (k, unit)
                                    = false)
      /\ (pattern_truthy exclude = false \/ pattern_truthy include = false ->
          PyDict.wf units -> List.NoDup marks)
      /\ (forall acc',
            Info.mark_all compile exclude include acc'
              (List.filter (stays (Info.check_unit compile) exclude include) units)
            = Ok acc').
Proof.
  induction units as [|[name unit] units IH]; intros acc l; simpl.
  - intros [= <-]. exists []. rewrite app_nil_r. split_and!; try done.
    + intros k. split; [done|]. by intros (? & [] & _).
    + intros _ _. constructor.
  - destruct (Info.mark compile exclude include acc name unit) as [l1|] eqn:E1; [|done].
    destruct (info_mark_stays _ _ _ _ E1) as (m1 & -> & Hm1 & Hstay & Hgo & Hnd & Hany).
    intros E2. destruct (IH _ _ E2) as (m2 & -> & Hm2 & Hnd2 & Hidem).
    exists (m1 ++ m2). rewrite app_assoc. split_and!; [done|..].
    + intros k. rewrite in_app_iff, Hm2. split.
      * intros [Hk|(u & Hu & Hs)].
        -- pose proof (Hm1 _ Hk) as ->. exists unit. split; [by left|].
           destruct (stays _ _ _ (name, unit)) eqn:Es; [|done].
           rewrite (Hstay eq_refl) in Hk. done.
        -- exists u. split; [by right|done].
      * intros (u & [[= -> ->]|Hu] & Hs); [left; by apply Hgo|right; eauto].
    + intros Hone Hwf. unfold PyDict.wf, PyDict.keys in Hwf. simpl in Hwf.
      apply NoDup_cons in Hwf as [Hnin Hwf].
      apply NoDup_ListNoDup, NoDup_app. split_and!.
      * apply NoDup_ListNoDup. by apply Hnd.
      * intros k Hk1 Hk2. apply list_elem_of_In in Hk1, Hk2.
        pose proof (Hm1 _ Hk1) as ->. apply Hm2 in Hk2 as (u & Hu & _).
        apply Hnin, list_elem_of_In. change name with (fst (name, u)). by apply in_map.
      * apply NoDup_ListNoDup. by apply Hnd2.
    + intros acc'. destruct (stays _ _ _ (name, unit)) eqn:Es; [|apply Hidem].
      simpl. rewrite Hany, (Hstay eq_refl), app_nil_r. apply Hidem.
Qed.

Lemma info_marks_filter (d : store) l :
  PyDict.wf d ->
  (forall k, In k l <->
             exists unit, In (k, unit) d
                          /\ stays (Info.check_unit compile) exclude include (k, unit) = false) ->
  List.filter (fun unit => negb (existsb (String.eqb (fst unit)) l)) d
  = List.filter (stays (Info.check_unit compile) exclude include) d.
Proof. apply marks_filter. Qed.

End Stays.

(** X6: when [Info.apply_pattern] completes on a store, the store it
    leaves is the original one, in its order, without the units that
    do not stay: a unit stays when no configured exclude rule matches
    it and, where include rules are configured, one of them matches.
    A second pass with the same rules completes and removes
    nothing. *)
Theorem info_apply_pattern_keeps compile exclude include (d d' : store) :
  PyDict.wf d ->
  Info.apply_pattern compile exclude include d = (d', Ok tt) ->
  d' = List.filter (stays (Info.check_unit compile) exclude include) d
  /\ Info.apply_pattern compile exclude include d' = (d', Ok tt).
Proof.
  intros Hwf. unfold Info.apply_pattern.
  destruct (Info.mark_all compile exclude include [] d) as [l|] eqn:E; [|done].
  destruct (info_mark_all_stays _ _ _ _ _ _ E) as (marks & -> & Hm & _ & Hidem).
  simpl. intros Hdel.
  destruct (del_each_completed _ _ _ Hwf Hdel) as [Hnd Hin].
  rewrite del_each_distinct in Hdel by (done || apply Hin).
  injection Hdel as <-. rewrite (info_marks_filter _ _ _ _ _ Hwf Hm).
  split; [done|]. by rewrite Hidem.
Qed.

Lemma info_apply_pattern_keeps_witness :
  Info.apply_pattern Re.parse (PStr "node1") (PStr EmptyString)
    (fst (Info.apply_pattern Re.parse (PStr "node1") (PStr EmptyString) Sample.two_nodes))
  = (fst (Info.apply_pattern Re.parse (PStr "node1") (PStr EmptyString) Sample.two_nodes),
     Ok tt).
Proof.
  refine (proj2 (info_apply_pattern_keeps Re.parse (PStr "node1") (PStr EmptyString)
                   Sample.two_nodes _ _ _)).
  - wf_dict.
  - vm_compute. reflexivity.
Defined.

(** X7: with at most one of [exclude] and [include] configured,
    [Info.apply_pattern] completes whenever no check of a rule raises,
    and leaves the units that stay. *)
Theorem info_apply_pattern_one_rule compile exclude include (d : store) l :
  PyDict.wf d ->
  pattern_truthy exclude = false \/ pattern_truthy include = false ->
  Info.mark_all compile exclude include [] d = Ok l ->
  Info.apply_pattern compile exclude include d
  = (List.filter (stays (Info.check_unit compile) exclude include) d, Ok tt).
Proof.
  intros Hwf Hone E. unfold Info.apply_pattern. rewrite E.
  destruct (info_mark_all_stays _ _ _ _ _ _ E) as (marks & -> & Hm & Hnd & _).
  simpl. rewrite del_each_distinct; [|done|by apply Hnd|].
  - by rewrite (info_marks_filter _ _ _ _ _ Hwf Hm).
  - intros k Hk. apply Hm in Hk as (u & Hu & _).
    change k with (fst (k, u)). by apply in_map.
Qed.

Lemma info_apply_pattern_one_rule_witness :
  Info.apply_pattern Re.parse (PStr "node1") (PStr EmptyString) Sample.two_nodes
  = (List.filter (stays (Info.check_unit Re.parse) (PStr "node1") (PStr EmptyString))
       Sample.two_nodes,
     Ok tt).
Proof.
  apply (info_apply_pattern_one_rule Re.parse (PStr "node1") (PStr EmptyString)
           Sample.two_nodes ["node1"]).
  - wf_dict.
  - right. reflexivity.
  - vm_compute. reflexivity.
Defined.

(** ** The filter of gitlab.py *)

Section CheckRaises.
Variable compile : string -> option Re.regex.
Variable re_fn : Re.regex -> string -> bool.

Lemma re_call_raises p v e : re_call compile re_fn p v = Raise e -> re_exn e.
Proof.
  unfold re_call, re_exn. destruct (compile p); [|intros [= <-]; eauto].
  destruct v; intros [= <-]; eauto.
Qed.

Lemma check_dict_raises unit d e :
  check_dict compile re_fn unit d = Raise e -> re_exn e.
Proof.
  induction d as [|[key value] d IH]; simpl; [done|].
  destruct (check_rule compile re_fn unit key value) as [[|]|e'] eqn:E; [done|done|].
  intros [= <-]. destruct value as [p|ps|]; simpl in E; [| |done].
  - unfold field_matches in E. destruct (PyDict.get key unit); [|done].
    by apply re_call_raises in E.
  - induction ps as [|p ps IHp]; simpl in E; [done|].
    destruct (field_matches compile re_fn unit key p) as [[|]|e''] eqn:E'; [done|auto|].
    injection E as <-. unfold field_matches in E'.
    destruct (PyDict.get key unit); [|done]. by apply re_call_raises in E'.
Qed.

Lemma check_unit_raises name unit pat e :
  check_unit compile re_fn name unit pat = Raise e -> re_exn e.
Proof.
  destruct pat as [p|l|d|b]; simpl; [apply re_call_raises| |apply check_dict_raises|done].
  induction l as [|item l IH]; simpl; [done|].
  destruct (check_item compile re_fn name unit item) as [[|]|e'] eqn:E; [done|done|].
  intros [= <-]. destruct item as [p|d|]; simpl in E; [|by apply check_dict_raises in E|done].
  by apply re_call_raises in E.
Qed.
End CheckRaises.

Section BenchStays.
Variable compile : string -> option Re.regex.
Variables exclude include : pattern.

#[local] Abbreviation stay := (stays (BenchRepo.check_unit compile) exclude include).

Lemma bench_mark_stays acc name unit s :
  BenchRepo.mark compile exclude include acc name unit = Ok s ->
  forall acc',
    BenchRepo.mark compile exclude include acc' name unit
    = Ok (if stay (name, unit) then acc' else acc' ∪ {[name]}).
Proof.
  unfold BenchRepo.mark, stays. cbn [fst snd].
  destruct (pattern_truthy exclude), (pattern_truthy include); cbn [andb orb negb].
  - destruct (BenchRepo.check_unit compile name unit exclude) as [[|]|]; [| |done];
      destruct (BenchRepo.check_unit compile name unit include) as [[|]|]; try done;
      intros _ acc'; simpl; f_equal; set_solver.
  - destruct (BenchRepo.check_unit compile name unit exclude) as [[|]|]; [| |done];
      intros _ acc'; done.
  - destruct (BenchRepo.check_unit compile name unit include) as [[|]|]; [| |done];
      intros _ acc'; done.
  - done.
Qed.

Lemma bench_mark_raises acc name unit e :
  BenchRepo.mark compile exclude include acc name unit = Raise e -> re_exn e.
Proof.
  unfold BenchRepo.mark.
  destruct (pattern_truthy exclude), (pattern_truthy include);
    repeat match goal with
           | |- context [BenchRepo.check_unit compile name unit ?p] =>
               let E := fresh "E" in
               destruct (BenchRepo.check_unit compile name unit p) as [[|]|] eqn:E;
               try apply check_unit_raises in E
           end; try done; by intros [= <-].
Qed.

Lemma bench_mark_all_stays units :
  forall acc s,
    BenchRepo.mark_all compile exclude include acc units = Ok s ->
    (forall k, k ∈ s <->
               k ∈ acc \/ exists unit, In (k, unit) units /\ stay (k, unit) = false)
    /\ (forall acc',
          BenchRepo.mark_all compile exclude include acc' (List.filter stay units)
          = Ok acc').
Proof.
  induction units as [|[name unit] units IH]; intros acc s; simpl.
  - intros [= <-]. split; [|done]. intros k. split; [by left|].
    by intros [?|(? & [] & _)].
  - destruct (BenchRepo.mark compile exclude include acc name unit) as [s1|] eqn:E1; [|done].
    pose proof (bench_mark_stays _ _ _ _ E1) as Hany.
    rewrite Hany in E1. injection E1 as <-.
    intros E2. destruct (IH _ _ E2) as [Hs Hidem]. split.
    + intros k. rewrite Hs. split.
      * intros [Hk|(u & Hu & Hst)].
        -- destruct (stay (name, unit)) eqn:Es; [by left|].
           apply elem_of_union in Hk as [Hk|Hk]; [by left|].
           apply elem_of_singleton in Hk. subst k. right. eauto.
        -- right. eauto.
      * intros [Hk|(u & [[= -> ->]|Hu] & Hst)].
        -- left. destruct (stay (name, unit)); set_solver.
        -- left. rewrite Hst. set_solver.
        -- right. eauto.
    + intros acc'. destruct (stay (name, unit)) eqn:Es; [|apply Hidem].
      cbn [BenchRepo.mark_all]. rewrite Hany. apply Hidem.
Qed.

Lemma bench_mark_all_raises units :
  forall acc e,
    BenchRepo.mark_all compile exclude include acc units = Raise e -> re_exn e.
Proof.
  induction units as [|[name unit] units IH]; intros acc e; simpl; [done|].
  destruct (BenchRepo.mark compile exclude include acc name unit) as [s1|e1] eqn:E1.
  - apply IH.
  - intros [= <-]. by apply bench_mark_raises in E1.
Qed.

End BenchStays.

(** X8: [BenchRepo.apply_pattern] on a dictionary of units either
    completes, leaving the units that stay (and a second pass then
    removes nothing), or raises a [TypeError] or an [re.error] out of
    a rule check with the dictionary untouched.  It collects the
    names to delete in a set, so it has no [KeyError]. *)
Theorem bench_apply_pattern_keeps compile exclude include (d d' : store) r :
  PyDict.wf d ->
  BenchRepo.apply_pattern compile exclude include d = (d', r) ->
  (r = Ok tt
   /\ d' = List.filter (stays (BenchRepo.check_unit compile) exclude include) d
   /\ BenchRepo.apply_pattern compile exclude include d' = (d', Ok tt))
  \/ (d' = d /\ (r = Raise TypeError \/ exists p, r = Raise (ReError p))).
Proof.
  intros Hwf H.
  destruct (BenchRepo.mark_all compile exclude include ∅ d) as [s|e] eqn:E.
  - left. rewrite (bench_apply_pattern_completes _ _ _ _ _ Hwf E) in H.
    injection H as <- <-.
    destruct (bench_mark_all_stays _ _ _ _ _ _ E) as [Hs Hidem].
    assert (List.filter (fun unit => negb (existsb (String.eqb (fst unit)) (elements s))) d
            = List.filter (stays (BenchRepo.check_unit compile) exclude include) d) as ->.
    { apply marks_filter; [done|]. intros k.
      rewrite <- list_elem_of_In, elem_of_elements, Hs. set_solver. }
    split_and!; [done..|].
    unfold BenchRepo.apply_pattern. rewrite Hidem.
    by rewrite elements_empty.
  - right. unfold BenchRepo.apply_pattern in H. rewrite E in H. injection H as <- <-.
    split; [done|]. destruct (bench_mark_all_raises _ _ _ _ _ _ E) as [->|[p ->]]; eauto.
Qed.

Lemma bench_apply_pattern_keeps_witness :
  (Ok tt = Ok tt
   /\ [("node2", [("x", AStr "2")])]
      = List.filter (stays (BenchRepo.check_unit Re.parse) (PStr "node1") (PStr "node"))
          Sample.two_nodes
   /\ BenchRepo.apply_pattern Re.parse (PStr "node1") (PStr "node")
        [("node2", [("x", AStr "2")])]
      = ([("node2", [("x", AStr "2")])], Ok tt))
  \/ ([("node2", [("x", AStr "2")])] = Sample.two_nodes
      /\ (Ok tt = Raise TypeError \/ exists p, Ok tt = Raise (ReError p))).
Proof.
  apply (bench_apply_pattern_keeps Re.parse (PStr "node1") (PStr "node") Sample.two_nodes).
  - wf_dict.
  - vm_compute. reflexivity.
Defined.

(** ** Deleting from last to first *)

Lemma without_indices_below {A} (s : gset nat) b (xs : list A) :
  (forall j, j ∈ s -> (j < b)%nat) -> without_indices s b xs = xs.
Proof.
  revert b. induction xs as [|x xs IH]; intros b Hs; [done|].
  cbn [without_indices]. rewrite bool_decide_eq_false_2.
  - rewrite IH; [done|]. intros j Hj. specialize (Hs j Hj). lia.
  - intros Hb. specialize (Hs b Hb). lia.
Qed.

Lemma without_indices_delete {A} (s : gset nat) (xs : list A) :
  forall b i,
    (forall j, j ∈ s -> (j < b + i)%nat) ->
    without_indices ({[(b + i)%nat]} ∪ s) b xs = without_indices s b (delete i xs).
Proof.
  induction xs as [|x xs IH]; intros b i Hs; [by destruct i|].
  destruct i as [|i].
  - change (delete 0%nat (x :: xs)) with xs.
    cbn [without_indices]. rewrite Nat.add_0_r in *.
    rewrite bool_decide_eq_true_2 by set_solver.
    rewrite !without_indices_below; [done|done|].
    intros j [Hj|Hj]%elem_of_union; [apply elem_of_singleton in Hj; lia|].
    specialize (Hs j Hj). lia.
  - change (delete (S i) (x :: xs)) with (x :: delete i xs).
    cbn [without_indices].
    replace (b + S i)%nat with (S b + i)%nat in * by lia.
    rewrite <- (IH (S b) i Hs).
    destruct (decide (b ∈ s)) as [Hb|Hb].
    + rewrite !bool_decide_eq_true_2 by set_solver. done.
    + rewrite !bool_decide_eq_false_2; [done|done|].
      intros [Hj|Hj]%elem_of_union; [apply elem_of_singleton in Hj; lia|done].
Qed.

Lemma del_indices_descending l :
  StronglySorted (flip lt) l ->
  forall units,
    (forall i, i ∈ l -> (i < length units)%nat) ->
    BenchRepo.del_indices l units = (without_indices (list_to_set l) 0 units, Ok tt).
Proof.
  induction 1 as [|i l Hl IH Hi]; intros units Hlen.
  - cbn [BenchRepo.del_indices list_to_set]. by rewrite without_indices_below by set_solver.
  - cbn [BenchRepo.del_indices list_to_set].
    assert (i < length units)%nat as Hlt by (apply Hlen; by left).
    apply Nat.ltb_lt in Hlt as Hltb. rewrite Hltb.
    rewrite Forall_forall in Hi. unfold flip in Hi.
    rewrite IH.
    + f_equal. symmetry. apply (without_indices_delete _ units 0 i).
      intros j Hj. apply elem_of_list_to_set in Hj. specialize (Hi j Hj). lia.
    + intros j Hj. specialize (Hi j Hj). rewrite length_delete by (apply lookup_lt_is_Some; lia).
      lia.
Qed.

Lemma strongly_sorted_reverse {A} (R : relation A) l :
  StronglySorted R l -> StronglySorted (flip R) (reverse l).
Proof.
  induction 1 as [|x l Hl IH Hx]; [constructor|].
  rewrite reverse_cons. apply StronglySorted_app_2.
  2:{ exact IH. }
  2:{ repeat constructor. }
  intros x1 x2 Hx1 Hx2. apply list_elem_of_singleton in Hx2. subst x2.
  rewrite Forall_forall in Hx. unfold flip. apply Hx. by apply elem_of_reverse.
Qed.

Lemma strongly_sorted_strict l :
  StronglySorted Nat.le l -> NoDup l -> StronglySorted lt l.
Proof.
  induction 1 as [|x l Hl IH Hx]; [constructor|].
  rewrite NoDup_cons. intros [Hnin Hnd]. constructor; [by apply IH|].
  rewrite Forall_forall in *. intros y Hy. specialize (Hx y Hy).
  assert (x <> y) by (intros ->; done). unfold Nat.le in Hx. lia.
Qed.

Lemma descending_spec (s : gset nat) :
  StronglySorted (flip lt) (BenchRepo.descending s)
  /\ list_to_set (BenchRepo.descending s) = s.
Proof.
  unfold BenchRepo.descending. split.
  - apply strongly_sorted_reverse, strongly_sorted_strict.
    + apply StronglySorted_merge_sort; apply _.
    + rewrite merge_sort_Permutation. apply NoDup_elements.
  - apply set_eq. intros i.
    rewrite elem_of_list_to_set, elem_of_reverse, merge_sort_Permutation.
    apply elem_of_elements.
Qed.

(** Deleting the marked positions from the last to the first never
    fails and leaves the units that are not marked, in order. *)
Lemma del_indices_marked (s : gset nat) units :
  (forall i, i ∈ s -> (i < length units)%nat) ->
  BenchRepo.del_indices (BenchRepo.descending s) units = (without_indices s 0 units, Ok tt).
Proof.
  intros Hs. destruct (descending_spec s) as [Hsorted Hset].
  rewrite del_indices_descending; [by rewrite Hset|done|].
  intros i Hi. apply Hs. rewrite <- Hset. by apply elem_of_list_to_set.
Qed.

(** ** Lists and sets of units *)

Section ElementFacts.
Variable compile : string -> option Re.regex.
Variables exclude include : pattern.

Lemma check_unit_at_fields name idx unit pat :
  field_rules_only pat = true -> pattern_truthy pat = true ->
  BenchRepo.check_unit_at compile idx unit pat = BenchRepo.check_unit compile name unit pat.
Proof.
  destruct pat as [p|l|d|b]; simpl; [|intros Hl _|done..].
  - intros H1 H2. by rewrite H2 in H1.
  - unfold BenchRepo.check_unit. simpl.
    induction l as [|item l IH]; [done|].
    simpl in *. apply andb_true_iff in Hl as [Hi Hl]. rewrite (IH Hl).
    by destruct item.
Qed.

#[local] Abbreviation stay :=
  (fun unit : record => stays (BenchRepo.check_unit compile) exclude include (EmptyString, unit)).

Lemma mark_index_fields acc idx unit s :
  field_rules_only exclude = true -> field_rules_only include = true ->
  BenchRepo.mark_index compile exclude include acc idx unit = Ok s ->
  s = if stay unit then acc else acc ∪ {[idx]}.
Proof.
  intros He Hi. unfold BenchRepo.mark_index, stays. cbn [fst snd].
  destruct (pattern_truthy exclude) eqn:Te, (pattern_truthy include) eqn:Ti;
    cbn [andb orb negb];
    rewrite ?(check_unit_at_fields EmptyString _ _ exclude He Te),
            ?(check_unit_at_fields EmptyString _ _ include Hi Ti).
  - destruct (BenchRepo.check_unit compile "" unit exclude) as [[|]|]; [| |done];
      destruct (BenchRepo.check_unit compile "" unit include) as [[|]|]; try done;
      intros [= <-]; simpl; set_solver.
  - destruct (BenchRepo.check_unit compile "" unit exclude) as [[|]|]; [| |done];
      by intros [= <-].
  - destruct (BenchRepo.check_unit compile "" unit include) as [[|]|]; [| |done];
      by intros [= <-].
  - by intros [= <-].
Qed.

Lemma mark_indices_fields units :
  field_rules_only exclude = true -> field_rules_only include = true ->
  forall acc idx s,
    BenchRepo.mark_indices compile exclude include acc idx units = Ok s ->
    (forall j, j ∈ acc -> (j < idx)%nat) ->
    (forall j, j ∈ s -> (j < idx + length units)%nat)
    /\ (forall j, (j < idx)%nat -> j ∈ s -> j ∈ acc)
    /\ (forall j, j ∈ acc -> j ∈ s)
    /\ without_indices s idx units = List.filter stay units.
Proof.
  intros He Hi. induction units as [|unit units IH]; intros acc idx s.
  - intros [= <-] Hacc. split_and!; [|done..]. intros j Hj. specialize (Hacc j Hj). lia.
  - cbn [BenchRepo.mark_indices].
    destruct (BenchRepo.mark_index compile exclude include acc idx unit) as [s1|] eqn:E1;
      [|done].
    apply mark_index_fields in E1; [|done..]. intros E2 Hacc.
    destruct (IH _ _ _ E2) as (Hlt & Hback & Hmono & Hw).
    { intros j Hj. subst s1. destruct (stay unit).
      - specialize (Hacc j Hj). lia.
      - apply elem_of_union in Hj as [Hj|Hj]; [specialize (Hacc j Hj); lia|].
        apply elem_of_singleton in Hj. lia. }
    split_and!.
    + intros j Hj. specialize (Hlt j Hj). simpl. lia.
    + intros j Hj Hjs. assert (j ∈ s1) as Hj1 by (apply Hback; [lia|done]).
      subst s1. destruct (stay unit); [done|].
      apply elem_of_union in Hj1 as [?|Hj1]; [done|]. apply elem_of_singleton in Hj1. lia.
    + intros j Hj. apply Hmono. subst s1. destruct (stay unit); set_solver.
    + cbn [without_indices List.filter]. rewrite Hw.
      destruct (stay unit) eqn:Es.
      * rewrite bool_decide_eq_false_2; [done|]. intros Hin.
        assert (idx ∈ s1) as H1 by (apply Hback; [lia|done]). subst s1.
        specialize (Hacc idx H1). lia.
      * rewrite bool_decide_eq_true_2; [done|]. apply Hmono. subst s1. set_solver.
Qed.

End ElementFacts.

(** X9: [BenchRepo.apply_pattern] on a list of units, under rules that
    only look at fields, keeps the units that stay, in their order,
    when no check raises: the positions are deleted from the last to
    the first, so no deletion moves a unit that is still to go. *)
Theorem bench_apply_pattern_list_keeps compile exclude include (units : list record) s :
  field_rules_only exclude = true -> field_rules_only include = true ->
  BenchRepo.mark_indices compile exclude include ∅ 0 units = Ok s ->
  BenchRepo.apply_pattern_list compile exclude include units
  = (List.filter
       (fun unit => stays (BenchRepo.check_unit compile) exclude include (EmptyString, unit))
       units,
     Ok tt).
Proof.
  intros He Hi E. unfold BenchRepo.apply_pattern_list. rewrite E.
  destruct (mark_indices_fields compile exclude include units He Hi _ _ _ E)
    as (Hlt & _ & _ & Hw); [set_solver|].
  rewrite del_indices_marked by (intros i Hs; specialize (Hlt i Hs); lia).
  by rewrite Hw.
Qed.

Lemma bench_apply_pattern_list_keeps_witness :
  BenchRepo.apply_pattern_list Re.parse (PDict [("x", RStr "1")]) (PStr EmptyString)
    [[("x", AStr "1")]; [("x", AStr "2")]]
  = (List.filter
       (fun unit =>
          stays (BenchRepo.check_unit Re.parse) (PDict [("x", RStr "1")]) (PStr EmptyString)
            (EmptyString, unit))
       [[("x", AStr "1")]; [("x", AStr "2")]],
     Ok tt).
Proof.
  apply (bench_apply_pattern_list_keeps Re.parse (PDict [("x", RStr "1")])
           (PStr EmptyString) [[("x", AStr "1")]; [("x", AStr "2")]] {[ 0%nat ]}).
  - reflexivity.
  - reflexivity.
  - vm_compute. reflexivity.
Defined.

(** A rule that is one pattern cannot be used on a list: the check
    of the first unit raises, since the position of a unit is no
    string to search in. *)
Lemma bench_apply_pattern_list_string_rule compile include p unit (units : list record) :
  PyStr.truthy p = true ->
  BenchRepo.apply_pattern_list compile (PStr p) include (unit :: units)
  = (unit :: units,
     Raise (match compile p with Some _ => TypeError | None => ReError p end)).
Proof.
  intros Hp. unfold BenchRepo.apply_pattern_list.
  cbn [BenchRepo.mark_indices]. unfold BenchRepo.mark_index.
  cbn [pattern_truthy BenchRepo.check_unit_at]. rewrite Hp. unfold re_call.
  by destruct (compile p).
Qed.

Section SourceFacts.
Variable compile : string -> option Re.regex.
Variables exclude include : pattern.

#[local] Abbreviation stay_source :=
  (fun unit : string =>
     stays (fun name _ pat => BenchRepo.search_patterns compile pat name)
       exclude include (unit, [])).

Lemma mark_source_spec acc unit s :
  BenchRepo.mark_source compile exclude include acc unit = Ok s ->
  s = if stay_source unit then acc else acc ∪ {[unit]}.
Proof.
  unfold BenchRepo.mark_source, stays. cbn [fst snd].
  destruct (pattern_truthy exclude), (pattern_truthy include); cbn [andb orb negb].
  - destruct (BenchRepo.search_patterns compile exclude unit) as [[|]|]; [| |done];
      destruct (BenchRepo.search_patterns compile include unit) as [[|]|]; try done;
      intros [= <-]; simpl; set_solver.
  - destruct (BenchRepo.search_patterns compile exclude unit) as [[|]|]; [| |done];
      by intros [= <-].
  - destruct (BenchRepo.search_patterns compile include unit) as [[|]|]; [| |done];
      by intros [= <-].
  - by intros [= <-].
Qed.

Lemma mark_sources_spec units :
  forall acc s,
    BenchRepo.mark_sources compile exclude include acc units = Ok s ->
    forall k, k ∈ s <-> k ∈ acc \/ (k ∈ units /\ stay_source k = false).
Proof.
  induction units as [|unit units IH]; intros acc s.
  - intros [= <-] k. set_solver.
  - cbn [BenchRepo.mark_sources].
    destruct (BenchRepo.mark_source compile exclude include acc unit) as [s1|] eqn:E1;
      [|done].
    apply mark_source_spec in E1. intros E2 k. rewrite (IH _ _ E2), elem_of_cons.
    subst s1. destruct (stay_source unit) eqn:Es.
    + split; [tauto|]. intros [?|[[-> | ?] ?]]; [tauto|congruence|tauto].
    + rewrite elem_of_union, elem_of_singleton. split.
      * intros [[?| ->]|[? ?]]; tauto.
      * intros [?|[[-> | ?] ?]]; tauto.
Qed.
End SourceFacts.

(** X10: [BenchRepo.apply_pattern] on a set of names, when it
    completes, leaves the names that stay under [search_patterns].  A
    rule that is a mapping never matches there: such an include rule
    removes every name and such an exclude rule removes none. *)
Theorem bench_apply_pattern_set_keeps compile exclude include (sources kept : gset string) :
  BenchRepo.apply_pattern_set compile exclude include sources = (kept, Ok tt) ->
  (forall unit,
     unit ∈ kept
     <-> unit ∈ sources
         /\ stays (fun name _ pat => BenchRepo.search_patterns compile pat name)
              exclude include (unit, []) = true)
  /\ (forall d, include = PDict d -> pattern_truthy include = true -> kept = ∅)
  /\ (forall d, exclude = PDict d -> pattern_truthy include = false -> kept = sources).
Proof.
  unfold BenchRepo.apply_pattern_set.
  destruct (BenchRepo.mark_sources compile exclude include ∅ (elements sources))
    as [s|] eqn:E; [|done].
  intros [= <-]. pose proof (mark_sources_spec _ _ _ _ _ _ E) as Hs.
  assert (forall unit,
            unit ∈ sources ∖ s
            <-> unit ∈ sources
                /\ stays (fun name _ pat => BenchRepo.search_patterns compile pat name)
                     exclude include (unit, []) = true) as Hk.
  { intros unit. rewrite elem_of_difference, Hs, elem_of_elements.
    destruct (stays _ exclude include (unit, [])); set_solver. }
  split_and!; [done|..].
  - intros d -> Ht. apply set_eq. intros unit. rewrite Hk. unfold stays.
    rewrite Ht. cbn [fst snd BenchRepo.search_patterns negb orb]. rewrite andb_false_r.
    set_solver.
  - intros d -> Ht. apply set_eq. intros unit. rewrite Hk. unfold stays.
    rewrite Ht. cbn [fst snd BenchRepo.search_patterns negb orb].
    rewrite andb_false_r. set_solver.
Qed.

Lemma bench_apply_pattern_set_keeps_witness :
  "new_repo" ∈ fst (BenchRepo.apply_pattern_set Re.parse (PStr "old") (PStr EmptyString)
                      {[ "old_repo"; "new_repo" ]})
  <-> "new_repo" ∈ ({[ "old_repo"; "new_repo" ]} : gset string)
      /\ stays (fun name _ pat => BenchRepo.search_patterns Re.parse pat name)
           (PStr "old") (PStr EmptyString) ("new_repo", []) = true.
Proof.
  refine (proj1 (bench_apply_pattern_set_keeps Re.parse (PStr "old") (PStr EmptyString)
                   {[ "old_repo"; "new_repo" ]} _ _) "new_repo").
  vm_compute. reflexivity.
Defined.

(** ** Mapping *)

Lemma map_fields_get mapping_dict item name :
  forall new_item skip_keys,
    PyDict.get name (fst (Info.map_fields mapping_dict item new_item skip_keys))
    = match renamed mapping_dict item name with
      | Some v => Some v
      | None => PyDict.get name new_item
      end.
Proof.
  induction mapping_dict as [|[key map] rest IH]; intros new_item skip_keys; [done|].
  cbn [Info.map_fields renamed].
  destruct (PyDict.get key item) as [v|] eqn:Ek; rewrite IH.
  - destruct (renamed rest item name); [done|].
    destruct (String.eqb map name) eqn:E.
    + apply String.eqb_eq in E. subst map. apply get_set_eq.
    + apply String.eqb_neq in E. by apply get_set_ne.
  - destruct (renamed rest item name); [done|]. by destruct (String.eqb map name).
Qed.

Lemma carry_get k item new_item name :
  PyDict.get name (Info.carry k item new_item)
  = if String.eqb name k && PyDict.mem k item then PyDict.get k item
    else PyDict.get name new_item.
Proof.
  unfold Info.carry, PyDict.mem. destruct (PyDict.get k item) as [v|] eqn:E.
  - destruct (String.eqb name k) eqn:En; simpl.
    + apply String.eqb_eq in En. subst name. apply get_set_eq.
    + apply String.eqb_neq in En. apply get_set_ne. congruence.
  - by rewrite andb_false_r.
Qed.

Lemma map_item_get mapping_dict item skip_keys name :
  PyDict.get name (fst (Info.map_item mapping_dict item skip_keys))
  = if internal_key name && PyDict.mem name item then PyDict.get name item
    else renamed mapping_dict item name.
Proof.
  unfold Info.map_item.
  pose proof (map_fields_get mapping_dict item name [] skip_keys) as H.
  destruct (Info.map_fields mapping_dict item [] skip_keys) as [new_item skip'].
  simpl in *. rewrite !carry_get, H. unfold internal_key.
  destruct (String.eqb name "__prefix") eqn:E1.
  { apply String.eqb_eq in E1. subst name. rewrite orb_true_r. simpl.
    destruct (PyDict.mem "__prefix" item); [done|]. simpl.
    by destruct (renamed mapping_dict item "__prefix"). }
  destruct (String.eqb name "__id") eqn:E2.
  { apply String.eqb_eq in E2. subst name. simpl.
    destruct (PyDict.mem "__id" item); [done|]. simpl.
    by destruct (renamed mapping_dict item "__id"). }
  destruct (String.eqb name "__type") eqn:E3.
  { apply String.eqb_eq in E3. subst name. simpl.
    destruct (PyDict.mem "__type" item); [done|]. simpl.
    by destruct (renamed mapping_dict item "__type"). }
  simpl. by destruct (renamed mapping_dict item name).
Qed.

Lemma map_item_skip_irrelevant mapping_dict item skip1 skip2 :
  fst (Info.map_item mapping_dict item skip1) = fst (Info.map_item mapping_dict item skip2).
Proof.
  unfold Info.map_item.
  assert (forall new_item,
            fst (Info.map_fields mapping_dict item new_item skip1)
            = fst (Info.map_fields mapping_dict item new_item skip2)) as H.
  { revert skip1 skip2. induction mapping_dict as [|[key map] rest IH];
      intros skip1 skip2 new_item; [done|].
    simpl. destruct (PyDict.get key item); apply IH. }
  specialize (H []).
  destruct (Info.map_fields mapping_dict item [] skip1),
           (Info.map_fields mapping_dict item [] skip2). simpl in *. by subst.
Qed.

Lemma map_units_get mapping_dict (d : store) unit :
  forall skip_keys,
    PyDict.get unit (fst (Info.map_units mapping_dict d skip_keys))
    = option_map (fun item => fst (Info.map_item mapping_dict item ∅)) (PyDict.get unit d).
Proof.
  induction d as [|[u item] d IH]; intros skip_keys; [done|].
  cbn [Info.map_units].
  destruct (Info.map_item mapping_dict item skip_keys) as [new_item skip1] eqn:E1.
  specialize (IH skip1).
  destruct (Info.map_units mapping_dict d skip1) as [rest' skip2]. simpl in *.
  destruct (String.eqb unit u); [|done]. simpl.
  by rewrite (map_item_skip_irrelevant _ _ ∅ skip_keys), E1.
Qed.

Lemma map_units_keys mapping_dict (d : store) :
  forall skip_keys,
    PyDict.keys (fst (Info.map_units mapping_dict d skip_keys)) = PyDict.keys d.
Proof.
  induction d as [|[u item] d IH]; intros skip_keys; [done|].
  cbn [Info.map_units].
  destruct (Info.map_item mapping_dict item skip_keys) as [new_item skip1].
  specialize (IH skip1).
  destruct (Info.map_units mapping_dict d skip1) as [rest' skip2].
  unfold PyDict.keys in *. simpl in *. by rewrite IH.
Qed.

Lemma map_get mapping_dict (d : store) unit item :
  PyDict.get unit d = Some item ->
  exists new_item,
    PyDict.get unit (fst (Info.map mapping_dict d)) = Some new_item
    /\ forall name,
        PyDict.get name new_item
        = if internal_key name && PyDict.mem name item then PyDict.get name item
          else renamed mapping_dict item name.
Proof.
  intros Hu. unfold Info.map.
  rewrite map_units_get, Hu. eexists. split; [done|].
  intros name. apply map_item_get.
Qed.

(** X11: [map] keeps the units and their order.  In the new unit, one
    of the names [__type], [__id] and [__prefix] that the old unit has
    keeps its value; any other name has the value of the last entry
    of the mapping that maps a field of the old unit to it, and is
    absent when there is no such entry. *)
Theorem map_lookup mapping_dict (d : store) unit item :
  PyDict.get unit d = Some item ->
  PyDict.keys (fst (Info.map mapping_dict d)) = PyDict.keys d
  /\ exists new_item,
      PyDict.get unit (fst (Info.map mapping_dict d)) = Some new_item
      /\ forall name,
          PyDict.get name new_item
          = if internal_key name && PyDict.mem name item then PyDict.get name item
            else renamed mapping_dict item name.
Proof.
  intros Hu. split; [apply map_units_keys|]. by apply map_get.
Qed.

Lemma map_lookup_witness :
  PyDict.keys (fst (Info.map [("x", "load")] Sample.two_nodes)) = ["node1"; "node2"].
Proof.
  exact (proj1 (map_lookup [("x", "load")] Sample.two_nodes "node1" [("x", AStr "1")]
                  eq_refl)).
Defined.

Lemma renamed_unique mapping_dict item key name :
  NoDup (List.map snd mapping_dict) -> In (key, name) mapping_dict ->
  renamed mapping_dict item name = PyDict.get key item.
Proof.
  induction mapping_dict as [|[k m] rest IH]; [done|].
  cbn [List.map snd renamed]. rewrite NoDup_cons. intros [Hnin Hnd] [[= -> ->]|Hin].
  - rewrite String.eqb_refl.
    assert (renamed rest item name = None) as ->; [|done].
    clear -Hnin. induction rest as [|[k' m'] rest IH]; [done|].
    cbn [renamed]. rewrite IH by set_solver.
    destruct (String.eqb m' name) eqn:E; [|done].
    apply String.eqb_eq in E. subst. set_solver.
  - rewrite (IH Hnd Hin).
    destruct (PyDict.get key item); [done|].
    destruct (String.eqb m name) eqn:E; [|done].
    apply String.eqb_eq in E. subst m. exfalso. apply Hnin.
    apply list_elem_of_In. change name with (snd (key, name)). by apply in_map.
Qed.

Lemma renamed_none mapping_dict item name :
  ~ In name (List.map snd mapping_dict) -> renamed mapping_dict item name = None.
Proof.
  induction mapping_dict as [|[k m] rest IH]; [done|].
  cbn [List.map snd renamed]. intros Hnin.
  rewrite IH by (intros ?; apply Hnin; by right).
  destruct (String.eqb m name) eqn:E; [|done].
  apply String.eqb_eq in E. subst m. exfalso. apply Hnin. by left.
Qed.

(** X12: when the new names of the mapping are distinct, the new unit
    has under each new name what the old one had under the mapped
    key, nothing under a name that is no new name, and the fields
    [__type], [__id] and [__prefix] of the old unit. *)
Theorem map_renames mapping_dict (d : store) unit item :
  PyDict.get unit d = Some item ->
  NoDup (List.map snd mapping_dict) ->
  exists new_item,
    PyDict.get unit (fst (Info.map mapping_dict d)) = Some new_item
    /\ (forall key name,
          In (key, name) mapping_dict -> internal_key name = false ->
          PyDict.get name new_item = PyDict.get key item)
    /\ (forall name,
          ~ In name (List.map snd mapping_dict) -> internal_key name = false ->
          PyDict.get name new_item = None)
    /\ (forall name,
          internal_key name = true -> PyDict.mem name item = true ->
          PyDict.get name new_item = PyDict.get name item).
Proof.
  intros Hu Hnd. destruct (map_get mapping_dict d unit item Hu) as (new_item & Hn & Hget).
  exists new_item. split; [done|]. split_and!.
  - intros key name Hin Hint. rewrite Hget, Hint. simpl. by apply renamed_unique.
  - intros name Hnin Hint. rewrite Hget, Hint. simpl. by apply renamed_none.
  - intros name Hint Hmem. by rewrite Hget, Hint, Hmem.
Qed.

Lemma map_renames_witness :
  exists new_item,
    PyDict.get "node1" (fst (Info.map [("x", "load")] Sample.two_nodes)) = Some new_item
    /\ (forall key name,
          In (key, name) [("x", "load")] -> internal_key name = false ->
          PyDict.get name new_item = PyDict.get key [("x", AStr "1")])
    /\ (forall name,
          ~ In name (List.map snd [("x", "load")]) -> internal_key name = false ->
          PyDict.get name new_item = None)
    /\ (forall name,
          internal_key name = true -> PyDict.mem name [("x", AStr "1")] = true ->
          PyDict.get name new_item = PyDict.get name [("x", AStr "1")]).
Proof.
  apply (map_renames [("x", "load")] Sample.two_nodes "node1" [("x", AStr "1")]).
  - reflexivity.
  - wf_dict.
Defined.

Lemma map_item_mem mapping_dict item skip_keys name :
  internal_key name = true -> PyDict.mem name item = true ->
  PyDict.get name (fst (Info.map_item mapping_dict item skip_keys)) = PyDict.get name item.
Proof. intros Hi Hm. by rewrite map_item_get, Hi, Hm. Qed.

Lemma mem_get {V} k (d : list (string * V)) :
  PyDict.mem k d = true <-> exists v, PyDict.get k d = Some v.
Proof.
  unfold PyDict.mem. destruct (PyDict.get k d) as [v|].
  - split; eauto.
  - split; [done|]. by intros [? ?].
Qed.

Lemma map_units_tagged prefix stype mapping_dict (d : store) :
  forall skip_keys,
    well_tagged prefix stype d = true ->
    well_tagged prefix stype (fst (Info.map_units mapping_dict d skip_keys)) = true.
Proof.
  induction d as [|[u item] d IH]; intros skip_keys; [done|].
  cbn [Info.map_units].
  pose proof (fun name => map_item_mem mapping_dict item skip_keys name) as Hmem.
  destruct (Info.map_item mapping_dict item skip_keys) as [new_item skip1].
  specialize (IH skip1).
  destruct (Info.map_units mapping_dict d skip1) as [rest' skip2].
  unfold well_tagged in *. cbn [forallb fst snd] in *.
  rewrite andb_true_iff. intros [Hitem Hrest]. rewrite (IH Hrest), andb_true_r.
  assert (forall name, internal_key name = true ->
                       PyDict.mem name item = true -> PyDict.mem name new_item = true) as Hm.
  { intros name Hi Hn. unfold PyDict.mem in *. rewrite (Hmem name Hi Hn).
    by destruct (PyDict.get name item). }
  apply andb_true_iff in Hitem as [H1 H2]. apply andb_true_iff. split.
  - destruct (PyStr.truthy prefix); [done|]. simpl in *.
    apply orb_true_iff in H1 as [H1|H1]; apply orb_true_iff; [left|right]; by apply Hm.
  - destruct (PyStr.truthy stype); [done|]. simpl in *. by apply Hm.
Qed.

Lemma map_units_ids mapping_dict (d : store) :
  forall skip_keys j unit id,
    d !! j = Some unit -> unit_id unit = Some id ->
    exists unit',
      fst (Info.map_units mapping_dict d skip_keys) !! j = Some unit'
      /\ fst unit' = fst unit /\ unit_id unit' = Some id.
Proof.
  induction d as [|[u item] d IH]; intros skip_keys j unit id; [done|].
  cbn [Info.map_units].
  pose proof (map_item_mem mapping_dict item skip_keys "__id" eq_refl) as Hmem.
  destruct (Info.map_item mapping_dict item skip_keys) as [new_item skip1].
  specialize (IH skip1).
  destruct (Info.map_units mapping_dict d skip1) as [rest' skip2].
  destruct j as [|j]; simpl in *.
  - intros [= <-] Hid. eexists. split; [done|]. split; [done|].
    unfold unit_id in *. simpl in *.
    destruct (PyDict.get "__id" item) as [v|] eqn:E; [|done].
    rewrite Hmem; [done|]. unfold PyDict.mem. by rewrite E.
  - apply IH.
Qed.

(** X13: a store that can be written can still be written after
    [map]: when [to_LML] completes on a store, the same call, for the
    same file, completes on the mapped store as well; and every unit
    keeps its place, its key and its id through the mapping. *)
Theorem map_then_to_LML mapping_dict filename prefix stype (d d1 : store) out1 :
  Info.to_LML filename prefix stype d = (d1, out1, Ok tt) ->
  (exists d' out,
      Info.to_LML filename prefix stype (fst (Info.map mapping_dict d)) = (d', out, Ok tt))
  /\ forall j unit id,
      d !! j = Some unit -> unit_id unit = Some id ->
      exists unit',
        fst (Info.map mapping_dict d) !! j = Some unit'
        /\ fst unit' = fst unit /\ unit_id unit' = Some id.
Proof.
  intros H. destruct (to_LML_completed _ _ _ _ _ _ H) as (_ & _ & Hw & _). split.
  - apply (to_LML_same_file _ _ _ _ _ _ _ _ _ H). by apply map_units_tagged.
  - intros j unit id. apply map_units_ids.
Qed.

Lemma map_then_to_LML_witness :
  exists d' out,
    Info.to_LML "out/a_LML.xml" "n" "node" (fst (Info.map [("x", "load")] Sample.two_nodes))
    = (d', out, Ok tt).
Proof.
  refine (proj1 (map_then_to_LML [("x", "load")] "out/a_LML.xml" "n" "node"
                   Sample.two_nodes
                   (fst (fst (Info.to_LML "out/a_LML.xml" "n" "node" Sample.two_nodes)))
                   (snd (fst (Info.to_LML "out/a_LML.xml" "n" "node" Sample.two_nodes)))
                   _)).
  vm_compute. reflexivity.
Defined.

(** X14: the keys [map] reports as skipped are the keys of the
    mapping that some unit does not have. *)
Theorem map_skip_keys mapping_dict (d : store) key :
  key ∈ snd (Info.map mapping_dict d)
  <-> In key (PyDict.keys mapping_dict)
      /\ exists unit item, In (unit, item) d /\ PyDict.get key item = None.
Proof.
  assert (forall item new_item skip_keys,
            key ∈ snd (Info.map_fields mapping_dict item new_item skip_keys)
            <-> key ∈ skip_keys
                \/ In key (PyDict.keys mapping_dict) /\ PyDict.get key item = None) as Hf.
  { intros item. unfold PyDict.keys.
    induction mapping_dict as [|[k m] rest IH]; intros new_item skip_keys.
    - simpl. tauto.
    - cbn [Info.map_fields List.map fst In].
      destruct (PyDict.get k item) as [v|] eqn:E; rewrite IH.
      + split; [tauto|]. intros [?|[[->|?] Hg]]; [tauto|congruence|tauto].
      + rewrite elem_of_union, elem_of_singleton. split.
        * intros [[->|?]|[? ?]]; tauto.
        * intros [?|[[->|?] Hg]]; tauto. }
  assert (forall skip_keys,
            key ∈ snd (Info.map_units mapping_dict d skip_keys)
            <-> key ∈ skip_keys
                \/ In key (PyDict.keys mapping_dict)
                   /\ exists unit item, In (unit, item) d /\ PyDict.get key item = None) as Hu.
  { induction d as [|[u item] d IH]; intros skip_keys.
    - simpl. split; [tauto|]. intros [?|[_ (? & ? & [] & _)]]. done.
    - cbn [Info.map_units]. unfold Info.map_item.
      specialize (Hf item [] skip_keys).
      destruct (Info.map_fields mapping_dict item [] skip_keys) as [new_item skip1].
      specialize (IH skip1).
      destruct (Info.map_units mapping_dict d skip1) as [rest' skip2].
      simpl in *. rewrite IH, Hf. split.
      + intros [[?|[? ?]]|[? (u' & it' & ? & ?)]]; [tauto| |].
        * right. split; [done|]. exists u, item. tauto.
        * right. split; [done|]. exists u', it'. tauto.
      + intros [?|[? (u' & it' & [[= -> ->]|?] & ?)]]; [tauto|tauto|].
        right. split; [done|]. eauto. }
  unfold Info.map. rewrite Hu. set_solver.
Qed.

(** ** Placeholders *)

Lemma placeholder_spec s key rest :
  Info.placeholder s = Some (key, rest) ->
  s = key +:+ "}" +:+ rest
  /\ PyStr.contains "}" key = false
  /\ PyStr.contains nl key = false.
Proof.
  revert key. induction s as [|c s IH]; intros key; [done|].
  cbn [Info.placeholder]. destruct (Ascii.eqb c "}") eqn:E1.
  - apply Ascii.eqb_eq in E1. subst c. by intros [= <- <-].
  - destruct (Ascii.eqb c Re.newline) eqn:E2; [done|].
    destruct (Info.placeholder s) as [[key' rest']|]; [|done].
    intros [= <- <-]. destruct (IH _ eq_refl) as (-> & H1 & H2).
    split; [done|]. unfold nl in *. rewrite !contains_char_cons, H1, H2.
    rewrite (Ascii.eqb_sym "}" c), E1. unfold Re.newline in E2.
    by rewrite (Ascii.eqb_sym _ c), E2.
Qed.

Lemma placeholder_app key rest :
  PyStr.contains "}" key = false -> PyStr.contains nl key = false ->
  Info.placeholder (key +:+ "}" +:+ rest) = Some (key, rest).
Proof.
  induction key as [|c key IH]; [done|].
  unfold nl. rewrite !contains_char_cons, !orb_false_iff.
  intros [E1 H1] [E2 H2]. change (String c key +:+ "}" +:+ rest)
    with (String c (key +:+ "}" +:+ rest)).
  cbn [Info.placeholder]. rewrite Ascii.eqb_sym, E1.
  unfold Re.newline. rewrite Ascii.eqb_sym, E2. by rewrite IH.
Qed.

Lemma placeholder_shorter s key rest :
  Info.placeholder s = Some (key, rest) -> (String.length rest < String.length s)%nat.
Proof.
  intros H. apply placeholder_spec in H as (-> & _ & _).
  rewrite !string_length_app. simpl. lia.
Qed.

(** More fuel than characters changes nothing. *)
Lemma sub_placeholders_fuel values fuel1 :
  forall fuel2 s,
    (String.length s <= fuel1)%nat -> (String.length s <= fuel2)%nat ->
    Info.sub_placeholders fuel1 values s = Info.sub_placeholders fuel2 values s.
Proof.
  induction fuel1 as [|fuel1 IH]; intros fuel2 s H1 H2.
  - destruct s; [|simpl in H1; lia]. by destruct fuel2.
  - destruct s as [|c s]; [by destruct fuel2|].
    destruct fuel2 as [|fuel2]; [simpl in H2; lia|].
    simpl in H1, H2. cbn [Info.sub_placeholders].
    destruct (Ascii.eqb c "{").
    + destruct (Info.placeholder s) as [[key rest]|] eqn:E.
      * apply placeholder_shorter in E. f_equal. apply IH; lia.
      * f_equal. apply IH; lia.
    + f_equal. apply IH; lia.
Qed.

(** X15: [substitute_placeholders] at the first opening brace of a
    template, when the text up to the next closing brace has no
    newline: the text before the brace is kept, the placeholder
    becomes the value of its key, or stays as it is when [values] has
    no such key, and the rest of the template is treated the same
    way; the value put in is not looked at again. *)
Theorem substitute_placeholders_step (pre key post : string) values :
  PyStr.contains "{" pre = false ->
  PyStr.contains "}" key = false ->
  PyStr.contains nl key = false ->
  Info.substitute_placeholders (pre +:+ "{" +:+ key +:+ "}" +:+ post) values
  = pre +:+ default ("{" +:+ key +:+ "}") (PyDict.get key values)
        +:+ Info.substitute_placeholders post values.
Proof.
  intros Hpre Hk1 Hk2. unfold Info.substitute_placeholders.
  induction pre as [|c pre IH].
  - change (EmptyString +:+ "{" +:+ key +:+ "}" +:+ post)
      with (String "{" (key +:+ "}" +:+ post)).
    cbn [String.length Info.sub_placeholders]. rewrite Ascii.eqb_refl.
    rewrite placeholder_app by done. simpl. f_equal.
    apply sub_placeholders_fuel; [|done]. rewrite !string_length_app. simpl. lia.
  - rewrite contains_char_cons in Hpre. apply orb_false_iff in Hpre as [Hc Hpre].
    change (String c pre +:+ "{" +:+ key +:+ "}" +:+ post)
      with (String c (pre +:+ "{" +:+ key +:+ "}" +:+ post)).
    cbn [String.length Info.sub_placeholders]. rewrite Ascii.eqb_sym, Hc.
    rewrite (IH Hpre). done.
Qed.

Lemma substitute_placeholders_step_witness :
  Info.substitute_placeholders "rate({name}[5m])" [("name", "node")]
  = "rate(" +:+ default "{name}" (PyDict.get "name" [("name", "node")])
      +:+ Info.substitute_placeholders "[5m])" [("name", "node")].
Proof.
  exact (substitute_placeholders_step "rate(" "name" "[5m])" [("name", "node")]
           eq_refl eq_refl eq_refl).
Defined.

Lemma sub_placeholders_unknown values fuel :
  (forall key, PyDict.get key values = None) ->
  forall s, (String.length s <= fuel)%nat -> Info.sub_placeholders fuel values s = s.
Proof.
  intros Hv. induction fuel as [|fuel IH]; intros s Hs; [done|].
  destruct s as [|c s]; [done|]. simpl in Hs. cbn [Info.sub_placeholders].
  destruct (Ascii.eqb c "{") eqn:Ec.
  - destruct (Info.placeholder s) as [[key rest]|] eqn:E.
    + pose proof (placeholder_shorter _ _ _ E).
      apply placeholder_spec in E as (-> & _ & _).
      apply Ascii.eqb_eq in Ec. subst c. rewrite Hv, IH by lia. simpl.
      by rewrite app_assoc3.
    + by rewrite IH by lia.
  - by rewrite IH by lia.
Qed.

Lemma sub_placeholders_plain values fuel :
  forall s, PyStr.contains "{" s = false -> Info.sub_placeholders fuel values s = s.
Proof.
  induction fuel as [|fuel IH]; intros s Hs; [done|].
  destruct s as [|c s]; [done|]. cbn [Info.sub_placeholders].
  rewrite contains_char_cons in Hs. apply orb_false_iff in Hs as [Hc Hs].
  by rewrite Ascii.eqb_sym, Hc, IH.
Qed.

(** X16: a template without an opening brace, and any template when
    there are no values, comes back unchanged. *)
Theorem substitute_placeholders_unchanged (template : string) values :
  PyStr.contains "{" template = false \/ values = [] ->
  Info.substitute_placeholders template values = template.
Proof.
  intros [H| ->]; unfold Info.substitute_placeholders.
  - by apply sub_placeholders_plain.
  - by apply sub_placeholders_unknown.
Qed.

Lemma substitute_placeholders_unchanged_witness :
  Info.substitute_placeholders "up == 1" [("name", "node")] = "up == 1".
Proof.
  apply (substitute_placeholders_unchanged "up == 1" [("name", "node")]).
  left. reflexivity.
Defined.

(** ** The end of a query *)

Lemma mem_set {V} k k' (v : V) d :
  PyDict.mem k' (PyDict.set k v d) = String.eqb k' k || PyDict.mem k' d.
Proof.
  unfold PyDict.mem. destruct (String.eqb k' k) eqn:E.
  - apply String.eqb_eq in E. subst k'. by rewrite get_set_eq.
  - apply String.eqb_neq in E. rewrite get_set_ne by congruence. done.
Qed.

Lemma add_defaults_get metrics name :
  PyDict.wf metrics ->
  forall unit,
    PyDict.get name (Info.add_defaults metrics unit)
    = match PyDict.get name unit with
      | Some v => Some v
      | None => mjoin (PyDict.get name metrics)
      end.
Proof.
  unfold PyDict.wf, PyDict.keys.
  induction metrics as [|[n dflt] rest IH]; intros Hwf unit.
  - simpl. by destruct (PyDict.get name unit).
  - simpl in Hwf. apply NoDup_cons in Hwf as [Hnin Hwf].
    cbn [Info.add_defaults PyDict.get]. rewrite (IH Hwf).
    destruct (String.eqb name n) eqn:E.
    + apply String.eqb_eq in E. subst n.
      assert (PyDict.get name rest = None) as Hr.
      { apply get_None_keys. by rewrite <- list_elem_of_In. }
      rewrite Hr. destruct dflt as [v|]; simpl.
      * unfold PyDict.mem. destruct (PyDict.get name unit) eqn:Eu; [by rewrite Eu|].
        by rewrite get_set_eq.
      * by destruct (PyDict.get name unit).
    + apply String.eqb_neq in E. destruct dflt as [v|]; [|done].
      destruct (PyDict.mem n unit); [done|]. rewrite get_set_ne by congruence. done.
Qed.

Lemma tag_unit_get prefix stype unit name :
  PyDict.get name (Info.tag_unit prefix stype unit)
  = if String.eqb name "__type" && PyStr.truthy stype then Some (AStr stype)
    else if String.eqb name "__prefix" && PyStr.truthy prefix then Some (AStr prefix)
    else PyDict.get name unit.
Proof.
  unfold Info.tag_unit.
  destruct (String.eqb name "__type") eqn:E1; simpl.
  { apply String.eqb_eq in E1. subst name.
    destruct (PyStr.truthy stype); [apply get_set_eq|].
    destruct (PyStr.truthy prefix); [|done]. by rewrite get_set_ne. }
  apply String.eqb_neq in E1.
  destruct (PyStr.truthy stype); [rewrite get_set_ne by congruence|];
    (destruct (String.eqb name "__prefix") eqn:E2; simpl;
     [apply String.eqb_eq in E2; subst name;
      destruct (PyStr.truthy prefix); [apply get_set_eq|done]
     |apply String.eqb_neq in E2;
      destruct (PyStr.truthy prefix); [rewrite get_set_ne by congruence|]; done]).
Qed.

Lemma finish_units_get prefix stype metrics (raw : store) instance :
  PyDict.get instance (Info.finish_units prefix stype metrics raw)
  = option_map (fun unit => Info.add_defaults metrics (Info.tag_unit prefix stype unit))
      (PyDict.get instance raw).
Proof.
  induction raw as [|[k u] raw IH]; [done|]. simpl.
  destruct (String.eqb instance k); [done|apply IH].
Qed.

Lemma finish_units_keys prefix stype metrics (raw : store) :
  PyDict.keys (Info.finish_units prefix stype metrics raw) = PyDict.keys raw.
Proof.
  unfold PyDict.keys. induction raw as [|[k u] raw IH]; [done|]. simpl. by rewrite IH.
Qed.

Lemma update_get {V} (other : list (string * V)) :
  forall d k,
    PyDict.wf other ->
    PyDict.get k (PyDict.update d other)
    = match PyDict.get k other with Some v => Some v | None => PyDict.get k d end.
Proof.
  unfold PyDict.wf, PyDict.keys, PyDict.update.
  induction other as [|[k' v'] other IH]; intros d k Hwf; [done|].
  simpl in Hwf. apply NoDup_cons in Hwf as [Hnin Hwf].
  cbn [fold_left PyDict.get]. rewrite (IH _ _ Hwf).
  destruct (String.eqb k k') eqn:E.
  - apply String.eqb_eq in E. subst k'.
    assert (PyDict.get k other = None) as ->.
    { apply get_None_keys. by rewrite <- list_elem_of_In. }
    apply get_set_eq.
  - apply String.eqb_neq in E. destruct (PyDict.get k other); [done|].
    apply get_set_ne. congruence.
Qed.

(** X17: at the end of [query] a unit collected in [_raw] is in the
    store with every field it had, apart from the two tags, with the
    default of each metric it lacks and that has one, and with the
    prefix and the type that were passed. *)
Theorem query_defaults prefix stype metrics (raw dict : store) instance unit :
  PyDict.wf metrics -> PyDict.wf raw ->
  PyDict.get instance raw = Some unit ->
  exists unit',
    PyDict.get instance (snd (Info.finish_query prefix stype metrics raw dict)) = Some unit'
    /\ (forall name v, PyDict.get name unit = Some v ->
                       name <> "__prefix" -> name <> "__type" ->
                       PyDict.get name unit' = Some v)
    /\ (forall name, PyDict.get name unit = None ->
                     name <> "__prefix" -> name <> "__type" ->
                     PyDict.get name unit' = mjoin (PyDict.get name metrics))
    /\ (PyStr.truthy prefix = true -> PyDict.get "__prefix" unit' = Some (AStr prefix))
    /\ (PyStr.truthy stype = true -> PyDict.get "__type" unit' = Some (AStr stype)).
Proof.
  intros Hm Hraw Hu. unfold Info.finish_query. cbn [snd].
  rewrite update_get by (unfold PyDict.wf; by rewrite finish_units_keys).
  rewrite finish_units_get, Hu. simpl. eexists. split; [done|].
  split_and!.
  - intros name v Hv H1 H2. rewrite add_defaults_get, tag_unit_get by done.
    apply String.eqb_neq in H1, H2. by rewrite H1, H2, Hv.
  - intros name Hv H1 H2. rewrite add_defaults_get, tag_unit_get by done.
    apply String.eqb_neq in H1, H2. by rewrite H1, H2, Hv.
  - intros Hp. rewrite add_defaults_get, tag_unit_get by done. simpl. rewrite Hp.
    by destruct (PyStr.truthy stype).
  - intros Ht. rewrite add_defaults_get, tag_unit_get by done. simpl. by rewrite Ht.
Qed.

Lemma query_defaults_witness :
  exists unit',
    PyDict.get "node1"
      (snd (Info.finish_query "n" "node" [("load", Some (AInt 0)); ("x", None)]
              Sample.two_nodes []))
    = Some unit'
    /\ PyDict.get "load" unit' = Some (AInt 0)
    /\ PyDict.get "x" unit' = Some (AStr "1")
    /\ PyDict.get "__prefix" unit' = Some (AStr "n").
Proof.
  destruct (query_defaults "n" "node" [("load", Some (AInt 0)); ("x", None)]
              Sample.two_nodes [] "node1" [("x", AStr "1")])
    as (unit' & Hget & Hkept & Hdef & Hprefix & _).
  - wf_dict.
  - wf_dict.
  - reflexivity.
  - exists unit'. split; [exact Hget|]. split; [|split].
    + rewrite (Hdef "load" eq_refl); [reflexivity|discriminate|discriminate].
    + apply (Hkept "x" (AStr "1") eq_refl); discriminate.
    + apply Hprefix. reflexivity.
Defined.

(** ** Units that can be rendered *)

Lemma tagged_mono prefix stype (item item' : record) :
  (forall name, PyDict.mem name item = true -> PyDict.mem name item' = true) ->
  (PyStr.truthy prefix || PyDict.mem "__id" item || PyDict.mem "__prefix" item)
  && (PyStr.truthy stype || PyDict.mem "__type" item) = true ->
  (PyStr.truthy prefix || PyDict.mem "__id" item' || PyDict.mem "__prefix" item')
  && (PyStr.truthy stype || PyDict.mem "__type" item') = true.
Proof.
  intros Hm. rewrite !andb_true_iff, !orb_true_iff. intros [[[?|?]|?] [?|?]]; auto 6.
Qed.

Lemma mem_same_keys {V} (d d' : list (string * V)) name :
  PyDict.keys d' = PyDict.keys d -> PyDict.mem name d = true -> PyDict.mem name d' = true.
Proof. intros Hk. rewrite !mem_keys. by rewrite Hk. Qed.

Lemma modify_items_tagged prefix stype globals modify_dict (d : store) :
  forall skipped log,
    well_tagged prefix stype d = true ->
    well_tagged prefix stype
      (fst (fst (fst (Info.modify_items globals modify_dict d skipped log)))) = true.
Proof.
  induction d as [|[unitname item] d IH]; intros skipped log; [done|].
  cbn [Info.modify_items].
  pose proof (modify_item_keys globals modify_dict item skipped log) as Hk.
  destruct (Info.modify_item globals modify_dict item skipped log)
    as [[[item' skipped'] log'] r].
  simpl in Hk. unfold well_tagged in *. cbn [forallb fst snd].
  rewrite andb_true_iff. intros [Hitem Hrest].
  assert ((PyStr.truthy prefix || PyDict.mem "__id" item' || PyDict.mem "__prefix" item')
          && (PyStr.truthy stype || PyDict.mem "__type" item') = true) as Hitem'.
  { revert Hitem. apply tagged_mono. intros name. by apply mem_same_keys. }
  destruct r as [[]|e].
  - specialize (IH skipped' log' Hrest).
    destruct (Info.modify_items globals modify_dict d skipped' log')
      as [[[rest' skipped''] log''] r'].
    cbn [forallb fst snd] in *. by rewrite Hitem', IH.
  - cbn [forallb fst snd]. by rewrite Hitem', Hrest.
Qed.

Lemma del_forallb {V} (f : string * V -> bool) k d d' :
  PyDict.del k d = Some d' -> forallb f d = true -> forallb f d' = true.
Proof.
  revert d'. induction d as [|[k' v'] d IH]; intros d'; [done|].
  simpl. destruct (String.eqb k k').
  - intros [= <-]. rewrite andb_true_iff. tauto.
  - destruct (PyDict.del k d) as [r|]; [|done]. intros [= <-].
    simpl. rewrite !andb_true_iff. intros [? ?]. split; [done|]. by apply IH.
Qed.

Lemma del_each_forallb (f : string * record -> bool) l :
  forall d, forallb f d = true -> forallb f (fst (Info.del_each l d)) = true.
Proof.
  induction l as [|k l IH]; intros d Hd; [done|]. simpl.
  destruct (PyDict.del k d) as [d'|] eqn:E; [|done].
  apply IH. by apply (del_forallb f) in E.
Qed.

Lemma add_defaults_mem metrics name :
  forall unit, PyDict.mem name unit = true ->
               PyDict.mem name (Info.add_defaults metrics unit) = true.
Proof.
  induction metrics as [|[n dflt] rest IH]; intros unit Hm; [done|].
  cbn [Info.add_defaults]. apply IH. destruct dflt as [v|]; [|done].
  destruct (PyDict.mem n unit); [done|]. by rewrite mem_set, Hm, orb_true_r.
Qed.

Lemma update_forallb {V} (f : string * V -> bool) (other : list (string * V)) :
  forall d, forallb f d = true -> forallb f other = true ->
            forallb f (PyDict.update d other) = true.
Proof.
  assert (forall k v d, f (k, v) = true -> forallb f d = true ->
                        forallb f (PyDict.set k v d) = true) as Hset.
  { intros k v d Hkv. induction d as [|[k' v'] d IH]; simpl; [by rewrite Hkv|].
    destruct (String.eqb k k') eqn:E; simpl; rewrite !andb_true_iff.
    - apply String.eqb_eq in E. subst k'. tauto.
    - intros [? ?]. split; [done|]. by apply IH. }
  unfold PyDict.update. induction other as [|[k v] other IH]; intros d Hd Ho; [done|].
  simpl in *. apply andb_true_iff in Ho as [Hkv Ho]. apply IH; [|done]. by apply Hset.
Qed.

(** X18: after a [query] with a prefix and a type, every unit of the
    store has what [to_LML] looks up, if the units that were in the
    store before had: for a file for which [to_LML] without prefix
    and type completed on the store as it was, it completes on the
    store the query leaves. *)
Theorem query_units_renderable prefix stype metrics (raw dict : store) :
  PyStr.truthy prefix = true -> PyStr.truthy stype = true ->
  well_tagged EmptyString EmptyString dict = true ->
  well_tagged EmptyString EmptyString
    (snd (Info.finish_query prefix stype metrics raw dict)) = true
  /\ forall filename d0 out0,
      Info.to_LML filename EmptyString EmptyString dict = (d0, out0, Ok tt) ->
      exists d' out,
        Info.to_LML filename EmptyString EmptyString
          (snd (Info.finish_query prefix stype metrics raw dict)) = (d', out, Ok tt).
Proof.
  intros Hp Ht Hd.
  assert (well_tagged EmptyString EmptyString
            (snd (Info.finish_query prefix stype metrics raw dict)) = true) as Hw.
  { unfold Info.finish_query. cbn [snd]. apply update_forallb; [done|].
    unfold Info.finish_units. induction raw as [|[k u] raw IH]; [done|].
    cbn [List.map forallb fst snd]. rewrite IH, andb_true_r.
    assert (PyDict.mem "__prefix" (Info.add_defaults metrics (Info.tag_unit prefix stype u))
            = true) as H1.
    { apply add_defaults_mem. unfold Info.tag_unit. rewrite Hp, Ht.
      by rewrite !mem_set, orb_true_r. }
    assert (PyDict.mem "__type" (Info.add_defaults metrics (Info.tag_unit prefix stype u))
            = true) as H2.
    { apply add_defaults_mem. unfold Info.tag_unit. rewrite Hp, Ht. by rewrite mem_set. }
    by rewrite H1, H2, !orb_true_r. }
  split; [done|]. intros filename d0 out0 H.
  by apply (to_LML_same_file _ _ _ _ _ _ _ _ _ H).
Qed.

Lemma query_units_renderable_witness :
  exists d' out,
    Info.to_LML "out/a_LML.xml" EmptyString EmptyString
      (snd (Info.finish_query "n" "node" [("load", Some (AInt 0))] Sample.two_nodes []))
    = (d', out, Ok tt).
Proof.
  refine (proj2 (query_units_renderable "n" "node" [("load", Some (AInt 0))]
                   Sample.two_nodes [] eq_refl eq_refl eq_refl)
            "out/a_LML.xml"
            (fst (fst (Info.to_LML "out/a_LML.xml" EmptyString EmptyString [])))
            (snd (fst (Info.to_LML "out/a_LML.xml" EmptyString EmptyString [])))
            _).
  vm_compute. reflexivity.
Defined.

(** X19: [modify], [apply_pattern] and [map] keep what [to_LML] looks
    up: on a store whose units can all be written, each of them
    leaves such a store, whatever its outcome. *)
Theorem steps_keep_units_renderable prefix stype (d : store) :
  well_tagged prefix stype d = true ->
  (forall globals modify_dict,
     well_tagged prefix stype (fst (fst (Info.modify globals modify_dict d))) = true)
  /\ (forall compile exclude include,
        well_tagged prefix stype (fst (Info.apply_pattern compile exclude include d)) = true)
  /\ (forall mapping_dict,
        well_tagged prefix stype (fst (Info.map mapping_dict d)) = true).
Proof.
  intros Hw. split_and!.
  - intros globals modify_dict. unfold Info.modify.
    pose proof (modify_items_tagged prefix stype globals modify_dict d ∅ [] Hw) as H.
    destruct (Info.modify_items globals modify_dict d ∅ []) as [[[d' skipped] log] r].
    by destruct r.
  - intros compile exclude include. unfold Info.apply_pattern.
    destruct (Info.mark_all compile exclude include [] d); [|done].
    by apply del_each_forallb.
  - intros mapping_dict. by apply map_units_tagged.
Qed.

Lemma steps_keep_units_renderable_witness :
  well_tagged "n" "node" (fst (Info.map [("x", "load")] Sample.two_nodes)) = true.
Proof.
  exact (proj2 (proj2 (steps_keep_units_renderable "n" "node" Sample.two_nodes eq_refl))
           [("x", "load")]).
Defined.

(** ** Blocks of pairs *)

Lemma set_set {V} k (v v' : V) d : PyDict.set k v (PyDict.set k v' d) = PyDict.set k v d.
Proof.
  induction d as [|[k0 v0] d IH]; simpl.
  - by rewrite String.eqb_refl.
  - destruct (String.eqb k k0) eqn:E; simpl; rewrite E; [done|]. by rewrite IH.
Qed.

Lemma split_nonempty sep s : PyStr.split sep s <> [].
Proof.
  destruct s as [|c s]; simpl; [done|].
  destruct (Ascii.eqb c sep); [done|]. by destruct (PyStr.split sep s).
Qed.

Lemma split_app_sep sep a b :
  PyStr.split sep (a +:+ String sep b) = PyStr.split sep a ++ PyStr.split sep b.
Proof.
  induction a as [|c a IH]; simpl.
  - by rewrite Ascii.eqb_refl.
  - destruct (Ascii.eqb c sep); [by rewrite IH|].
    rewrite IH. pose proof (split_nonempty sep a).
    by destruct (PyStr.split sep a).
Qed.

Lemma split_prefix sep p s :
  forallb (fun c => negb (Ascii.eqb c sep)) (list_ascii_of_string p) = true ->
  PyStr.split sep (p +:+ s)
  = match PyStr.split sep s with
    | piece :: pieces => (p +:+ piece) :: pieces
    | [] => []
    end.
Proof.
  intros Hp. induction p as [|c p IH]; simpl in *.
  - by destruct (PyStr.split sep s).
  - apply andb_true_iff in Hp as [Hc Hp]. apply negb_true_iff in Hc.
    rewrite Hc, IH by done. pose proof (split_nonempty sep s).
    by destruct (PyStr.split sep s).
Qed.

Lemma split_whole sep s :
  forallb (fun c => negb (Ascii.eqb c sep)) (list_ascii_of_string s) = true ->
  PyStr.split sep s = [s].
Proof.
  intros Hs. rewrite <- (app_empty_r s) at 1. rewrite split_prefix by done.
  simpl. by rewrite app_empty_r.
Qed.

Lemma list_ascii_app s1 s2 :
  list_ascii_of_string (s1 +:+ s2) = list_ascii_of_string s1 ++ list_ascii_of_string s2.
Proof. induction s1 as [|c s1 IH]; simpl; [done|]. by rewrite IH. Qed.

Lemma word_app a b : word (a +:+ b) = word a && word b.
Proof. unfold word. by rewrite list_ascii_app, forallb_app. Qed.

Lemma key_word_word k : key_word k = true -> word k = true.
Proof.
  unfold key_word, word. induction (list_ascii_of_string k) as [|c l IH]; simpl; [done|].
  rewrite !andb_true_iff. intros [[H1 _] H2]. auto.
Qed.

Lemma word_without c s :
  PyStr.is_space c = true -> word s = true ->
  forallb (fun x => negb (Ascii.eqb x c)) (list_ascii_of_string s) = true.
Proof.
  intros Hc. unfold word. induction (list_ascii_of_string s) as [|x l IH]; simpl; [done|].
  rewrite !andb_true_iff. intros [Hx Hl]. split; [|auto].
  destruct (Ascii.eqb x c) eqn:E; [|done].
  apply Ascii.eqb_eq in E. subst x. by rewrite Hc in Hx.
Qed.

Lemma pair_text_word kv : plain_pair kv = true -> word (pair_text kv) = true.
Proof.
  unfold plain_pair, pair_text. intros [Hk Hv]%andb_true_iff.
  rewrite !word_app, (key_word_word _ Hk), Hv. done.
Qed.

Lemma pair_text_nonempty kv : pair_text kv <> EmptyString.
Proof. unfold pair_text. by destruct (fst kv). Qed.

Lemma line_text_cons kv kv' rest :
  line_text (kv :: kv' :: rest) = pair_text kv +:+ String " " (line_text (kv' :: rest)).
Proof. done. Qed.

Lemma line_text_nonempty pairs : pairs <> [] -> line_text pairs <> EmptyString.
Proof.
  destruct pairs as [|kv [|kv' rest]]; [done|..]; intros _.
  - apply pair_text_nonempty.
  - rewrite line_text_cons. pose proof (pair_text_nonempty kv).
    by destruct (pair_text kv).
Qed.

(** One space between two pairs is one piece each for [split]. *)
Lemma split_line_text pairs tail :
  forallb plain_pair pairs = true -> pairs <> [] ->
  PyStr.split " " (line_text pairs +:+ String " " tail)
  = List.map pair_text pairs ++ PyStr.split " " tail
  /\ PyStr.split " " (line_text pairs) = List.map pair_text pairs.
Proof.
  intros Hp Hne. induction pairs as [|kv [|kv' rest] IH]; [done|..].
  - simpl in Hp. apply andb_true_iff in Hp as [Hkv _].
    pose proof (word_without " " _ eq_refl (pair_text_word _ Hkv)) as Hw.
    cbn [line_text List.map]. split.
    + by rewrite split_app_sep, split_whole.
    + by rewrite split_whole.
  - cbn [forallb] in Hp. apply andb_true_iff in Hp as [Hkv Hp].
    pose proof (word_without " " _ eq_refl (pair_text_word _ Hkv)) as Hw.
    destruct (IH Hp) as [IH1 IH2]; [done|].
    rewrite line_text_cons. change (List.map pair_text (kv :: kv' :: rest))
      with (pair_text kv :: List.map pair_text (kv' :: rest)).
    split.
    + rewrite app_assoc3. cbn [String.append].
      rewrite split_app_sep, split_whole, IH1 by done. done.
    + rewrite split_app_sep, split_whole, IH2 by done. done.
Qed.

Lemma lstrip_spaces n s :
  PyStr.lstrip (PyStr.repeat " " n +:+ s) = PyStr.lstrip s.
Proof. induction n as [|n IH]; simpl; [done|]. apply IH. Qed.

Lemma lstrip_word w s :
  word w = true -> w <> EmptyString -> PyStr.lstrip (w +:+ s) = w +:+ s.
Proof.
  destruct w as [|c w]; [done|]. unfold word. simpl.
  intros [Hc _]%andb_true_iff _. apply negb_true_iff in Hc. by rewrite Hc.
Qed.

Lemma rstrip_word w : word w = true -> PyStr.rstrip w = w.
Proof.
  unfold word. induction w as [|c w IH]; simpl; [done|].
  intros [Hc Hw]%andb_true_iff. apply negb_true_iff in Hc.
  rewrite IH by done. destruct w; [by rewrite Hc|done].
Qed.

Lemma rstrip_app a b :
  PyStr.rstrip b = b -> b <> EmptyString -> PyStr.rstrip (a +:+ b) = a +:+ b.
Proof.
  intros Hb Hne. induction a as [|c a IH]; simpl; [done|].
  rewrite IH. destruct (a +:+ b) eqn:E; [|done].
  apply app_eq_empty in E as [_ ->]. done.
Qed.

Lemma rstrip_line_text pairs :
  forallb plain_pair pairs = true -> PyStr.rstrip (line_text pairs) = line_text pairs.
Proof.
  intros Hp. induction pairs as [|kv [|kv' rest] IH]; [done|..].
  - simpl in Hp. apply andb_true_iff in Hp as [Hkv _].
    cbn [line_text]. by apply rstrip_word, pair_text_word.
  - cbn [forallb] in Hp. apply andb_true_iff in Hp as [Hkv Hp].
    rewrite line_text_cons.
    change (String " " (line_text (kv' :: rest)))
      with (" " +:+ line_text (kv' :: rest)).
    rewrite <- app_assoc3. apply rstrip_app; [by apply IH|].
    by apply line_text_nonempty.
Qed.

Lemma lstrip_line_text n pairs tail :
  forallb plain_pair pairs = true -> pairs <> [] ->
  PyStr.lstrip (PyStr.repeat " " n +:+ line_text pairs +:+ tail) = line_text pairs +:+ tail.
Proof.
  intros Hp Hne. rewrite lstrip_spaces.
  destruct pairs as [|kv [|kv' rest]]; [done|..].
  - simpl in Hp. apply andb_true_iff in Hp as [Hkv _]. cbn [line_text].
    apply lstrip_word; [by apply pair_text_word|apply pair_text_nonempty].
  - cbn [forallb] in Hp. apply andb_true_iff in Hp as [Hkv Hp].
    rewrite line_text_cons, app_assoc3.
    apply lstrip_word; [by apply pair_text_word|apply pair_text_nonempty].
Qed.

Lemma strip_line_text n pairs :
  forallb plain_pair pairs = true -> pairs <> [] ->
  PyStr.strip (PyStr.repeat " " n +:+ line_text pairs) = line_text pairs.
Proof.
  intros Hp Hne. unfold PyStr.strip.
  rewrite <- (app_empty_r (line_text pairs)) at 1.
  rewrite lstrip_line_text, app_empty_r by done. by apply rstrip_line_text.
Qed.

Lemma no_newline_app a b :
  forallb (fun c => negb (Ascii.eqb c Re.newline)) (list_ascii_of_string (a +:+ b))
  = forallb (fun c => negb (Ascii.eqb c Re.newline)) (list_ascii_of_string a)
    && forallb (fun c => negb (Ascii.eqb c Re.newline)) (list_ascii_of_string b).
Proof. by rewrite list_ascii_app, forallb_app. Qed.

Lemma line_text_no_newline pairs :
  forallb plain_pair pairs = true ->
  forallb (fun c => negb (Ascii.eqb c Re.newline)) (list_ascii_of_string (line_text pairs))
  = true.
Proof.
  intros Hp. induction pairs as [|kv [|kv' rest] IH]; [done|..].
  - simpl in Hp. apply andb_true_iff in Hp as [Hkv _]. cbn [line_text].
    by apply (word_without Re.newline), pair_text_word.
  - cbn [forallb] in Hp. apply andb_true_iff in Hp as [Hkv Hp].
    rewrite line_text_cons, no_newline_app.
    rewrite (word_without Re.newline _ eq_refl (pair_text_word _ Hkv)).
    cbn [list_ascii_of_string forallb andb]. by rewrite IH.
Qed.

Lemma indent_no_newline n :
  forallb (fun c => negb (Ascii.eqb c Re.newline))
    (list_ascii_of_string (PyStr.repeat " " n)) = true.
Proof. induction n as [|n IH]; [done|]. simpl. by rewrite IH. Qed.

(** The lines of a block. *)
Lemma split_block n others :
  forallb (fun pairs => forallb plain_pair pairs) others = true ->
  forall line,
    forallb (fun c => negb (Ascii.eqb c Re.newline)) (list_ascii_of_string line) = true ->
    PyStr.split Re.newline (line +:+ lines_text n others)
    = line :: List.map (fun pairs => PyStr.repeat " " n +:+ line_text pairs) others.
Proof.
  unfold lines_text.
  induction others as [|pairs others IH]; intros Hall line Hline.
  - cbn [fold_right List.map]. rewrite app_empty_r. by apply split_whole.
  - cbn [forallb] in Hall. apply andb_true_iff in Hall as [Hp Hall].
    cbn [fold_right List.map]. cbn [nl String.append].
    rewrite split_app_sep, split_whole by done.
    rewrite <- app_assoc3, IH; [done|done|].
    by rewrite no_newline_app, indent_no_newline, line_text_no_newline.
Qed.

Lemma split_once_key k v :
  key_word k = true -> Info.split_once "=" (k +:+ String "=" v) = (k, Some v).
Proof.
  unfold key_word. induction k as [|c k IH]; simpl; [done|].
  intros [[_ Hc]%andb_true_iff Hk]%andb_true_iff. apply negb_true_iff in Hc.
  by rewrite Hc, IH.
Qed.

Lemma key_value_pair kv :
  plain_pair kv = true -> Info.key_value (pair_text kv) = Ok (fst kv, snd kv).
Proof.
  intros [Hk _]%andb_true_iff. unfold Info.key_value, pair_text.
  cbn [String.append]. by rewrite split_once_key.
Qed.

Lemma key_value_line kv rest :
  plain_pair kv = true ->
  exists value, Info.key_value (line_text (kv :: rest)) = Ok (fst kv, value).
Proof.
  intros [Hk _]%andb_true_iff. unfold Info.key_value.
  destruct rest as [|kv' rest].
  - cbn [line_text]. unfold pair_text. cbn [String.append].
    rewrite split_once_key by done. eauto.
  - rewrite line_text_cons. unfold pair_text at 1. rewrite !app_assoc3.
    cbn [String.append]. rewrite split_once_key by done. eauto.
Qed.

Lemma add_to_unit_found key value name raw item :
  PyDict.get name raw = Some item ->
  Info.add_to_unit key value (Some name) raw
  = Ok (PyDict.set name (Info.add_value key value item) raw).
Proof. intros H. unfold Info.add_to_unit, Info.unit_of. by rewrite H. Qed.

(** Plain pairs of the first line are stored one after the other. *)
Lemma first_pairs_plain unitname prefix stype line pairs pieces name :
  forallb (first_line_pair unitname) pairs = true ->
  forall raw item,
    PyDict.get name raw = Some item ->
    Info.first_pairs (Some unitname) prefix stype line
      (List.map pair_text pairs ++ pieces) (Some name) raw
    = Info.first_pairs (Some unitname) prefix stype line pieces (Some name)
        (PyDict.set name (add_pairs pairs item) raw).
Proof.
  induction pairs as [|kv pairs IH]; intros Hall raw item Hget.
  - cbn [List.map app add_pairs fold_left]. by rewrite set_same.
  - cbn [forallb] in Hall. apply andb_true_iff in Hall as [Hkv Hall].
    unfold first_line_pair in Hkv.
    apply andb_true_iff in Hkv as [[Hp Hu]%andb_true_iff Hj].
    apply negb_true_iff in Hu, Hj. apply String.eqb_neq in Hu.
    pose proof Hp as [Hk _]%andb_true_iff.
    cbn [List.map app Info.first_pairs]. unfold pair_text at 1. cbn [String.append].
    rewrite split_once_key by done.
    rewrite bool_decide_eq_false_2 by congruence.
    rewrite Hj, (add_to_unit_found _ _ _ _ _ Hget).
    rewrite (IH Hall _ _ (get_set_eq _ _ _)), set_set. done.
Qed.

Lemma line_pairs_plain line pairs name :
  forallb (fun kv => plain_pair kv && negb (String.eqb (fst kv) "Dist")) pairs = true ->
  forall raw item,
    PyDict.get name raw = Some item ->
    Info.line_pairs line (List.map pair_text pairs) (Some name) raw
    = (PyDict.set name (add_pairs pairs item) raw, Ok tt).
Proof.
  induction pairs as [|kv pairs IH]; intros Hall raw item Hget.
  - cbn [List.map Info.line_pairs add_pairs fold_left]. by rewrite set_same.
  - cbn [forallb] in Hall. apply andb_true_iff in Hall as [Hkv Hall].
    apply andb_true_iff in Hkv as [Hp Hd]. apply negb_true_iff in Hd.
    cbn [List.map Info.line_pairs]. rewrite key_value_pair by done.
    rewrite Hd, (add_to_unit_found _ _ _ _ _ Hget).
    rewrite (IH Hall _ _ (get_set_eq _ _ _)), set_set. done.
Qed.

Lemma other_line_plain pairs :
  other_line pairs = true -> forallb plain_pair pairs = true /\ pairs <> [].
Proof.
  destruct pairs as [|kv rest]; [done|]. unfold other_line.
  intros [_ Hall]%andb_true_iff. split; [|done].
  induction (kv :: rest) as [|x l IH]; [done|].
  cbn [forallb] in *. apply andb_true_iff in Hall as [[Hx _]%andb_true_iff Hl].
  by rewrite Hx, IH.
Qed.

Lemma other_lines_plain n others name :
  forallb other_line others = true ->
  forall raw item,
    PyDict.get name raw = Some item ->
    Info.other_lines
      (List.map PyStr.strip
         (List.map (fun pairs => PyStr.repeat " " n +:+ line_text pairs) others))
      (Some name) raw
    = (PyDict.set name (add_pairs (concat others) item) raw, Ok tt).
Proof.
  induction others as [|pairs others IH]; intros Hall raw item Hget.
  - cbn [List.map Info.other_lines concat add_pairs fold_left]. by rewrite set_same.
  - cbn [forallb] in Hall. apply andb_true_iff in Hall as [Hline Hall].
    destruct (other_line_plain _ Hline) as [Hp Hne].
    cbn [List.map Info.other_lines]. rewrite strip_line_text by done.
    pose proof (line_text_nonempty _ Hne) as Hne'.
    assert (PyStr.truthy (line_text pairs) = true) as ->.
    { by destruct (line_text pairs). }
    cbn [negb].
    destruct pairs as [|kv rest]; [done|].
    unfold other_line in Hline. apply andb_true_iff in Hline as [Hw Hd].
    apply negb_true_iff in Hw.
    assert (plain_pair kv = true) as Hkv.
    { cbn [forallb] in Hp. by apply andb_true_iff in Hp as [? _]. }
    destruct (key_value_line kv rest Hkv) as [value ->]. rewrite Hw.
    rewrite (proj2 (split_line_text (kv :: rest) EmptyString Hp Hne)).
    rewrite (line_pairs_plain _ _ _ Hd _ _ Hget).
    rewrite (IH Hall _ _ (get_set_eq _ _ _)), set_set.
    unfold add_pairs. cbn [concat]. by rewrite fold_left_app.
Qed.

Lemma first_line_plain unitname pairs :
  forallb (first_line_pair unitname) pairs = true -> forallb plain_pair pairs = true.
Proof.
  induction pairs as [|kv pairs IH]; [done|]. cbn [forallb].
  intros [Hkv Hall]%andb_true_iff. unfold first_line_pair in Hkv.
  apply andb_true_iff in Hkv as [[Hp _]%andb_true_iff _]. by rewrite Hp, IH.
Qed.

(** The first pair of a block names the unit. *)
Lemma first_pairs_unit unitname prefix stype line name pieces raw :
  key_word unitname = true ->
  Info.first_pairs (Some unitname) prefix stype line
    (pair_text (unitname, name) :: pieces) None raw
  = Info.first_pairs (Some unitname) prefix stype line pieces (Some name)
      (PyDict.set name
         (Info.add_value unitname (AStr name) (Info.new_unit prefix stype)) raw).
Proof.
  intros Hu. cbn [Info.first_pairs]. unfold pair_text. cbn [fst snd String.append].
  rewrite split_once_key by done. rewrite bool_decide_eq_true_2 by done.
  rewrite (add_to_unit_found _ _ _ _ _ (get_set_eq _ _ _)), set_set. done.
Qed.

(** X20: [parse_unit_block] reads back a block of pairs.  For a block
    whose first line starts with the pair of the unit and goes on
    with plain pairs, and whose other lines are indented lines of
    plain pairs, none of them a field that takes the rest of its line,
    the unit is stored under its name with the prefix and the type
    first and then every pair, in the order of the text. *)
Theorem parse_unit_block_reads_pairs indent unitname name pairs others prefix stype raw :
  key_word unitname = true -> word name = true ->
  forallb (first_line_pair unitname) pairs = true ->
  forallb other_line others = true ->
  Info.parse_unit_block (block_text indent ((unitname, name) :: pairs) others)
    (Some unitname) prefix stype raw
  = (PyDict.set name
       (add_pairs (concat others)
          (add_pairs ((unitname, name) :: pairs) (Info.new_unit prefix stype)))
       raw,
     Ok tt).
Proof.
  intros Hu Hname Hpairs Hothers.
  assert (forallb plain_pair ((unitname, name) :: pairs) = true) as Hfirst.
  { cbn [forallb]. unfold plain_pair at 1. cbn [fst snd].
    by rewrite Hu, Hname, (first_line_plain _ _ Hpairs). }
  assert (forallb (fun pairs => forallb plain_pair pairs) others = true) as Hplain.
  { clear -Hothers. induction others as [|l others IH]; [done|].
    cbn [forallb] in *. apply andb_true_iff in Hothers as [Hl Hothers].
    by rewrite (proj1 (other_line_plain _ Hl)), IH. }
  unfold Info.parse_unit_block, block_text.
  rewrite (split_block indent others Hplain _ (line_text_no_newline _ Hfirst)).
  cbn [hd tl].
  pose proof (strip_line_text 0 _ Hfirst ltac:(done)) as Hstrip.
  cbn [PyStr.repeat String.append] in Hstrip. rewrite Hstrip.
  rewrite (proj2 (split_line_text _ EmptyString Hfirst ltac:(done))).
  cbn [List.map]. rewrite first_pairs_unit by done.
  rewrite <- (app_nil_r (List.map pair_text pairs)).
  rewrite (first_pairs_plain _ _ _ _ _ _ _ Hpairs _ _ (get_set_eq _ _ _)), set_set.
  cbn [Info.first_pairs].
  rewrite (other_lines_plain _ _ _ Hothers _ _ (get_set_eq _ _ _)), set_set. done.
Qed.

Lemma parse_unit_block_reads_pairs_witness :
  Info.parse_unit_block
    (block_text 3 [("JobId", "7"); ("UserId", "ann(1000)")]
       [[("Partition", "batch"); ("NumNodes", "2")]; [("Power", EmptyString)]])
    (Some "JobId") "j" "job" []
  = (PyDict.set "7"
       (add_pairs
          (concat [[("Partition", "batch"); ("NumNodes", "2")]; [("Power", EmptyString)]])
          (add_pairs [("JobId", "7"); ("UserId", "ann(1000)")] (Info.new_unit "j" "job")))
       [],
     Ok tt).
Proof.
  apply (parse_unit_block_reads_pairs 3 "JobId" "7" [("UserId", "ann(1000)")]
           [[("Partition", "batch"); ("NumNodes", "2")]; [("Power", EmptyString)]]
           "j" "job" []); reflexivity.
Defined.

Lemma after_last_app p a s v :
  Info.after_last p s = Some v -> Info.after_last p (a +:+ s) = Some v.
Proof. intros H. induction a as [|c a IH]; simpl; [done|]. by rewrite IH. Qed.

Lemma after_last_none p s : PyStr.contains p s = false -> Info.after_last p s = None.
Proof.
  induction s as [|c s IH]; simpl.
  - rewrite orb_false_r. by intros ->.
  - intros [H1 H2]%orb_false_iff. by rewrite IH, H1.
Qed.

Lemma after_last_job_name job_name :
  PyStr.contains "JobName=" job_name = false ->
  Info.after_last "JobName=" ("JobName=" +:+ job_name) = Some job_name.
Proof.
  intros H.
  assert (PyStr.contains "JobName=" ("obName=" +:+ job_name) = false) as Hin by exact H.
  change ("JobName=" +:+ job_name) with (String "J" ("obName=" +:+ job_name)).
  cbn [Info.after_last]. rewrite (after_last_none _ _ Hin).
  change (String "J" ("obName=" +:+ job_name)) with ("JobName=" +:+ job_name).
  by rewrite startswith_app, drop_prefix.
Qed.

(** X21: the job name takes the rest of the first line.  After the
    pairs of the first line, [JobName=] and any text without a
    newline, without trailing white space and without a second
    [JobName=] is stored whole under [JobName], spaces and [=]
    included; the other lines are read as usual. *)
Theorem parse_unit_block_job_name indent unitname name pairs job_name others prefix stype raw :
  key_word unitname = true -> unitname <> "JobName" ->
  word name = true -> name <> EmptyString ->
  forallb (first_line_pair unitname) pairs = true ->
  forallb (fun c => negb (Ascii.eqb c Re.newline)) (list_ascii_of_string job_name) = true ->
  PyStr.contains "JobName=" job_name = false ->
  PyStr.rstrip job_name = job_name ->
  forallb other_line others = true ->
  Info.parse_unit_block
    (line_text ((unitname, name) :: pairs) +:+ " JobName=" +:+ job_name
     +:+ lines_text indent others)
    (Some unitname) prefix stype raw
  = (PyDict.set name
       (add_pairs (concat others)
          (PyDict.set "JobName" (AStr job_name)
             (add_pairs ((unitname, name) :: pairs) (Info.new_unit prefix stype))))
       raw,
     Ok tt).
Proof.
  intros Hu Hnj Hname Hne Hpairs Hnl Hjob Hrstrip Hothers.
  assert (forallb plain_pair ((unitname, name) :: pairs) = true) as Hfirst.
  { cbn [forallb]. unfold plain_pair at 1. cbn [fst snd].
    by rewrite Hu, Hname, (first_line_plain _ _ Hpairs). }
  assert (forallb (fun pairs => forallb plain_pair pairs) others = true) as Hplain.
  { clear -Hothers. induction others as [|l others IH]; [done|].
    cbn [forallb] in *. apply andb_true_iff in Hothers as [Hl Hothers].
    by rewrite (proj1 (other_line_plain _ Hl)), IH. }
  set (first := line_text ((unitname, name) :: pairs)) in *.
  set (line := first +:+ " JobName=" +:+ job_name).
  assert (PyStr.strip line = line) as Hstrip.
  { unfold PyStr.strip, line, first.
    pose proof (lstrip_line_text 0 _ (" JobName=" +:+ job_name) Hfirst ltac:(done)) as Hl.
    cbn [PyStr.repeat] in Hl. change (EmptyString +:+ ?s) with s in Hl. rewrite Hl.
    apply rstrip_app; [|done].
    destruct job_name as [|c job]; [done|].
    by apply (rstrip_app " JobName="). }
  assert (forallb (fun c => negb (Ascii.eqb c Re.newline)) (list_ascii_of_string line) = true)
    as Hline.
  { unfold line, first. rewrite !no_newline_app, line_text_no_newline, Hnl by done. done. }
  unfold Info.parse_unit_block.
  replace (first +:+ " JobName=" +:+ job_name +:+ lines_text indent others)
    with (line +:+ lines_text indent others)
    by (unfold line; by rewrite !app_assoc3).
  rewrite (split_block indent others Hplain _ Hline). cbn [hd tl]. rewrite Hstrip.
  unfold line at 2, first.
  change (" JobName=" +:+ job_name) with (String " " ("JobName=" +:+ job_name)).
  rewrite (proj1 (split_line_text _ ("JobName=" +:+ job_name) Hfirst ltac:(done))).
  rewrite (split_prefix " " "JobName=" job_name eq_refl).
  pose proof (split_nonempty " " job_name) as Hsplit.
  destruct (PyStr.split " " job_name) as [|piece pieces]; [done|]. clear Hsplit.
  cbn [List.map app]. rewrite first_pairs_unit by done.
  rewrite (first_pairs_plain _ _ _ _ _ _ _ Hpairs _ _ (get_set_eq _ _ _)), set_set.
  cbn [Info.first_pairs].
  change ("JobName=" +:+ piece) with ("JobName" +:+ String "=" piece).
  rewrite (split_once_key "JobName" piece eq_refl).
  rewrite bool_decide_eq_false_2 by congruence.
  rewrite String.eqb_refl. cbn [default id].
  assert (PyStr.truthy name = true) as -> by by destruct name.
  unfold line.
  change (first +:+ " JobName=" +:+ job_name)
    with (first +:+ " " +:+ "JobName=" +:+ job_name).
  rewrite <- app_assoc3.
  rewrite (after_last_app _ _ _ _ (after_last_job_name _ Hjob)).
  unfold Info.set_in_unit, Info.unit_of. rewrite get_set_eq. cbn [default id].
  rewrite set_set.
  rewrite (other_lines_plain _ _ _ Hothers _ _ (get_set_eq _ _ _)), set_set. done.
Qed.

Lemma parse_unit_block_job_name_witness :
  Info.parse_unit_block
    (line_text [("JobId", "7"); ("UserId", "ann(1000)")] +:+ " JobName=" +:+ "run a=1 b"
     +:+ lines_text 3 [[("Partition", "batch")]])
    (Some "JobId") "j" "job" []
  = (PyDict.set "7"
       (add_pairs (concat [[("Partition", "batch")]])
          (PyDict.set "JobName" (AStr "run a=1 b")
             (add_pairs [("JobId", "7"); ("UserId", "ann(1000)")]
                (Info.new_unit "j" "job"))))
       [],
     Ok tt).
Proof.
  apply (parse_unit_block_job_name 3 "JobId" "7" [("UserId", "ann(1000)")] "run a=1 b"
           [[("Partition", "batch")]] "j" "job" []);
    first [reflexivity | discriminate].
Defined.

(** ** deep_update *)

Lemma update_loop_cons upd key value rest target :
  BenchRepo.update_loop upd ((key, value) :: rest) target
  = match value with
    | VDict _ =>
        match upd (default (VDict []) (PyDict.get key target)) value with
        | Some v => BenchRepo.update_loop upd rest (PyDict.set key v target)
        | None => None
        end
    | VAtom _ => BenchRepo.update_loop upd rest (PyDict.set key value target)
    end.
Proof. reflexivity. Qed.

Lemma scalar_loop_cons meets bk bv rest a :
  scalar_loop meets ((bk, bv) :: rest) a
  = match PyDict.get bk a, bv with
    | Some (VAtom _), VDict _ => false
    | Some (VDict av), VDict _ =>
        meets av bv
        && scalar_loop meets rest (PyDict.set bk (VDict (Spec.deep_merge_into av bv)) a)
    | _, _ => scalar_loop meets rest (PyDict.set bk bv a)
    end.
Proof. reflexivity. Qed.

Lemma deep_update_dict t items :
  BenchRepo.deep_update (VDict t) (VDict items)
  = option_map VDict (BenchRepo.update_loop BenchRepo.deep_update items t).
Proof. reflexivity. Qed.

Lemma deep_merge_into_dict a items :
  Spec.deep_merge_into a (VDict items) = Spec.merge_loop Spec.deep_merge_into items a.
Proof. reflexivity. Qed.

Lemma no_scalar_meets_dict a items :
  no_scalar_meets a (VDict items) = scalar_loop no_scalar_meets items a.
Proof. reflexivity. Qed.

Lemma deep_wf_dict d :
  deep_wf (VDict d) = true <-> PyDict.wf d /\ Forall (fun kv => deep_wf (snd kv) = true) d.
Proof.
  cbn [deep_wf]. rewrite andb_true_iff, bool_decide_eq_true, forallb_forall, List.Forall_forall.
  done.
Qed.

Lemma set_fresh {V} k (v : V) d : PyDict.get k d = None -> PyDict.set k v d = d ++ [(k, v)].
Proof.
  induction d as [|[k' v'] d IH]; simpl; [done|].
  destruct (String.eqb k k'); [done|]. intros H. by rewrite IH.
Qed.

Lemma get_app_fresh {V} k (d : list (string * V)) k' v' :
  k <> k' -> PyDict.get k d = None -> PyDict.get k (d ++ [(k', v')]) = None.
Proof.
  intros Hne. induction d as [|[k1 v1] d IH]; simpl.
  - intros _. apply String.eqb_neq in Hne. by rewrite Hne.
  - destruct (String.eqb k k1); [done|apply IH].
Qed.

(** Updating an empty dictionary with a well-formed one copies it, and
    so does merging into an empty dictionary. *)
Lemma deep_update_copies v :
  deep_wf v = true ->
  match v with
  | VAtom _ => True
  | VDict d =>
      forall acc,
        (forall k, In k (PyDict.keys d) -> PyDict.get k acc = None) ->
        BenchRepo.update_loop BenchRepo.deep_update d acc = Some (acc ++ d)
        /\ Spec.merge_loop Spec.deep_merge_into d acc = acc ++ d
  end.
Proof.
  induction v as [a|d IH] using value_nested_ind; [done|].
  rewrite deep_wf_dict. intros [Hwf Hch].
  unfold PyDict.wf, PyDict.keys in *.
  induction d as [|[k v] d IHd]; intros acc Hacc.
  - by rewrite app_nil_r.
  - simpl in Hwf. apply NoDup_cons in Hwf as [Hnin Hwf].
    apply Forall_cons in IH as [IHv IH]. apply Forall_cons in Hch as [Hv Hch].
    simpl in IHv, Hv. specialize (IHd IH Hwf Hch).
    assert (PyDict.get k acc = None) as Hk by (apply Hacc; by left).
    assert (forall v', forall k0, In k0 (List.map fst d) ->
                                  PyDict.get k0 (acc ++ [(k, v')]) = None) as Hacc'.
    { intros v' k0 Hk0. apply get_app_fresh; [|apply Hacc; by right].
      intros ->. apply Hnin. by apply list_elem_of_In. }
    rewrite update_loop_cons, merge_loop_cons, Hk. cbn [default].
    destruct v as [a|ch].
    + rewrite set_fresh by done. destruct (IHd _ (Hacc' (VAtom a))) as [-> ->].
      by rewrite <- app_assoc.
    + specialize (IHv Hv). cbn in IHv.
      destruct (IHv [] (fun _ _ => eq_refl)) as [Hu _].
      rewrite deep_update_dict, Hu. cbn [option_map app].
      rewrite set_fresh by done. destruct (IHd _ (Hacc' (VDict ch))) as [-> ->].
      by rewrite <- app_assoc.
Qed.

Lemma deep_update_empty d :
  deep_wf (VDict d) = true -> BenchRepo.deep_update (VDict []) (VDict d) = Some (VDict d).
Proof.
  intros Hwf. destruct (deep_update_copies _ Hwf [] (fun _ _ => eq_refl)) as [H _].
  by rewrite deep_update_dict, H.
Qed.

Lemma deep_update_refines v :
  deep_wf v = true ->
  match v with
  | VAtom _ => True
  | VDict items =>
      forall a,
        no_scalar_meets a v = true ->
        BenchRepo.deep_update (VDict a) v = Some (VDict (Spec.deep_merge_into a v))
  end.
Proof.
  induction v as [x|items IH] using value_nested_ind; [done|].
  rewrite deep_wf_dict. intros [_ Hch] a.
  rewrite deep_update_dict, deep_merge_into_dict, no_scalar_meets_dict.
  intros Hm.
  enough (BenchRepo.update_loop BenchRepo.deep_update items a
          = Some (Spec.merge_loop Spec.deep_merge_into items a)) as -> by done.
  revert a Hm. induction items as [|[bk bv] rest IHr]; intros a Hm; [done|].
  apply Forall_cons in IH as [IHv IH]. apply Forall_cons in Hch as [Hv Hch].
  simpl in IHv, Hv. specialize (IHr IH Hch).
  rewrite update_loop_cons, merge_loop_cons. rewrite scalar_loop_cons in Hm.
  destruct bv as [x|ch].
  - destruct (PyDict.get bk a) as [[y|av]|]; by apply IHr.
  - destruct (PyDict.get bk a) as [[y|av]|] eqn:Eg; [done| |].
    + apply andb_true_iff in Hm as [Hm1 Hm2]. cbn [default id].
      rewrite (IHv Hv av Hm1). by apply IHr.
    + cbn [default id]. rewrite deep_update_empty by done. by apply IHr.
Qed.

(** X22: [deep_update] of a dictionary with a dictionary is their deep
    merge (a key of the override alone is added, two mappings are
    merged, otherwise the override wins), for an override with unique
    keys throughout and as long as no scalar of the target meets a
    mapping of the override on the way. *)
Theorem deep_update_is_deep_merge (a b : list (string * value)) :
  deep_wf (VDict b) = true ->
  no_scalar_meets a (VDict b) = true ->
  BenchRepo.deep_update (VDict a) (VDict b) = Some (VDict (Spec.deep_merge a b)).
Proof. intros Hwf. apply (deep_update_refines (VDict b) Hwf). Qed.

Lemma deep_update_is_deep_merge_witness :
  BenchRepo.deep_update
    (VDict [("footer", VDict [("a", VAtom (AStr "1"))])])
    (VDict [("footer", VDict [("b", VAtom (AStr "2"))])])
  = Some (VDict (Spec.deep_merge
                   [("footer", VDict [("a", VAtom (AStr "1"))])]
                   [("footer", VDict [("b", VAtom (AStr "2"))])])).
Proof.
  apply (deep_update_is_deep_merge
           [("footer", VDict [("a", VAtom (AStr "1"))])]
           [("footer", VDict [("b", VAtom (AStr "2"))])]).
  - vm_compute. reflexivity.
  - vm_compute. reflexivity.
Defined.

(** X23: a scalar of the target that meets a mapping of the override:
    [deep_update] fails on it (the scalar has no [get]), unless the
    mapping is empty, and then the scalar stays and the update goes
    on. *)
Theorem deep_update_scalar_meets_mapping (a rest : list (string * value)) key x items :
  PyDict.get key a = Some (VAtom x) ->
  BenchRepo.deep_update (VDict a) (VDict ((key, VDict items) :: rest))
  = match items with
    | [] => BenchRepo.deep_update (VDict a) (VDict rest)
    | _ :: _ => None
    end.
Proof.
  intros Hk. rewrite !deep_update_dict, update_loop_cons, Hk. cbn [default id].
  destruct items as [|kv items]; [|done].
  cbn [BenchRepo.deep_update]. by rewrite set_same.
Qed.

Lemma deep_update_scalar_meets_mapping_witness :
  BenchRepo.deep_update
    (VDict [("footer", VAtom (AStr "1"))])
    (VDict [("footer", VDict [("b", VAtom (AStr "2"))])])
  = None.
Proof.
  exact (deep_update_scalar_meets_mapping [("footer", VAtom (AStr "1"))] [] "footer"
           (AStr "1") [("b", VAtom (AStr "2"))] eq_refl).
Defined.

(** ** flatten_json *)

Lemma set_wf {V} k (v : V) d : PyDict.wf d -> PyDict.wf (PyDict.set k v d).
Proof.
  unfold PyDict.wf. rewrite keys_set. destruct (PyDict.mem k d) eqn:E; [done|].
  intros Hd. apply NoDup_app. split_and!; [done| |apply NoDup_singleton].
  intros k' Hk' Hk. apply list_elem_of_In in Hk'. apply list_elem_of_singleton in Hk. subst k'.
  apply mem_keys in Hk'. congruence.
Qed.

Lemma update_wf {V} (other d : list (string * V)) :
  PyDict.wf d -> PyDict.wf (PyDict.update d other).
Proof.
  unfold PyDict.update. revert d. induction other as [|[k v] other IH]; intros d Hd; [done|].
  simpl. apply IH. by apply set_wf.
Qed.

Lemma del_get {V} k k' (d d' : list (string * V)) :
  PyDict.wf d -> PyDict.del k d = Some d' ->
  PyDict.get k' d' = if String.eqb k' k then None else PyDict.get k' d.
Proof.
  intros Hwf Hdel. rewrite (del_filter _ _ _ Hwf Hdel). clear Hdel Hwf.
  induction d as [|[k1 v1] d IH]; simpl.
  - by destruct (String.eqb k' k).
  - destruct (String.eqb k k1) eqn:E1; simpl.
    + apply String.eqb_eq in E1. subst k1. rewrite IH.
      destruct (String.eqb k' k); done.
    + rewrite IH. destruct (String.eqb k' k1) eqn:E2; [|done].
      apply String.eqb_eq in E2. subst k1.
      destruct (String.eqb k' k) eqn:E3; [|done].
      apply String.eqb_eq in E3. subst k'. by rewrite String.eqb_refl in E1.
Qed.

Lemma flatten_results_rows job_info rs :
  flatten_results job_info (List.map JDict rs)
  = Ok (List.map (PyDict.update job_info) rs).
Proof. induction rs as [|r rs IH]; [done|]. simpl. by rewrite IH. Qed.

Lemma flatten_job_rows p j rs :
  PyDict.wf p -> PyDict.wf j -> Forall PyDict.wf rs ->
  PyDict.get "results" j = Some (JList (List.map JDict rs)) ->
  exists rows,
    flatten_job (JDict p) (JDict j) = Ok rows
    /\ Forall2 (fun r row => forall k, PyDict.get k row = flat_field p j r k) rs rows.
Proof.
  intros Hp Hj Hrs Hres. unfold flatten_job. cbn [as_dict].
  pose proof (update_wf j p Hp) as Hpj.
  assert (PyDict.get "results" (PyDict.update p j) = Some (JList (List.map JDict rs))) as Hg.
  { by rewrite update_get, Hres. }
  destruct (del_Some "results" (PyDict.update p j)) as [job_info Hdel].
  { change "results" with (fst ("results", JList (List.map JDict rs))).
    apply in_map. by apply get_Some_In. }
  rewrite Hdel, Hres. cbn [default id iterate]. rewrite flatten_results_rows.
  eexists. split; [done|]. clear Hres Hg.
  induction Hrs as [|r rs Hr Hrs IH]; constructor; [|done].
  intros k. rewrite update_get by done. unfold flat_field.
  destruct (PyDict.get k r); [done|].
  rewrite (del_get _ _ _ _ Hpj Hdel). destruct (String.eqb k "results"); [done|].
  by rewrite update_get.
Qed.

(** X24: [flatten_json] on a file with a pipeline and jobs that list
    their results gives one row per result, job by job in the order
    of the file; in a row a field of the result goes before the field
    of the job, which goes before that of the pipeline, and the
    [results] of the job are no field of it. *)
Theorem flatten_json_rows top p
  (jobs : list (list (string * json) * list (list (string * json)))) :
  PyDict.get "pipeline" top = Some (JDict p) -> PyDict.wf p ->
  PyDict.get "jobs" top = Some (JList (List.map (fun job => JDict (fst job)) jobs)) ->
  Forall (fun job =>
            PyDict.wf (fst job)
            /\ PyDict.get "results" (fst job) = Some (JList (List.map JDict (snd job)))
            /\ Forall PyDict.wf (snd job)) jobs ->
  exists rows,
    flatten_json (JDict top) = Ok rows
    /\ Forall2 (fun jr row => forall k, PyDict.get k row = flat_field p (fst jr) (snd jr) k)
         (flat_map (fun job => List.map (pair (fst job)) (snd job)) jobs) rows.
Proof.
  intros Hpipe Hp Hjobs Hall. unfold flatten_json. cbn [as_dict].
  rewrite Hpipe, Hjobs. cbn [iterate]. clear Hpipe Hjobs.
  induction jobs as [|[j rs] jobs IH].
  - exists []. split; [done|]. constructor.
  - apply Forall_cons in Hall as [(Hj & Hres & Hrs) Hall]. simpl in Hj, Hres, Hrs.
    destruct (flatten_job_rows p j rs Hp Hj Hrs Hres) as (rows1 & H1 & Hf1).
    destruct (IH Hall) as (rows2 & H2 & Hf2).
    cbn [List.map flatten_jobs fst snd flat_map]. rewrite H1, H2.
    eexists. split; [done|]. apply Forall2_app; [|done].
    clear -Hf1. induction Hf1; constructor; done.
Qed.

Lemma flatten_json_rows_witness :
  exists rows,
    flatten_json (JDict Sample.pipeline_file) = Ok rows
    /\ Forall2 (fun jr row =>
                  forall k,
                    PyDict.get k row
                    = flat_field [("id", JAtom (AInt 7))] (fst jr) (snd jr) k)
         (flat_map (fun job => List.map (pair (fst job)) (snd job)) Sample.pipeline_jobs)
         rows.
Proof.
  apply (flatten_json_rows Sample.pipeline_file [("id", JAtom (AInt 7))]
           Sample.pipeline_jobs).
  - reflexivity.
  - wf_dict.
  - reflexivity.
  - repeat constructor; wf_dict.
Defined.

(** X25: a job without [results]: [flatten_json] raises [KeyError] on
    it, from the [pop], although the next line reads the results with
    a default; only when the pipeline has a [results] entry of its own
    the job passes, with no rows. *)
Theorem flatten_job_without_results p j :
  PyDict.wf p -> PyDict.wf j ->
  PyDict.get "results" j = None ->
  flatten_job (JDict p) (JDict j)
  = match PyDict.get "results" p with
    | None => Raise (KeyError "results")
    | Some _ => Ok []
    end.
Proof.
  intros Hp Hj Hres. unfold flatten_job. cbn [as_dict].
  pose proof (update_wf j p Hp) as Hpj.
  assert (PyDict.get "results" (PyDict.update p j) = PyDict.get "results" p) as Hg.
  { by rewrite update_get, Hres. }
  destruct (PyDict.get "results" p) as [v|] eqn:E.
  - destruct (del_Some "results" (PyDict.update p j)) as [job_info Hdel].
    { change "results" with (fst ("results", v)). apply in_map. by apply get_Some_In. }
    by rewrite Hdel, Hres.
  - assert (PyDict.del "results" (PyDict.update p j) = None) as ->; [|done].
    apply del_None. by apply get_None_keys.
Qed.

Lemma flatten_job_without_results_witness :
  flatten_job (JDict [("id", JAtom (AInt 7))]) (JDict [("name", JAtom (AStr "build"))])
  = Raise (KeyError "results").
Proof.
  apply (flatten_job_without_results [("id", JAtom (AInt 7))]
           [("name", JAtom (AStr "build"))]).
  - wf_dict.
  - wf_dict.
  - reflexivity.
Defined.

(** ** Grouping by index *)

Lemma py_eqb_refl a : py_eqb a a = true.
Proof. destruct a as [s|z|[|]|]; simpl; auto using String.eqb_refl, Z.eqb_refl. Qed.

Lemma py_eqb_sym a b : py_eqb a b = py_eqb b a.
Proof.
  destruct a as [s|z|[|]|], b as [t|y|[|]|]; simpl;
    auto using String.eqb_sym, Z.eqb_sym.
Qed.

Lemma py_eqb_trans a b c : py_eqb a b = true -> py_eqb b c = true -> py_eqb a c = true.
Proof.
  unfold py_eqb.
  destruct a as [s|z|[|]|], b as [t|y|[|]|], c as [u|x|[|]|];
    cbn [atom_num]; try discriminate; try reflexivity;
    rewrite ?String.eqb_eq, ?Z.eqb_eq; intros H1 H2; subst; try done; try lia.
Qed.

Section Grouping.
Variable default_map : record.
Variable index_key : string.

#[local] Abbreviation idx rec := (Files._get_value_with_default default_map rec index_key).

Lemma group_append_spec key_val rec groups :
  (exists i k recs,
      groups !! i = Some (k, recs) /\ py_eqb key_val k = true
      /\ (forall j g, (j < i)%nat -> groups !! j = Some g -> py_eqb key_val (fst g) = false)
      /\ Files.group_append key_val rec groups = <[i := (k, recs ++ [rec])]> groups)
  \/ ((forall g, In g groups -> py_eqb key_val (fst g) = false)
      /\ Files.group_append key_val rec groups = groups ++ [(key_val, [rec])]).
Proof.
  induction groups as [|[k recs] groups IH]; [by right|].
  cbn [Files.group_append]. destruct (py_eqb key_val k) eqn:E.
  - left. exists 0%nat, k, recs. split_and!; [done|done| |done]. intros j g Hj. lia.
  - destruct IH as [(i & k' & recs' & Hi & Hk & Hbefore & ->)|[Hnone ->]].
    + left. exists (S i), k', recs'. split_and!; [done|done| |done].
      intros [|j] g Hj; simpl; [by intros [= <-]|]. apply Hbefore. lia.
    + right. split; [|done]. intros g [<-|Hg]; [done|by apply Hnone].
Qed.

Lemma group_by_index_snoc l r :
  Files.group_by_index default_map index_key (l ++ [r])
  = if is_none (idx r) then Files.group_by_index default_map index_key l
    else Files.group_append (idx r) r (Files.group_by_index default_map index_key l).
Proof. unfold Files.group_by_index. by rewrite fold_left_app. Qed.

Lemma list_filter_snoc {A} (f : A -> bool) l x :
  List.filter f (l ++ [x]) = List.filter f l ++ (if f x then [x] else []).
Proof. rewrite List.filter_app. simpl. by destruct (f x). Qed.

Lemma group_by_index_grouped records :
  grouped default_map index_key
    (Files.group_by_index default_map index_key records) records.
Proof.
  induction records as [|r l IH] using rev_ind.
  - split_and!; [done|done|]. by intros rec [].
  - rewrite group_by_index_snoc. destruct IH as (Ha & Hb & Hc).
    set (groups := Files.group_by_index default_map index_key l) in *.
    destruct (is_none (idx r)) eqn:En.
    { split_and!; [done| |].
      - intros i k recs Hi. destruct (Hb _ _ _ Hi) as (H1 & H2 & H3).
        split_and!; [done|done|]. rewrite list_filter_snoc. cbn beta.
        rewrite En. simpl. by rewrite app_nil_r.
      - intros rec Hin Hn. apply in_app_iff in Hin as [Hin|[<-|[]]]; [by apply Hc|].
        congruence. }
    destruct (group_append_spec (idx r) r groups)
      as [(i & k & recs & Hi & Hk & Hbefore & ->)|[Hnone ->]].
    + assert (i < length groups)%nat as Hlen by (by apply lookup_lt_Some in Hi).
      assert (forall j kj recsj,
                <[i:=(k, recs ++ [r])]> groups !! j = Some (kj, recsj) ->
                exists recs0, groups !! j = Some (kj, recs0)
                              /\ (j = i /\ kj = k /\ recs0 = recs /\ recsj = recs ++ [r]
                                  \/ j <> i /\ recsj = recs0)) as Hins.
      { intros j kj recsj Hj. destruct (decide (j = i)) as [->|Hne].
        - rewrite list_lookup_insert_eq in Hj by done. injection Hj as <- <-.
          exists recs. split; [done|]. left. done.
        - rewrite list_lookup_insert_ne in Hj by done. exists recsj. split; [done|].
          right. done. }
      split_and!.
      * intros j1 j2 k1 recs1 k2 recs2 H1 H2 Hne.
        destruct (Hins _ _ _ H1) as (r1 & H1' & _), (Hins _ _ _ H2) as (r2 & H2' & _).
        by apply (Ha j1 j2 k1 r1 k2 r2).
      * intros j kj recsj Hj.
        destruct (Hins _ _ _ Hj) as (recs0 & Hj0 & [(-> & -> & -> & ->)|(Hne & ->)]).
        -- destruct (Hb _ _ _ Hj0) as (H1 & H2 & H3).
           split_and!; [done|by destruct recs|].
           rewrite list_filter_snoc. cbn beta. rewrite En, Hk. simpl. by rewrite <- H3.
        -- destruct (Hb _ _ _ Hj0) as (H1 & H2 & H3).
           split_and!; [done|done|].
           rewrite list_filter_snoc. cbn beta. rewrite En. simpl.
           destruct (py_eqb (idx r) kj) eqn:Ekj; [|by rewrite app_nil_r].
           exfalso. assert (py_eqb k kj = true) as Hkk.
           { apply (py_eqb_trans _ (idx r)); [by rewrite py_eqb_sym|done]. }
           by rewrite (Ha i j k recs kj recs0) in Hkk.
      * intros rec Hin Hn. apply in_app_iff in Hin as [Hin|[<-|[]]].
        -- destruct (Hc rec Hin Hn) as (j & kj & recsj & Hj & Hkj).
           destruct (decide (j = i)) as [->|Hne].
           ++ exists i, k, (recs ++ [r]). rewrite list_lookup_insert_eq by done.
              split; [done|]. congruence.
           ++ exists j, kj, recsj. by rewrite list_lookup_insert_ne.
        -- exists i, k, (recs ++ [r]). by rewrite list_lookup_insert_eq.
    + assert (forall j kj recsj, groups !! j = Some (kj, recsj) ->
                                 py_eqb (idx r) kj = false) as Hnone'.
      { intros j kj recsj Hj. apply (Hnone (kj, recsj)).
        apply list_elem_of_In, list_elem_of_lookup. eauto. }
      assert (forall rec, In rec l -> is_none (idx rec) = false ->
                          py_eqb (idx rec) (idx r) = false) as Hfresh.
      { intros rec Hin Hn. destruct (py_eqb (idx rec) (idx r)) eqn:E; [|done].
        destruct (Hc rec Hin Hn) as (j & kj & recsj & Hj & Hkj).
        assert (py_eqb (idx r) kj = true) as Hr.
        { apply (py_eqb_trans _ (idx rec)); [by rewrite py_eqb_sym|done]. }
        by rewrite (Hnone' _ _ _ Hj) in Hr. }
      split_and!.
      * intros j1 j2 k1 recs1 k2 recs2 H1 H2 Hne.
        apply lookup_app_Some in H1 as [H1|[Hl1 H1]], H2 as [H2|[Hl2 H2]].
        -- by apply (Ha j1 j2 k1 recs1 k2 recs2).
        -- apply list_lookup_singleton_Some in H2 as [_ [= <- <-]].
           rewrite py_eqb_sym. by apply (Hnone' _ _ _ H1).
        -- apply list_lookup_singleton_Some in H1 as [_ [= <- <-]].
           by apply (Hnone' _ _ _ H2).
        -- apply list_lookup_singleton_Some in H1 as [? _], H2 as [? _]. lia.
      * intros j kj recsj Hj. apply lookup_app_Some in Hj as [Hj|[Hl Hj]].
        -- destruct (Hb _ _ _ Hj) as (H1 & H2 & H3).
           split_and!; [done|done|]. rewrite list_filter_snoc. cbn beta. rewrite En.
           rewrite (Hnone' _ _ _ Hj). simpl. by rewrite app_nil_r.
        -- apply list_lookup_singleton_Some in Hj as [_ [= <- <-]].
           split_and!; [done|done|]. rewrite list_filter_snoc. cbn beta.
           rewrite En, py_eqb_refl. simpl.
           assert (List.filter
                     (fun rec => negb (is_none (idx rec)) && py_eqb (idx rec) (idx r)) l
                   = []) as ->; [|done].
           clear -Hfresh. induction l as [|x l IHl]; [done|]. simpl.
           destruct (is_none (idx x)) eqn:Ex; simpl.
           ++ apply IHl. intros rec Hin. apply Hfresh. by right.
           ++ rewrite (Hfresh x) by (done || by left).
              apply IHl. intros rec Hin. apply Hfresh. by right.
      * intros rec Hin Hn. apply in_app_iff in Hin as [Hin|[<-|[]]].
        -- destruct (Hc rec Hin Hn) as (j & kj & recsj & Hj & Hkj).
           exists j, kj, recsj. split; [|done]. apply lookup_app_Some. by left.
        -- exists (length groups), (idx r), [r]. split; [|apply py_eqb_refl].
           apply lookup_app_Some. right. split; [lia|]. by rewrite Nat.sub_diag.
Qed.

End Grouping.

(** ** The filters of the file parser *)

(** X26: a filter of the file parser given as one pattern is a search:
    it matches when the pattern compiles and matches somewhere in the
    text of the value.  An exclude filter then drops the value and an
    include filter keeps it.  Without a filter the value is kept; an
    empty list of patterns keeps it as exclude and drops it as
    include. *)
Theorem files_filter_is_search compile (value : atom) (p : string) :
  let occurs :=
    exists r, compile p = Some r
              /\ exists before m rest,
                  py_str value = before +:+ m +:+ rest /\ Re.matches r m in
  (Files._apply_filter_pattern compile value (FStr p) Exclude = false <-> occurs)
  /\ (Files._apply_filter_pattern compile value (FStr p) Include = true <-> occurs)
  /\ Files._apply_filter_pattern compile value FNone Exclude = true
  /\ Files._apply_filter_pattern compile value FNone Include = true
  /\ Files._apply_filter_pattern compile value (FList []) Exclude = true
  /\ Files._apply_filter_pattern compile value (FList []) Include = false.
Proof.
  intros occurs.
  assert (Files.match_found compile [p] (py_str value) = true <-> occurs) as H.
  { unfold occurs. cbn [Files.match_found]. destruct (compile p) as [r|].
    - destruct (Re.search r (py_str value)) eqn:E.
      + apply search_spec in E. split; [eauto|done].
      + split; [done|]. intros (r' & [= <-] & Hm). apply search_spec in Hm. congruence.
    - split; [done|]. by intros (r & ? & _). }
  unfold Files._apply_filter_pattern.
  split_and!; [by rewrite negb_false_iff|done..].
Qed.

(** ** The rows of file mode *)

Section FileRows.
Variable py_float : atom -> option float.
Variable py_sum : list float -> float.
Variable repr_float : float -> string.
Variable format_atom : string -> atom -> result string.
Variable format_float : string -> float -> result string.
Variable default_map : record.
Variable metrics_definitions : list metric_def.

Lemma build_rows_rows index_key fields groups rows :
  Files.build_rows py_float py_sum repr_float format_atom format_float default_map
    metrics_definitions index_key fields groups = Ok rows ->
  Forall2
    (fun g row =>
       Files.build_row py_float py_sum repr_float format_atom format_float default_map
         metrics_definitions index_key (fst g) (snd g) fields [] = Ok row)
    groups rows.
Proof.
  revert rows. induction groups as [|[k recs] groups IH]; intros rows.
  - intros [= <-]. constructor.
  - cbn [Files.build_rows].
    destruct (Files.build_row _ _ _ _ _ _ _ index_key k recs fields []) as [row|] eqn:E;
      [|done].
    destruct (Files.build_rows _ _ _ _ _ _ _ index_key fields groups) as [rows'|]; [|done].
    intros [= <-]. constructor; [done|]. by apply IH.
Qed.

(** X27: in file mode, when the rows are built, the headers are the
    columns of the specification and there is one row per group of
    records, built from that group: the groups have different index
    values, none is empty, each holds in their order the records with
    its index value, and every record with an index value is in
    one. *)
Theorem output_mode_file_groups index_key fields (all_records : list record) rows headers :
  Files._output_mode_file py_float py_sum repr_float format_atom format_float default_map
    metrics_definitions index_key fields all_records = Ok (rows, headers) ->
  headers = PyDict.keys fields
  /\ exists groups,
      grouped default_map index_key groups all_records
      /\ Forall2
           (fun g row =>
              Files.build_row py_float py_sum repr_float format_atom format_float
                default_map metrics_definitions index_key (fst g) (snd g) fields []
              = Ok row)
           groups rows.
Proof.
  unfold Files._output_mode_file.
  destruct (Files.build_rows _ _ _ _ _ _ _ index_key fields _) as [output_rows|] eqn:E;
    [|done].
  intros [= <- <-]. split; [done|].
  exists (Files.group_by_index default_map index_key all_records).
  split; [apply group_by_index_grouped|]. by apply build_rows_rows.
Qed.
End FileRows.

Lemma output_mode_file_groups_witness :
  ["avg_v"] = PyDict.keys [("avg_v", Sample.avg_column)].
Proof.
  exact (proj1 (output_mode_file_groups Sample.float_of_atom Sample.sum_floats
                  Sample.str_of_float Sample.format_plain Sample.format_plain_float [] []
                  "idx" [("avg_v", Sample.avg_column)] Sample.avg_records
                  [[("avg_v", AStr "15.0")]] ["avg_v"] eq_refl)).
Defined.

(** ** Entry mode *)

Section EntryRows.
Variable default_map : record.
Variable index_key : string.

#[local] Abbreviation idx rec := (Files._get_value_with_default default_map rec index_key).

Lemma count_entry_times key counters :
  snd (Files.count_entry key counters) = S (times key counters)
  /\ forall k,
      times k (fst (Files.count_entry key counters))
      = if py_eqb k key then S (times k counters) else times k counters.
Proof.
  induction counters as [|[k0 n0] rest [IH1 IH2]].
  - split; [done|]. intros k. simpl. by destruct (py_eqb k key).
  - cbn [Files.count_entry times]. destruct (py_eqb key k0) eqn:E.
    + split; [done|]. intros k. cbn [fst times].
      destruct (py_eqb k k0) eqn:E1, (py_eqb k key) eqn:E2; try done.
      * rewrite (py_eqb_trans k k0 key) in E2; [done|done|by rewrite py_eqb_sym].
      * by rewrite (py_eqb_trans k key k0) in E1.
    + destruct (Files.count_entry key rest) as [rest' c]. cbn [fst snd] in *.
      split; [done|]. intros k. cbn [times].
      destruct (py_eqb k k0) eqn:E1; [|apply IH2].
      destruct (py_eqb k key) eqn:E2; [|done].
      rewrite (py_eqb_trans key k k0) in E; [done|by rewrite py_eqb_sym|done].
Qed.

Lemma occurrences_snoc rec seen :
  occurrences default_map index_key rec (seen ++ [rec])
  = S (occurrences default_map index_key rec seen).
Proof.
  unfold occurrences. rewrite List.filter_app, length_app. simpl.
  rewrite py_eqb_refl. simpl. lia.
Qed.

Lemma entry_rows_spec is_xml fields all_records :
  forall counters seen,
    (forall rec, times (idx rec) counters = occurrences default_map index_key rec seen) ->
    length (Files.entry_rows default_map is_xml index_key fields all_records counters)
    = length (with_entry default_map is_xml index_key all_records)
    /\ forall i rec,
        with_entry default_map is_xml index_key all_records !! i = Some rec ->
        Files.entry_rows default_map is_xml index_key fields all_records counters !! i
        = Some (Files.entry_row default_map index_key rec
                  (py_str (idx rec) +:+ "_"
                   +:+ PyStr.of_Z
                         (Z.of_nat
                            (occurrences default_map index_key rec
                               (seen ++ take (S i)
                                          (with_entry default_map is_xml index_key
                                             all_records)))))
                  fields [("__lml_object_name__", idx rec)]).
Proof.
  induction all_records as [|rec0 rest IH]; intros counters seen Hinv; [done|].
  cbn [Files.entry_rows]. unfold with_entry. cbn [List.filter].
  fold (with_entry default_map is_xml index_key rest).
  destruct (is_none (idx rec0) && negb is_xml) eqn:Eskip; cbn [negb].
  - by apply IH.
  - destruct (count_entry_times (idx rec0) counters) as [Hn Hc].
    destruct (Files.count_entry (idx rec0) counters) as [counters' n].
    cbn [fst snd] in *. subst n.
    destruct (IH counters' (seen ++ [rec0])) as [Hlen Hrows].
    { intros rec. rewrite Hc, Hinv. unfold occurrences.
      rewrite List.filter_app, length_app. simpl.
      destruct (py_eqb (idx rec) (idx rec0)); simpl; lia. }
    split; [simpl; by rewrite Hlen|].
    intros [|i] rec; simpl.
    + intros [= <-]. rewrite Hinv, occurrences_snoc. done.
    + intros Hi. rewrite (Hrows _ _ Hi). by rewrite <- app_assoc.
Qed.

End EntryRows.

Lemma entry_row_get default_map index_key rec id fields col :
  PyDict.wf fields ->
  forall row,
    PyDict.get col (Files.entry_row default_map index_key rec id fields row)
    = match PyDict.get col fields with
      | Some i =>
          match Files.entry_column default_map index_key rec id col i with
          | Some v => Some v
          | None => PyDict.get col row
          end
      | None => PyDict.get col row
      end.
Proof.
  unfold PyDict.wf, PyDict.keys. induction fields as [|[c i] fields IH]; intros Hwf row; [done|].
  simpl in Hwf. apply NoDup_cons in Hwf as [Hnin Hwf].
  cbn [Files.entry_row PyDict.get]. rewrite (IH Hwf).
  destruct (String.eqb col c) eqn:E.
  - apply String.eqb_eq in E. subst c.
    assert (PyDict.get col fields = None) as ->.
    { apply get_None_keys. by rewrite <- list_elem_of_In. }
    destruct (Files.entry_column default_map index_key rec id col i); [|done].
    apply get_set_eq.
  - apply String.eqb_neq in E.
    destruct (Files.entry_column default_map index_key rec id c i).
    + rewrite get_set_ne by congruence. done.
    + done.
Qed.

Lemma output_mode_entry_spec default_map is_xml index_key fields
  (all_records : list record) :
  let entries := with_entry default_map is_xml index_key all_records in
  let rows := fst (Files._output_mode_entry default_map is_xml index_key fields all_records) in
  length rows = length entries
  /\ forall i rec,
      entries !! i = Some rec ->
      rows !! i
      = Some (Files.entry_row default_map index_key rec
                (py_str (Files._get_value_with_default default_map rec index_key) +:+ "_"
                 +:+ PyStr.of_Z
                       (Z.of_nat (occurrences default_map index_key rec
                                    (take (S i) entries))))
                fields
                [("__lml_object_name__",
                  Files._get_value_with_default default_map rec index_key)]).
Proof.
  intros entries rows. unfold rows, Files._output_mode_entry. cbn [fst].
  apply (entry_rows_spec default_map index_key is_xml fields all_records [] []).
  done.
Qed.

(** X28: in entry mode there is one row per record that has an entry
    (every record for an LML file, else those with an index value),
    in their order.  In the row a column with a source has the value
    of the record, with its default; a column with a static value has
    that value; the index column without either has the index value
    and the count of the records so far with that value; and
    [__lml_object_name__] holds the index value unless it is a column
    of its own. *)
Theorem output_mode_entry_rows default_map is_xml index_key fields
  (all_records : list record) :
  PyDict.wf fields ->
  let entries := with_entry default_map is_xml index_key all_records in
  let rows := fst (Files._output_mode_entry default_map is_xml index_key fields all_records) in
  length rows = length entries
  /\ forall i rec,
      entries !! i = Some rec ->
      exists row,
        rows !! i = Some row
        /\ (forall col ins source,
              PyDict.get col fields = Some ins -> i_source ins = Some source ->
              PyDict.get col row
              = Some (Files._get_value_with_default default_map rec source))
        /\ (forall col ins v,
              PyDict.get col fields = Some ins ->
              i_source ins = None -> i_static ins = Some v ->
              PyDict.get col row = Some v)
        /\ (forall ins,
              PyDict.get index_key fields = Some ins ->
              i_source ins = None -> i_static ins = None ->
              PyDict.get index_key row
              = Some (AStr (py_str (Files._get_value_with_default default_map rec index_key)
                            +:+ "_"
                            +:+ PyStr.of_Z
                                  (Z.of_nat (occurrences default_map index_key rec
                                               (take (S i) entries))))))
        /\ (PyDict.get "__lml_object_name__" fields = None ->
            PyDict.get "__lml_object_name__" row
            = Some (Files._get_value_with_default default_map rec index_key)).
Proof.
  intros Hwf entries rows.
  destruct (output_mode_entry_spec default_map is_xml index_key fields all_records)
    as [Hlen Hrows].
  split; [done|]. intros i rec Hi. eexists. split; [by apply Hrows|].
  split_and!.
  - intros col ins source Hcol Hs. rewrite entry_row_get, Hcol by done.
    unfold Files.entry_column. by rewrite Hs.
  - intros col ins v Hcol Hs Hv. rewrite entry_row_get, Hcol by done.
    unfold Files.entry_column. by rewrite Hs, Hv.
  - intros ins Hcol Hs Hv. rewrite entry_row_get, Hcol by done.
    unfold Files.entry_column. by rewrite Hs, Hv, String.eqb_refl.
  - intros Hcol. by rewrite entry_row_get, Hcol by done.
Qed.

Lemma output_mode_entry_rows_witness :
  length (fst (Files._output_mode_entry [] false "idx" [("avg_v", Sample.avg_column)]
                 Sample.avg_records))
  = length (with_entry [] false "idx" Sample.avg_records).
Proof.
  refine (proj1 (output_mode_entry_rows [] false "idx" [("avg_v", Sample.avg_column)]
                   Sample.avg_records _)).
  wf_dict.
Defined.

(** ** The LML file of the file parser *)

Lemma keys_cons {V} k (v : V) d : PyDict.keys ((k, v) :: d) = k :: PyDict.keys d.
Proof. reflexivity. Qed.

Lemma object_names_cons id name ty out :
  object_names (Object id name ty :: out) = name :: object_names out.
Proof. reflexivity. Qed.

Lemma files_write_objects_reading p t digits units :
  forall i,
    forallb has_object_id units = true ->
    object_names (snd (Files.write_objects p t digits i units)) = PyDict.keys units
    /\ PyDict.keys (fst (Files.write_objects p t digits i units)) = PyDict.keys units
    /\ mapM unit_id (fst (Files.write_objects p t digits i units))
       = Some (object_ids (snd (Files.write_objects p t digits i units)))
    /\ info_oids (snd (Files.write_objects p t digits i units)) = [].
Proof.
  induction units as [|[name item] rest IH]; intros i; [done|].
  cbn [forallb]. rewrite andb_true_iff. unfold has_object_id at 1. cbn [snd].
  intros [Hitem Hrest]. cbn [Files.write_objects].
  destruct (Files.has_id item) eqn:Eh.
  - specialize (IH i Hrest).
    destruct (Files.write_objects p t digits i rest) as [rest' out].
    destruct IH as (Hn & Hk & Hi & Ho). cbn [fst snd] in *.
    rewrite object_names_cons, !keys_cons, Hn, Hk.
    split_and!; [done|done| |done].
    unfold Files.has_id in Eh. destruct (PyDict.get "__id" item) as [v|] eqn:Eid; [|done].
    by apply mapM_unit_id_cons.
  - rewrite orb_false_r in Hitem. rewrite Hitem.
    specialize (IH (S i) Hrest).
    destruct (Files.write_objects p t digits (S i) rest) as [rest' out].
    destruct IH as (Hn & Hk & Hi & Ho). cbn [fst snd] in *.
    rewrite object_names_cons, !keys_cons, Hn, Hk.
    split_and!; [done|done| |done].
    apply (mapM_unit_id_cons _ _ (AStr (make_id p digits (i + 1)))); [apply get_set_eq|done].
Qed.

Lemma files_data_elems_reading item :
  object_ids (flat_map Files.data_elems item) = []
  /\ info_oids (flat_map Files.data_elems item) = []
  /\ object_names (flat_map Files.data_elems item) = [].
Proof.
  induction item as [|[key value] item (IH1 & IH2 & IH3)]; [done|].
  unfold object_ids, info_oids, object_names in *. cbn [flat_map].
  rewrite !omap_app, IH1, IH2, IH3.
  unfold Files.data_elems.
  destruct (PyStr.startswith "__nelems" key); [done|].
  destruct (PyStr.startswith "__" key); [done|].
  by destruct (negb (is_none value)).
Qed.

Lemma mapM_unit_id_inv name item (d : store) ids :
  mapM unit_id ((name, item) :: d) = Some ids ->
  exists v ids',
    PyDict.get "__id" item = Some v /\ mapM unit_id d = Some ids' /\ ids = py_str v :: ids'.
Proof.
  change (mapM unit_id ((name, item) :: d))
    with (unit_id (name, item) ≫= λ y, mapM unit_id d ≫= λ k, mret (y :: k)).
  destruct (unit_id (name, item)) as [y|] eqn:Ey; [|done].
  unfold unit_id in Ey. cbn [snd] in Ey.
  destruct (PyDict.get "__id" item) as [v|]; [|done]. injection Ey as <-.
  destruct (mapM unit_id d) as [ids'|]; [|done]. intros [= <-]. eauto.
Qed.

Lemma info_block_reading name item v :
  PyDict.get "__id" item = Some v ->
  info_oids (Files.info_block (name, item)) = [py_str v]
  /\ object_ids (Files.info_block (name, item)) = []
  /\ object_names (Files.info_block (name, item)) = [].
Proof.
  intros Eid. destruct (files_data_elems_reading item) as (H1 & H2 & H3).
  unfold object_ids, info_oids, object_names, Files.info_block in *. rewrite Eid.
  change (InfoOpen (py_str v) :: flat_map Files.data_elems item ++ [InfoClose])
    with ([InfoOpen (py_str v)] ++ flat_map Files.data_elems item ++ [InfoClose]).
  by rewrite !omap_app, H1, H2, H3.
Qed.

Lemma files_info_blocks_reading (d : store) ids :
  mapM unit_id d = Some ids ->
  info_oids (flat_map Files.info_block d) = ids
  /\ object_ids (flat_map Files.info_block d) = []
  /\ object_names (flat_map Files.info_block d) = [].
Proof.
  revert ids. induction d as [|[name item] d IH]; intros ids.
  - by intros [= <-].
  - intros (v & ids' & Eid & Hd & ->)%mapM_unit_id_inv.
    destruct (IH _ Hd) as (Hi & Ho & Hn).
    destruct (info_block_reading name item v Eid) as (H1 & H2 & H3).
    unfold object_ids, info_oids, object_names in *. cbn [flat_map].
    by rewrite !omap_app, H1, H2, H3, Hi, Ho, Hn.
Qed.

Lemma perform_lml_write_reading (d : store) id_prefix_cfg default_type_cfg :
  forallb has_object_id d = true ->
  let '(d', out) := Files._perform_lml_write d id_prefix_cfg default_type_cfg in
  PyDict.keys d' = PyDict.keys d
  /\ object_names out = PyDict.keys d
  /\ mapM unit_id d' = Some (object_ids out)
  /\ info_oids out = object_ids out.
Proof.
  intros Hd. unfold Files._perform_lml_write.
  pose proof (files_write_objects_reading id_prefix_cfg default_type_cfg
                (id_digits (length (Files.countable d))) d 0 Hd) as (Hn & Hk & Hi & Ho).
  destruct (Files.write_objects id_prefix_cfg default_type_cfg
              (id_digits (length (Files.countable d))) 0 d) as [d1 objects].
  cbn [fst snd] in *.
  destruct (files_info_blocks_reading _ _ Hi) as (Hb1 & Hb2 & Hb3).
  unfold object_ids, object_names, info_oids in *.
  change (Header :: ObjectsOpen :: objects
          ++ ObjectsClose :: InformationOpen :: flat_map Files.info_block d1
          ++ [InformationClose; Footer])
    with ([Header; ObjectsOpen] ++ objects
          ++ [ObjectsClose; InformationOpen] ++ flat_map Files.info_block d1
          ++ [InformationClose; Footer]).
  rewrite !omap_app, Hn, Ho, Hb1, Hb2, Hb3, Hi. cbn. by rewrite !app_nil_r.
Qed.

(** X29: the LML file of the file parser, for units that are no
    [pstat] objects or have an id: the keys of the store are kept, the
    objects are named after the units in their order, their ids are
    the [__id] of the units afterwards and the [<info>] blocks carry
    the same ids in the same order. *)
Theorem files_objects_match_infos (d : store) id_prefix_cfg default_type_cfg :
  forallb has_object_id d = true ->
  let '(d', out) := Files._perform_lml_write d id_prefix_cfg default_type_cfg in
  PyDict.keys d' = PyDict.keys d
  /\ object_names out = PyDict.keys d
  /\ mapM unit_id d' = Some (object_ids out)
  /\ info_oids out = object_ids out.
Proof. apply perform_lml_write_reading. Qed.

Lemma files_objects_match_infos_witness :
  info_oids (snd (Files._perform_lml_write Sample.two_nodes "n" "node"))
  = object_ids (snd (Files._perform_lml_write Sample.two_nodes "n" "node")).
Proof.
  pose proof (files_objects_match_infos Sample.two_nodes "n" "node" eq_refl)
    as H.
  destruct (Files._perform_lml_write Sample.two_nodes "n" "node") as [d' out].
  exact (proj2 (proj2 (proj2 H))).
Defined.

(** ** From rows to the LML file *)

Section EntryFacts.
Variable default_map : record.
Variable group_name : string.
Variables group_start_time group_end_time duration : atom.

Lemma In_set {V} k (v : V) d : In (k, v) (PyDict.set k v d).
Proof.
  induction d as [|[k' v'] d IH]; simpl; [by left|].
  destruct (String.eqb k k') eqn:E; [|by right].
  apply String.eqb_eq in E. subst k'. by left.
Qed.

Lemma set_forallb {V} (f : string * V -> bool) k v d :
  f (k, v) = true -> forallb f d = true -> forallb f (PyDict.set k v d) = true.
Proof.
  intros Hkv. induction d as [|[k' v'] d IH]; simpl; [by rewrite Hkv|].
  destruct (String.eqb k k') eqn:E; simpl; rewrite !andb_true_iff.
  - apply String.eqb_eq in E. subst k'. tauto.
  - intros [? ?]. split; [done|]. by apply IH.
Qed.

Lemma lml_rows_not_pstat ty index_key field_names data_rows :
  ty <> "pstat" ->
  forall i name_counts lml_dict,
    forallb has_object_id lml_dict = true ->
    forallb has_object_id
      (Files.lml_rows ty index_key field_names i data_rows name_counts lml_dict) = true.
Proof.
  intros Hty. induction data_rows as [|row rest IH]; intros i name_counts lml_dict Hd; [done|].
  cbn [Files.lml_rows]. apply IH. apply set_forallb; [|done].
  unfold has_object_id, Files.not_pstat. cbn [snd]. rewrite get_set_eq. cbn [ne_str].
  apply String.eqb_neq in Hty. by rewrite Hty.
Qed.

Lemma timing_has_id ty n name :
  Files.has_id (Files.timing_values group_start_time group_end_time duration ty n name) = true
  /\ PyDict.get "__id" (Files.timing_values group_start_time group_end_time duration ty n name)
     = Some (AStr ("pstat_" +:+ name))
  /\ PyDict.get "__type" (Files.timing_values group_start_time group_end_time duration ty n name)
     = Some (AStr "pstat").
Proof. repeat split; reflexivity. Qed.

Lemma lml_dict_has_object_ids ty index_key field_names data_rows :
  ty <> "pstat" ->
  forallb has_object_id
    (Files.lml_dict_of group_name group_start_time group_end_time duration
       ty index_key field_names data_rows) = true.
Proof.
  intros Hty. unfold Files.lml_dict_of. apply set_forallb.
  - unfold has_object_id. cbn [snd].
    destruct (timing_has_id ty (length data_rows)
                (Files.timing_name group_name
                   (Files.lml_rows ty index_key field_names 0 data_rows [] []))) as [-> _].
    apply orb_true_r.
  - by apply lml_rows_not_pstat.
Qed.

Lemma files_write_objects_In p t digits units name item :
  In (name, item) units -> Files.has_id item = true ->
  forall i,
    In (name, item) (fst (Files.write_objects p t digits i units))
    /\ In (Object (py_str (default ANone (PyDict.get "__id" item))) name
             (match PyDict.get "__type" item with Some v => py_str v | None => t end))
         (snd (Files.write_objects p t digits i units)).
Proof.
  intros Hin Hid. induction units as [|[name' item'] rest IH]; intros i; [done|].
  cbn [Files.write_objects]. destruct Hin as [[= -> ->]|Hin].
  - rewrite Hid. destruct (Files.write_objects p t digits i rest) as [rest' out].
    split; by left.
  - destruct (Files.has_id item').
    + specialize (IH Hin i). destruct (Files.write_objects p t digits i rest) as [rest' out].
      destruct IH. split; by right.
    + destruct (Files.not_pstat item').
      * specialize (IH Hin (S i)).
        destruct (Files.write_objects p t digits (S i) rest) as [rest' out].
        destruct IH. split; by right.
      * specialize (IH Hin i).
        destruct (Files.write_objects p t digits i rest) as [rest' out].
        destruct IH. split; by right.
Qed.

Lemma info_blocks_In (d : store) name item key value :
  In (name, item) d -> In (key, value) item ->
  forall e, In e (Files.data_elems (key, value)) -> In e (flat_map Files.info_block d).
Proof.
  intros Hd Hitem e He. apply in_flat_map. exists (name, item). split; [done|].
  unfold Files.info_block. right. apply in_app_iff. left.
  apply in_flat_map. eauto.
Qed.

(** X30: [_write_lml_output] always writes the timing object, of type
    [pstat] and with the id [pstat_] and its name, and in it the
    number of rows, under [nelems] and under [__nelems_] and the type
    of the rows.  Unless the rows are themselves of type [pstat],
    every object of the file has its [<info>] block under the same
    id. *)
Theorem write_lml_output_pstat prefix ty index_key field_names data_rows :
  let name :=
    Files.timing_name group_name
      (Files.lml_rows ty index_key field_names 0 data_rows [] []) in
  let n := PyStr.of_Z (Z.of_nat (length data_rows)) in
  let '(d', out) :=
    Files._write_lml_output group_name group_start_time group_end_time duration
      prefix ty index_key field_names data_rows in
  In (Object ("pstat_" +:+ name) name "pstat") out
  /\ In (Data "nelems" n) out
  /\ In (Data ("__nelems_" +:+ ty) n) out
  /\ (ty <> "pstat" ->
      info_oids out = object_ids out /\ object_names out = PyDict.keys d').
Proof.
  intros name n. unfold Files._write_lml_output.
  set (d := Files.lml_dict_of group_name group_start_time group_end_time duration
              ty index_key field_names data_rows).
  set (tv := Files.timing_values group_start_time group_end_time duration ty
               (length data_rows) name).
  assert (In (name, tv) d) as Hin by apply In_set.
  destruct (timing_has_id ty (length data_rows) name) as (Hid & Hget & Hty).
  pose proof (perform_lml_write_reading d prefix ty) as Hm.
  unfold Files._perform_lml_write in *.
  pose proof (files_write_objects_In prefix ty (id_digits (length (Files.countable d)))
                d name tv Hin Hid 0) as [Hd1 Hobj].
  destruct (Files.write_objects prefix ty (id_digits (length (Files.countable d))) 0 d)
    as [d1 objects]. cbn [fst snd] in *.
  fold tv in Hget, Hty. rewrite Hget, Hty in Hobj. cbn [default id py_str] in Hobj.
  split_and!.
  - right. right. apply in_app_iff. by left.
  - right. right. apply in_app_iff. right. right. right. apply in_app_iff. left.
    apply (info_blocks_In d1 name tv "nelems" (AInt (Z.of_nat (length data_rows))));
      [done| |by left].
    unfold tv, Files.timing_values. simpl. tauto.
  - right. right. apply in_app_iff. right. right. right. apply in_app_iff. left.
    apply (info_blocks_In d1 name tv ("__nelems_" +:+ ty)
             (AInt (Z.of_nat (length data_rows)))); [done| |].
    + unfold tv, Files.timing_values. simpl. tauto.
    + unfold Files.data_elems.
      assert (PyStr.startswith "__nelems" ("__nelems_" +:+ ty) = true) as -> by reflexivity.
      by left.
  - intros Hne. destruct (Hm (lml_dict_has_object_ids _ _ _ _ Hne)) as (Hk & Hn & _ & Hi).
    split; [done|]. by rewrite Hk.
Qed.

End EntryFacts.
